(** * Rainfall ingestion and feature pipeline (lluvia_processor/src/main.py)

    Shallow embedding of [LluviaProcessor]: block-wise retrieval from the
    remote API, the spatial filter, the daily aggregation, the quality
    control of stations and the construction of the model table with the
    accumulated rainfall columns.

    Conventions of the embedding:
    - an instant (naive [datetime], resolution of one second) is a [Z]: the
      number of seconds since an arbitrary epoch at midnight; a calendar date
      is a [Z]: the number of days since that epoch ([fecha_de]);
    - a [float64] reading is an exact rational [Q]; [NaN]/[NaT]/missing is
      [None];
    - a string is the sequence of the bytes of its UTF-8 encoding;
    - a pandas frame is the list of its rows, in index order;
    - a Python exception is the [Excepcion] branch of [resultado]. *)

From Stdlib Require Import ZArith QArith String Ascii DecimalString.
From stdpp Require Import base list gmap strings sorting.

Local Open Scope Z_scope.

(** ** Instants and dates *)

Definition SEGUNDOS_DIA : Z := 86400.

(** [Series.dt.date]: the calendar date of an instant. *)
Definition fecha_de (t : Z) : Z := t `div` SEGUNDOS_DIA.

(** ** Results of fallible code *)

Inductive resultado (A : Type) : Type :=
  | Ok (a : A)
  | Excepcion (msg : string).
Arguments Ok {A} a.
Arguments Excepcion {A} msg.

(** ** Strings: [str.strip]

    [str.strip()] removes from both ends of a string the characters for
    which [str.isspace] holds: U+0009 to U+000D, U+001C to U+0020, U+0085,
    U+00A0, U+1680, U+2000 to U+200A, U+2028, U+2029, U+202F, U+205F and
    U+3000. [ESPACIOS_UTF8] lists their UTF-8 encodings; no encoding is the
    beginning or the end of another one. *)

Definition ESPACIOS_UTF8 : list (list nat) :=
  (((λ n : nat, [n]) <$> [9; 10; 11; 12; 13; 28; 29; 30; 31; 32])
   ++ [[194; 133]; [194; 160]; [225; 154; 128]]
   ++ ((λ n : nat, [226; 128; n]) <$> [128; 129; 130; 131; 132; 133; 134; 135; 136; 137;
                                       138; 168; 169; 175])
   ++ [[226; 129; 159]; [227; 128; 128]])%nat.

Definition ESPACIOS : list (list ascii) :=
  (λ p : list nat, ascii_of_nat <$> p) <$> ESPACIOS_UTF8.

(** The string without its first character, when that is white space. *)
Definition sin_espacio_inicial (l : list ascii) : option (list ascii) :=
  (λ p, drop (length p) l) <$> head (filter (λ p, p `prefix_of` l) ESPACIOS).

(** The string without its last character, when that is white space. *)
Definition sin_espacio_final (l : list ascii) : option (list ascii) :=
  (λ p, take (length l - length p) l) <$> head (filter (λ p, p `suffix_of` l) ESPACIOS).

(** [f] applied while it gives a result, at most [n] times. *)
Fixpoint repetir {A} (n : nat) (f : A → option A) (x : A) : A :=
  match n with
  | O => x
  | S n' => match f x with Some y => repetir n' f y | None => x end
  end.

(** Each step removes at least one byte: the length bounds the steps. *)
Definition lstrip (l : list ascii) : list ascii := repetir (length l) sin_espacio_inicial l.
Definition rstrip (l : list ascii) : list ascii := repetir (length l) sin_espacio_final l.

Definition strip (s : string) : string :=
  string_of_list_ascii (rstrip (lstrip (list_ascii_of_string s))).

(** ** Orders used by [groupby] and [sort_values] *)

Definition str_le (a b : string) : Prop := String.compare a b ≠ Gt.

Global Instance str_le_dec a b : Decision (str_le a b).
Proof. unfold str_le. apply _. Defined.

(** Descending order on dates, for [sort_values('fecha', ascending=False)]. *)
Definition fecha_desc {A} (f : A → Z) (a b : A) : Prop := f b ≤ f a.

(** [sort_values(col, ascending=False)] on a date column: most recent
    first, rows with the same date in the order they have in the frame. *)
Fixpoint insertar_desc {A} (f : A → Z) (r : A) (l : list A) : list A :=
  match l with
  | [] => [r]
  | x :: l' => if decide (f x ≤ f r) then r :: x :: l' else x :: insertar_desc f r l'
  end.

Definition ordenar_desc {A} (f : A → Z) (l : list A) : list A :=
  foldr (insertar_desc f) [] l.

(** [Series.sum()] in exact arithmetic, from which the sum of the doubles
    differs by its rounding; an empty selection sums to 0. *)
Definition suma (l : list Q) : Q := foldl Qplus 0%Q l.

(** [Series.max()] on dates: [None] (NaT) on an empty column. *)
Definition max_fecha (l : list Z) : option Z :=
  match l with
  | [] => None
  | x :: l' => Some (foldl Z.max x l')
  end.

(** [Series.nunique()]. *)
Definition nunique `{EqDecision A} (l : list A) : nat := length (remove_dups l).

(** * Data model *)

(** A record of the remote API, after the column conversions the pipeline
    applies to it ([pd.to_datetime], [pd.to_numeric(errors='coerce')]). *)
Record Observacion : Type := {
  obs_codigoestacion : string;
  obs_fechaobservacion : option Z;
  obs_valorobservado : option Q;
  obs_latitud : option Q;
  obs_longitud : option Q;
  obs_municipio : option string;
  obs_departamento : option string;
}.

(** A row of [df_lluvia_diaria]: the daily total of one group. The locality
    columns can hold NaN after [corregir_inconsistencias_localidades]. *)
Record LluviaDiaria : Type := {
  codigoestacion : string;
  fecha : Z;
  municipio : option string;
  departamento : option string;
  lluvia_diaria : Q;
}.

(** A row of the stations shapefile (the columns the pipeline reads). *)
Record Estacion : Type := {
  codigo : string;
  mpio_def : option string;
  depto_def : option string;
}.

(** * Daily aggregation: the [groupby] of [procesar_lluvia_diaria] *)

Definition Clave : Type := string * Z * string * string.

Definition cmp_clave (a b : Clave) : comparison :=
  let '(c1, f1, m1, d1) := a in
  let '(c2, f2, m2, d2) := b in
  match String.compare c1 c2 with
  | Eq => match Z.compare f1 f2 with
          | Eq => match String.compare m1 m2 with
                  | Eq => String.compare d1 d2
                  | c => c
                  end
          | c => c
          end
  | c => c
  end.

Definition clave_le (a b : Clave) : Prop := cmp_clave a b ≠ Gt.

Global Instance clave_le_dec a b : Decision (clave_le a b).
Proof. unfold clave_le. apply _. Defined.

(** The group key of a record: the station code as a stripped string, the
    calendar date of the observation, municipality and department.
    [groupby] drops the rows in which a key is missing. *)
Definition clave_de (o : Observacion) : option Clave :=
  f ← fecha_de <$> obs_fechaobservacion o;
  m ← obs_municipio o;
  d ← obs_departamento o;
  Some (strip (obs_codigoestacion o), f, m, d).

Definition valores_de (k : Clave) (obs : list Observacion) : list Q :=
  omap obs_valorobservado (filter (λ o, clave_de o = Some k) obs).

Definition fila_diaria (obs : list Observacion) (k : Clave) : LluviaDiaria :=
  let '(c, f, m, d) := k in
  {| codigoestacion := c; fecha := f; municipio := Some m;
     departamento := Some d; lluvia_diaria := suma (valores_de k obs) |}.

(** [groupby([...])['valorobservado'].sum().reset_index(...)]: one row per
    group, groups in key order, NaN readings skipped by the sum. *)
Definition agrupar_lluvia_diaria (obs : list Observacion) : list LluviaDiaria :=
  fila_diaria obs <$> merge_sort clave_le (remove_dups (omap clave_de obs)).

(** * Quality control: [control_calidad_datos] *)

(** The groups of [groupby('codigoestacion')], in key order. *)
Definition estaciones (df : list LluviaDiaria) : list string :=
  merge_sort str_le (remove_dups (codigoestacion <$> df)).

Definition grupo (estacion : string) (df : list LluviaDiaria) : list LluviaDiaria :=
  filter (λ r, codigoestacion r = estacion) df.

Definition conteo_dias (df : list LluviaDiaria) : list (string * nat) :=
  (λ e, (e, nunique (fecha <$> grupo e df))) <$> estaciones df.

Definition total_dias_disponibles (df : list LluviaDiaria) : nat :=
  nunique (fecha <$> df).

(** [int(total_dias_disponibles * 0.8)]: the double nearest to 0.8 lies
    above 4/5 by less than 1e-16, so the truncated product is the floor of
    4n/5 for every count that fits a frame. *)
Definition umbral_minimo_dias (df : list LluviaDiaria) : nat :=
  (total_dias_disponibles df * 4 / 5)%nat.

Definition estaciones_a_excluir (df : list LluviaDiaria) : list string :=
  (filter (λ p : string * nat, (p.2 < umbral_minimo_dias df)%nat) (conteo_dias df)).*1.

Definition df_lluvia_completo (df : list LluviaDiaria) : list LluviaDiaria :=
  filter (λ r, codigoestacion r ∉ estaciones_a_excluir df) df.

(** [pd.date_range(end=fecha_final, periods=4)]. *)
Definition ultimos_dias (fecha_final : Z) : list Z :=
  [fecha_final - 3; fecha_final - 2; fecha_final - 1; fecha_final].

Definition df_ultimos4 (fecha_final : Z) (completo : list LluviaDiaria) : list LluviaDiaria :=
  filter (λ r, fecha r ∈ ultimos_dias fecha_final) completo.

(** [df_ultimos4.groupby('codigoestacion')['fecha'].nunique()]: one entry
    per station that has a row in [df_ultimos4]. *)
Definition conteo_por_estacion (fecha_final : Z) (completo : list LluviaDiaria)
  : list (string * nat) :=
  conteo_dias (df_ultimos4 fecha_final completo).

Definition estaciones_incompletas (fecha_final : Z) (completo : list LluviaDiaria)
  : list string :=
  (filter (λ p : string * nat, (p.2 < 4)%nat) (conteo_por_estacion fecha_final completo)).*1.

Definition df_lluvia_filtrado (fecha_final : Z) (completo : list LluviaDiaria)
  : list LluviaDiaria :=
  filter (λ r, codigoestacion r ∉ estaciones_incompletas fecha_final completo) completo.

(** [groupby('codigoestacion')[['municipio','departamento']].nunique()]
    restricted to the stations with more than one value in either column
    ([nunique] does not count NaN). *)
Definition codigos_inconsistentes (df : list LluviaDiaria) : list string :=
  filter (λ e, (1 < nunique (omap municipio (grupo e df)))%nat
               ∨ (1 < nunique (omap departamento (grupo e df)))%nat)
         (estaciones df).

(** [Series.to_dict()] of a column indexed by the stripped station code: a
    later row of the shapefile overrides an earlier one with the same code. *)
Definition dict_def (col : Estacion → option string) (shape : list Estacion)
  : gmap string (option string) :=
  foldl (λ d e, <[strip (codigo e) := col e]> d) ∅ shape.

(** [Series.map(dict)]: NaN for a code that is not a key. *)
Definition map_dict (d : gmap string (option string)) (c : string) : option string :=
  mjoin (d !! c).

(** [corregir_inconsistencias_localidades]. [existe] is
    [estaciones_path.exists()]; [shape] is what [gpd.read_file] gives, [None]
    when reading the file or one of its columns raises: the [except] clause
    logs the error and the frame is returned as it was. *)
Definition corregir_inconsistencias_localidades
    (existe : bool) (shape : option (list Estacion))
    (df : list LluviaDiaria) (codigos : list string) : list LluviaDiaria :=
  if existe then
    match shape with
    | Some shape_estaciones =>
        let dict_mpio_def := dict_def mpio_def shape_estaciones in
        let dict_depto_def := dict_def depto_def shape_estaciones in
        (λ r, if decide (codigoestacion r ∈ codigos)
              then {| codigoestacion := codigoestacion r;
                      fecha := fecha r;
                      municipio := map_dict dict_mpio_def (codigoestacion r);
                      departamento := map_dict dict_depto_def (codigoestacion r);
                      lluvia_diaria := lluvia_diaria r |}
              else r) <$> df
    | None => df
    end
  else df.

Definition control_calidad_datos
    (existe : bool) (shape : option (list Estacion))
    (df_lluvia_diaria : list LluviaDiaria) : resultado (list LluviaDiaria) :=
  let completo := df_lluvia_completo df_lluvia_diaria in
  if decide (completo = []) then
    Excepcion "Sin datos después de control de calidad"
  else
    match max_fecha (fecha <$> completo) with
    | None => Excepcion "Fecha final inválida"
    | Some fecha_final =>
        let filtrado := df_lluvia_filtrado fecha_final completo in
        let codigos := codigos_inconsistentes filtrado in
        if decide (codigos = []) then Ok filtrado
        else Ok (corregir_inconsistencias_localidades existe shape filtrado codigos)
    end.

(** * Feature construction: [generar_formato_modelo] *)

(** An entry of the long-format list [resultados]. *)
Record Acumulado : Type := {
  ac_codigoestacion : string;
  dias_acumulados : nat;
  lluvia_acumulada : Q;
  ac_fecha : Z;
  ac_municipio : option string;
  ac_departamento : option string;
}.

(** A row of the model table, columns in the order of [orden_columnas]:
    codigoestacion, data, daily rain, 1-, 2-, 3-, 15- and 30-rain ant.rain. *)
Record FilaModelo : Type := {
  fm_codigoestacion : string;
  data : option Z;
  daily_rain : option Q;
  rain_ant_1 : option Q;
  rain_ant_2 : option Q;
  rain_ant_3 : option Q;
  rain_ant_15 : option Q;
  rain_ant_30 : option Q;
}.

Definition ventanas : list nat := [1; 2; 3; 15; 30]%nat.

(** The rows of one station from [fecha_final - 29 days] on, most recent
    first; two rows of one date stay in the order of the frame. *)
Definition datos_est (fecha_final : Z) (grupo : list LluviaDiaria) : list LluviaDiaria :=
  ordenar_desc fecha (filter (λ r, fecha_final - 29 ≤ fecha r) grupo).

(** The body of the loop over the stations: nothing for a station without
    a row in the window, else the entry of day 0 and one entry per window. *)
Definition resultados_estacion (fecha_final : Z) (estacion : string)
    (grupo : list LluviaDiaria) : list Acumulado :=
  match datos_est fecha_final grupo with
  | [] => []
  | dia0 :: datos_sin_dia0 =>
      let datos := dia0 :: datos_sin_dia0 in
      let mpio := municipio dia0 in
      let depto := departamento dia0 in
      {| ac_codigoestacion := estacion; dias_acumulados := 0;
         lluvia_acumulada := lluvia_diaria dia0; ac_fecha := fecha dia0;
         ac_municipio := mpio; ac_departamento := depto |}
      :: ((λ dias,
            let acumulado := suma (lluvia_diaria <$> take dias datos_sin_dia0) in
            let fecha_corte :=
              match datos !! dias with
              | Some r => fecha r
              | None => default (fecha dia0) (fecha <$> last datos)
              end in
            {| ac_codigoestacion := estacion; dias_acumulados := dias;
               lluvia_acumulada := acumulado; ac_fecha := fecha_corte;
               ac_municipio := mpio; ac_departamento := depto |}) <$> ventanas)
  end.

Definition resultados (fecha_final : Z) (df : list LluviaDiaria) : list Acumulado :=
  e ← estaciones df; resultados_estacion fecha_final e (grupo e df).

Definition string_of_nat (n : nat) : string := NilEmpty.string_of_uint (Nat.to_uint n).

Definition nombre_columna (x : nat) : string :=
  if decide (x = 0%nat) then "daily rain" else string_of_nat x +:+ "-rain ant.rain".

Definition par_pivot (a : Acumulado) : string * string :=
  (ac_codigoestacion a, nombre_columna (dias_acumulados a)).

(** The cell of the pivot at one (index, column): NaN when no entry has it. *)
Definition celda (e c : string) (ac : list Acumulado) : option Q :=
  lluvia_acumulada <$> head (filter (λ a, par_pivot a = (e, c)) ac).

(** [DataFrame.pivot(index='codigoestacion', columns='nombre_columna',
    values='lluvia_acumulada')] followed by [reset_index()]: one row per
    station in key order, a row being the map from the column name to the
    cell; a repeated (index, column) pair raises [ValueError]. *)
Definition pivot (ac : list Acumulado) : resultado (list (string * gmap string (option Q))) :=
  let pares := par_pivot <$> ac in
  if decide (NoDup pares) then
    let columnas := merge_sort str_le (remove_dups pares.*2) in
    Ok ((λ e, (e, list_to_map ((λ c, (c, celda e c ac)) <$> columnas)))
          <$> merge_sort str_le (remove_dups pares.*1))
  else Excepcion "Index contains duplicate entries, cannot reshape".

(** The rows of day 0, columns codigoestacion and data. *)
Definition fecha_daily (ac : list Acumulado) : list (string * Z) :=
  (λ a, (ac_codigoestacion a, ac_fecha a)) <$> filter (λ a, dias_acumulados a = 0%nat) ac.

(** [merge(fecha_daily, on='codigoestacion', how='left')]: a row per match
    on the right, a single row with NaT when there is none. *)
Definition merge_left (pv : list (string * gmap string (option Q)))
    (fd : list (string * Z)) : list (string * gmap string (option Q) * option Z) :=
  '(e, fila) ← pv;
  match filter (λ p : string * Z, p.1 = e) fd with
  | [] => [(e, fila, None)]
  | coinciden => (λ p : string * Z, (e, fila, Some p.2)) <$> coinciden
  end.

Global Instance resultado_ret : MRet resultado := λ A a, Ok a.
Global Instance resultado_bind : MBind resultado := λ A B f m,
  match m with
  | Ok a => f a
  | Excepcion msg => Excepcion msg
  end.

(** Selecting a column of a row by its name: [KeyError] when absent. *)
Definition columna (c : string) (fila : gmap string (option Q)) : resultado (option Q) :=
  match fila !! c with
  | Some v => Ok v
  | None => Excepcion ("KeyError: " +:+ c)
  end.

(** [resultados_pivot[orden_columnas]] on one row. *)
Definition ordenar_columnas (f : string * gmap string (option Q) * option Z)
  : resultado FilaModelo :=
  let '(e, fila, d) := f in
  c0 ← columna "daily rain" fila;
  c1 ← columna "1-rain ant.rain" fila;
  c2 ← columna "2-rain ant.rain" fila;
  c3 ← columna "3-rain ant.rain" fila;
  c15 ← columna "15-rain ant.rain" fila;
  c30 ← columna "30-rain ant.rain" fila;
  Ok {| fm_codigoestacion := e; data := d; daily_rain := c0; rain_ant_1 := c1;
        rain_ant_2 := c2; rain_ant_3 := c3; rain_ant_15 := c15; rain_ant_30 := c30 |}.

(** [mapM] for [resultado]: the first exception stops the traversal. *)
Fixpoint cada_fila {A B} (f : A → resultado B) (l : list A) : resultado (list B) :=
  match l with
  | [] => Ok []
  | x :: l' => y ← f x; ys ← cada_fila f l'; Ok (y :: ys)
  end.

Definition generar_formato_modelo (df_lluvia_filtrado : list LluviaDiaria)
  : resultado (list FilaModelo) :=
  if decide (df_lluvia_filtrado = []) then Excepcion "Sin datos para modelo"
  else
    match max_fecha (fecha <$> df_lluvia_filtrado) with
    | None => Excepcion "Fecha final inválida en modelo"
    | Some fecha_final =>
        let df_acumulados := resultados fecha_final df_lluvia_filtrado in
        if decide (df_acumulados = []) then Excepcion "KeyError: dias_acumulados"
        else
          resultados_pivot ← pivot df_acumulados;
          cada_fila ordenar_columnas
            (merge_left resultados_pivot (fecha_daily df_acumulados))
    end.

(** [procesar_lluvia_diaria]: aggregation, quality control, model table.
    [validar_datos_lluvia] only writes to the log. *)
Definition procesar_lluvia_diaria
    (existe : bool) (shape : option (list Estacion))
    (gdf_nrt_andina : list Observacion) : resultado (list FilaModelo) :=
  let df_lluvia_diaria := agrupar_lluvia_diaria gdf_nrt_andina in
  df_lluvia_filtrado ← control_calidad_datos existe shape df_lluvia_diaria;
  generar_formato_modelo df_lluvia_filtrado.

(** * The outside world: remote API, file system, clock *)

(** What one request to the API gives: a page of records (empty past the
    end of the data), or an exception whose text mentions a timeout or the
    connection, or any other exception. *)
Inductive Respuesta : Type :=
  | Lote (batch : list Observacion)
  | ErrorConectividad
  | ErrorOtro.

(** The files the service writes under [output_path]. *)
Inductive Archivo : Type :=
  | RAW_lluvia_backup (fecha_max : Z)
  | lluvia_30d (fecha : Z)
  | lluvia_procesada_latest
  | resumen_lluvia.

Global Instance Archivo_eq_dec : EqDecision Archivo.
Proof. solve_decision. Defined.

(** The state the run changes: the number of requests sent so far, the
    pauses taken ([time.sleep], in seconds), the download reports written to
    the log (number of records, coverage) and the files written, each in
    order. *)
Record Mundo : Type := {
  llamadas : nat;
  pausas : list Z;
  reportes : list (nat * Q);
  archivos : list Archivo;
}.

Definition mundo_inicial : Mundo :=
  {| llamadas := 0; pausas := []; reportes := []; archivos := [] |}.

(** A computation in the world: [None] when a loop ran out of fuel, else
    the value or the exception together with the world it leaves. *)
Definition M (A : Type) : Type := Mundo → option (resultado A * Mundo).

Global Instance M_ret : MRet M := λ A a w, Some (Ok a, w).
Global Instance M_bind : MBind M := λ A B f m w,
  match m w with
  | None => None
  | Some (Ok a, w') => f a w'
  | Some (Excepcion msg, w') => Some (Excepcion msg, w')
  end.

Definition lanzar {A} (msg : string) : M A := λ w, Some (Excepcion msg, w).
Definition agotado {A} : M A := λ _, None.

Definition dormir (segundos : Z) : M unit := λ w,
  Some (Ok (), {| llamadas := llamadas w; pausas := pausas w ++ [segundos];
                  reportes := reportes w; archivos := archivos w |}).

Definition escribir (f : Archivo) : M unit := λ w,
  Some (Ok (), {| llamadas := llamadas w; pausas := pausas w;
                  reportes := reportes w; archivos := archivos w ++ [f] |}).

(** The lines of the download report in the log. *)
Definition reportar (registros : nat) (cobertura : Q) : M unit := λ w,
  Some (Ok (), {| llamadas := llamadas w; pausas := pausas w;
                  reportes := reportes w ++ [(registros, cobertura)];
                  archivos := archivos w |}).

(** A pure fallible step inside a run. *)
Definition de_resultado {A} (r : resultado A) : M A := λ w, Some (r, w).

(** A frame whose column names matter: the names and the rows. *)
Record Frame : Type := {
  columnas : list string;
  filas : list Observacion;
}.

Section Servicio.

(** The region shapefile holds polygons; [within region lon lat] is
    [Point(lon, lat).within(region.geometry.union_all())]. *)
Variable Poligono : Type.
Variable within : list Poligono → Q → Q → bool.

(** The region as [gpd.read_file] gives it: the reference system the file
    declares ([None] when it declares none) and its polygons, these in the
    coordinates of EPSG:4326, the system in which the points are tested. *)
Record Region : Type := {
  crs : option Z;
  geometry : list Poligono;
}.

(** Everything the run reads from outside. [client_get n inicio fin offset]
    is the answer of the [n]-th request, for the page at [offset] of the
    query [fechaobservacion >= inicio AND fechaobservacion <= fin], both
    bounds included. [columnas_api] are the columns
    of [DataFrame.from_records(all_data)]: the keys the records carry.
    [region_andina] and [shape_estaciones] are what [gpd.read_file] gives,
    [None] when it raises. *)
Record Entorno : Type := {
  ahora : Z;
  client_get : nat → Z → Z → Z → Respuesta;
  columnas_api : list string;
  existe_estaciones : bool;
  existe_region : bool;
  region_andina : option Region;
  shape_estaciones : option (list Estacion);
}.

Variable env : Entorno.

Definition pedir (inicio fin offset : Z) : M Respuesta := λ w,
  Some (Ok (client_get env (llamadas w) inicio fin offset),
        {| llamadas := S (llamadas w); pausas := pausas w; reportes := reportes w;
           archivos := archivos w |}).

(** * Block-wise retrieval: [obtener_datos_lluvia_masivos] *)

Definition block_size : Z := 1.
Definition max_retries : nat := 3.
Definition limit : Z := 2000.

(** The [while True] loop over the pages of one block. *)
Fixpoint paginas (n : nat) (inicio fin offset : Z)
    (block_data : list Observacion) (batch_errors : nat) : M (list Observacion) :=
  match n with
  | O => agotado
  | S n' =>
      r ← pedir inicio fin offset;
      match r with
      | Lote batch =>
          if decide (batch = []) then mret block_data
          else paginas n' inicio fin (offset + limit) (block_data ++ batch) batch_errors
      | ErrorConectividad =>
          let batch_errors := S batch_errors in
          let offset := offset + limit in
          if decide (batch_errors < 5)%nat
          then paginas n' inicio fin offset block_data batch_errors
          else mret block_data
      | ErrorOtro => mret block_data
      end
  end.

(** The loop [while retry_count <= max_retries and not block_success]:
    [Some block_data] when an attempt brought records, [None] when the
    block is lost. *)
Fixpoint intentos_bloque (n fuel : nat) (inicio fin : Z) (retry_count : nat)
  : M (option (list Observacion)) :=
  if decide (retry_count ≤ max_retries)%nat then
    match n with
    | O => agotado
    | S n' =>
        block_data ← paginas fuel inicio fin 0 [] 0%nat;
        if decide (0 < length block_data)%nat then mret (Some block_data)
        else
          let retry_count := S retry_count in
          (if decide (retry_count ≤ max_retries)%nat then dormir 5 else mret ());;
          intentos_bloque n' fuel inicio fin retry_count
    end
  else mret None.

(** The local variables of [obtener_datos_lluvia_masivos] when its outer
    loop ends; [bloques] lists the blocks the loop went through (each is
    logged when its download starts). *)
Record Descarga : Type := {
  all_data : list Observacion;
  failed_blocks : list (Z * Z);
  bloques : list (Z * Z);
}.

(** The loop [while current_start < end_time]. *)
Fixpoint bucle_bloques (n fuel : nat) (current_start end_time : Z) (d : Descarga)
  : M Descarga :=
  if decide (current_start < end_time) then
    match n with
    | O => agotado
    | S n' =>
        let current_end := Z.min (current_start + block_size * SEGUNDOS_DIA) end_time in
        r ← intentos_bloque fuel fuel current_start current_end 0;
        let b := (current_start, current_end) in
        bucle_bloques n' fuel current_end end_time
          match r with
          | Some block_data =>
              {| all_data := all_data d ++ block_data;
                 failed_blocks := failed_blocks d; bloques := bloques d ++ [b] |}
          | None =>
              {| all_data := all_data d; failed_blocks := failed_blocks d ++ [b];
                 bloques := bloques d ++ [b] |}
          end
    end
  else mret d.

(** The report at the end of the download. *)
Record Reporte : Type := {
  descarga : Descarga;
  total_days : Z;
  failed_days : Z;
  success_percentage : Q;
}.

(** [(end_time - start).days + 1]: [timedelta.days] is the floor of the
    difference in days. *)
Definition dias_solicitados (inicio fin : Z) : Z := (fin - inicio) `div` SEGUNDOS_DIA + 1.

(** [((total_days - failed_days) / total_days) * 100], in exact arithmetic.
    The code compares the double with 70.0 and 50.0; for the 31 days of a
    run no quotient (31 - f) / 31 * 100 is closer to 70 or 50 than 0.9, so
    the comparisons of the doubles and of the rationals agree. *)
Definition cobertura (total_days failed_days : Z) : Q :=
  (inject_Z (total_days - failed_days) / inject_Z total_days * 100)%Q.

Definition obtener_datos_lluvia_masivos (fuel : nat) (fecha_inicio fecha_fin : Z)
  : M Reporte :=
  d ← bucle_bloques fuel fuel fecha_inicio fecha_fin
         {| all_data := []; failed_blocks := []; bloques := [] |};
  let total_days := dias_solicitados fecha_inicio fecha_fin in
  let failed_days := Z.of_nat (length (failed_blocks d)) * block_size in
  if decide (total_days = 0) then lanzar "ZeroDivisionError: division by zero"
  else
    let success_percentage := cobertura total_days failed_days in
    reportar (length (all_data d)) success_percentage;;
    mret {| descarga := d; total_days := total_days; failed_days := failed_days;
            success_percentage := success_percentage |}.

(** * Spatial filter: [filtrar_region_andina] *)

Definition chunk_size : nat := 50 * 1000.

(** [df.iloc[i:i+n] for i in range(0, len(df), n)]. *)
Definition trozos {A} (n : nat) (l : list A) : list (list A) :=
  (λ k, take n (drop (k * n) l)) <$> seq 0 ((length l + n - 1) / n).

Definition coordenadas_validas (o : Observacion) : Prop :=
  is_Some (obs_latitud o) ∧ is_Some (obs_longitud o).

Definition dentro (region : list Poligono) (o : Observacion) : bool :=
  match obs_longitud o, obs_latitud o with
  | Some lon, Some lat => within region lon lat
  | _, _ => false
  end.

(** [cargar_region] logs the error of [gpd.read_file] and raises it again. *)
Definition cargar_region : resultado Region :=
  match region_andina env with
  | Some region => Ok region
  | None => Excepcion "Error cargando región"
  end.

(** [GeoDataFrame.to_crs(epsg=4326)]: [ValueError] on a frame that has no
    reference system. *)
Definition to_crs (region : Region) : resultado (list Poligono) :=
  match crs region with
  | Some _ => Ok (geometry region)
  | None =>
      Excepcion "Cannot transform naive geometries.  Please set a crs on the object first."
  end.

(** The filter from [dropna] on, once the two coordinate columns are
    there: chunks of [n] rows, the rows within the region of each chunk,
    the chunks with a row put together. *)
Definition filtrar_chunks (n : nat) (region : list Poligono) (df_nrt : Frame) : Frame :=
  let df_validas := filter coordenadas_validas (filas df_nrt) in
  let resultados_filtrados :=
    filter (λ c, c ≠ []) ((λ chunk, filter (λ o, dentro region o = true) chunk)
                            <$> trozos n df_validas) in
  if decide (resultados_filtrados = []) then
    {| columnas := columnas df_nrt ++ ["geometry"]; filas := [] |}
  else
    {| columnas := columnas df_nrt ++ ["geometry"]; filas := concat resultados_filtrados |}.

(** [df_nrt['latitud']] and [df_nrt['longitud']] raise [KeyError] on a
    frame without the column. *)
Definition filtrar_region_andina (df_nrt : Frame) : resultado Frame :=
  region_andina ← cargar_region;
  region ← to_crs region_andina;
  if decide ("latitud" ∈ columnas df_nrt) then
    if decide ("longitud" ∈ columnas df_nrt) then
      Ok (filtrar_chunks chunk_size region df_nrt)
    else Excepcion "KeyError: 'longitud'"
  else Excepcion "KeyError: 'latitud'".

(** * The whole run: [procesar_datos_completos], [guardar_resultados], [main] *)

Definition days_back : Z := 30.
Definition max_complete_retries : nat := 2.
Definition min_coverage : Q := 70.

(** The period of the query: from midnight 30 days before today to
    23:59:59 of today. *)
Definition periodo (now : Z) : Z * Z :=
  let end_time := fecha_de now * SEGUNDOS_DIA + 86399 in
  let start_time := fecha_de (end_time - days_back * SEGUNDOS_DIA) * SEGUNDOS_DIA in
  (start_time, end_time).

(** The raw backup, inside [try]/[except]: nothing is written when the
    frame has no column [fechaobservacion] (no record) or no valid date. *)
Definition guardar_respaldo (datos : list Observacion) : M unit :=
  match max_fecha (omap obs_fechaobservacion datos) with
  | Some fecha_max => escribir (RAW_lluvia_backup (fecha_de fecha_max))
  | None => mret ()
  end.

(** The branch through which the retrieval loop is left by [break]. *)
Inductive Rama : Type :=
  | CoberturaAceptable
  | CoberturaReducida.

(** The state after the loop [for attempt in range(max_complete_retries + 1)]:
    how it was left ([None]: the range ran out), the data and coverage of the
    last download, and the number of downloads made. *)
Record Intentos : Type := {
  rama : option Rama;
  datos : list Observacion;
  porcentaje : Q;
  descargas : nat;
}.

Fixpoint bucle_intentos (fuel : nat) (intentos : list nat) (inicio fin : Z)
    (previo : Intentos) : M Intentos :=
  match intentos with
  | [] => mret previo
  | attempt :: resto =>
      (if decide (0 < attempt)%nat then dormir 10 else mret ());;
      r ← obtener_datos_lluvia_masivos fuel inicio fin;
      let all_data := all_data (descarga r) in
      let success_percentage := success_percentage r in
      let estado (b : option Rama) :=
        {| rama := b; datos := all_data; porcentaje := success_percentage;
           descargas := S (descargas previo) |} in
      if Qle_bool min_coverage success_percentage then
        guardar_respaldo all_data;;
        mret (estado (Some CoberturaAceptable))
      else if decide (attempt < max_complete_retries)%nat then
        bucle_intentos fuel resto inicio fin (estado None)
      else if Qle_bool 50 success_percentage && bool_decide (0 < length all_data)%nat then
        guardar_respaldo all_data;;
        mret (estado (Some CoberturaReducida))
      else lanzar "Cobertura de datos insuficiente"
  end.

(** The first part of [procesar_datos_completos]: up to the check that the
    API gave records. *)
Definition descargar_con_reintentos (fuel : nat) : M Intentos :=
  (if existe_estaciones env && existe_region env then mret ()
   else lanzar "Archivos de entrada no disponibles");;
  let '(start_time, end_time) := periodo (ahora env) in
  i ← bucle_intentos fuel (seq 0 (max_complete_retries + 1)) start_time end_time
        {| rama := None; datos := []; porcentaje := 0; descargas := 0 |};
  if decide (datos i = []) then lanzar "Sin datos de API" else mret i.

Definition procesar_datos_completos (fuel : nat) : M (list FilaModelo) :=
  i ← descargar_con_reintentos fuel;
  let df_nrt := {| columnas := columnas_api env; filas := datos i |} in
  match max_fecha (omap obs_fechaobservacion (filas df_nrt)) with
  | None => lanzar "NaTType does not support strftime"
  | Some _ =>
      gdf_nrt_andina ← de_resultado (filtrar_region_andina df_nrt);
      de_resultado
        (procesar_lluvia_diaria (existe_estaciones env) (shape_estaciones env)
           (filas gdf_nrt_andina))
  end.

(** [guardar_resultados]: the dated table, the latest copy and the summary. *)
Definition guardar_resultados (df_resultados : list FilaModelo) : M unit :=
  match head df_resultados with
  | None => lanzar "IndexError: single positional indexer is out-of-bounds"
  | Some fila =>
      match data fila with
      | None => lanzar "NaTType does not support strftime"
      | Some fecha_df =>
          escribir (lluvia_30d fecha_df);;
          escribir lluvia_procesada_latest;;
          escribir resumen_lluvia
      end
  end.

(** [main]: the exit code, 1 when an exception reached it. *)
Definition main (fuel : nat) : Mundo → option (Z * Mundo) := λ w,
  match (df_resultados ← procesar_datos_completos fuel;
         guardar_resultados df_resultados) w with
  | None => None
  | Some (Ok _, w') => Some (0, w')
  | Some (Excepcion _, w') => Some (1, w')
  end.

End Servicio.

Arguments ahora {Poligono} _.
Arguments client_get {Poligono} _ _ _ _ _.
Arguments columnas_api {Poligono} _.
Arguments existe_estaciones {Poligono} _.
Arguments existe_region {Poligono} _.
Arguments region_andina {Poligono} _.
Arguments crs {Poligono} _.
Arguments geometry {Poligono} _.
Arguments to_crs {Poligono} region.
Arguments shape_estaciones {Poligono} _.
Arguments pedir {Poligono} env inicio fin offset _.
Arguments paginas {Poligono} env n inicio fin offset block_data batch_errors _.
Arguments intentos_bloque {Poligono} env n fuel inicio fin retry_count _.
Arguments bucle_bloques {Poligono} env n fuel current_start end_time d _.
Arguments obtener_datos_lluvia_masivos {Poligono} env fuel fecha_inicio fecha_fin _.
Arguments dentro {Poligono} within region o.
Arguments cargar_region {Poligono} env.
Arguments filtrar_chunks {Poligono} within n region df_nrt.
Arguments filtrar_region_andina {Poligono} within env df_nrt.
Arguments bucle_intentos {Poligono} env fuel intentos inicio fin previo _.
Arguments descargar_con_reintentos {Poligono} env fuel _.
Arguments procesar_datos_completos {Poligono} within env fuel _.
Arguments main {Poligono} within env fuel _.
(** * Auxiliary definitions and scenarios *)

(** The group key of a daily row. *)
Definition clave_fila (r : LluviaDiaria) : string * Z * option string * option string :=
  (codigoestacion r, fecha r, municipio r, departamento r).

(** What [corregir_inconsistencias_localidades] keeps of every row. *)
Definition datos_fila (r : LluviaDiaria) : string * Z * Q :=
  (codigoestacion r, fecha r, lluvia_diaria r).


(** A daily row of a station with fixed locality names. *)
Definition fila (c : string) (d : Z) (v : Q) : LluviaDiaria :=
  {| codigoestacion := c; fecha := d; municipio := Some "M";
     departamento := Some "D"; lluvia_diaria := v |}.

(** [n] consecutive daily rows of a station from date [desde] on; the value
    of date [d] is [d + 1]. *)
Definition serie (c : string) (desde : Z) (n : nat) : list LluviaDiaria :=
  (λ k, fila c (desde + Z.of_nat k) (inject_Z (desde + Z.of_nat k + 1))) <$> seq 0 n.

(** A reading of a station at an instant. *)
Definition lectura (c : string) (t : Z) (v : Q) (mpio : string) : Observacion :=
  {| obs_codigoestacion := c; obs_fechaobservacion := Some t;
     obs_valorobservado := Some v; obs_latitud := Some 4%Q;
     obs_longitud := Some (-74)%Q; obs_municipio := Some mpio;
     obs_departamento := Some "D" |}.

(** Scenario: one station, two readings on the same date that carry two
    spellings of the municipality. *)
Definition obs_dos_municipios : list Observacion :=
  [lectura "A001" 3600 2 "Medellin"; lectura "A001" 7200 3 "Medellín"].

(** Scenario: in a 31-day query (dates 0 to 30) no station reports before
    date 10; station A reports on each of the 21 dates from 10 to 30. *)
Definition df_21_de_31 : list LluviaDiaria := serie "A" 10 21.

(** Scenario: station A reports on four dates under two spellings of its
    municipality and is missing from the stations shapefile; station B is
    consistent and is in the shapefile. *)
Definition fila_loc (c : string) (d : Z) (m dep : option string) : LluviaDiaria :=
  {| codigoestacion := c; fecha := d; municipio := m; departamento := dep;
     lluvia_diaria := 1 |}.

Definition df_inconsistente : list LluviaDiaria :=
  [ fila_loc "A" 0 (Some "Bello") (Some "Antioquia");
    fila_loc "A" 1 (Some "BELLO") (Some "Antioquia");
    fila_loc "A" 2 (Some "Bello") (Some "Antioquia");
    fila_loc "A" 3 (Some "Bello") (Some "Antioquia");
    fila_loc "B" 0 (Some "Cali") (Some "Valle");
    fila_loc "B" 1 (Some "Cali") (Some "Valle");
    fila_loc "B" 2 (Some "Cali") (Some "Valle");
    fila_loc "B" 3 (Some "Cali") (Some "Valle") ].

Definition df_reconciliado : list LluviaDiaria :=
  [ fila_loc "A" 0 None None; fila_loc "A" 1 None None;
    fila_loc "A" 2 None None; fila_loc "A" 3 None None;
    fila_loc "B" 0 (Some "Cali") (Some "Valle");
    fila_loc "B" 1 (Some "Cali") (Some "Valle");
    fila_loc "B" 2 (Some "Cali") (Some "Valle");
    fila_loc "B" 3 (Some "Cali") (Some "Valle") ].

Definition shape_solo_B : list Estacion :=
  [ {| codigo := " B "; mpio_def := Some "Cali"; depto_def := Some "Valle del Cauca" |} ].

(** The row of the model table of a station whose rows in the window are,
    most recent first, [dia0 :: resto]: day 0 is reported as it is and each
    accumulation sums the first rows after it. *)
Definition fila_modelo_de (e : string) (dia0 : LluviaDiaria)
    (resto : list LluviaDiaria) : FilaModelo :=
  {| fm_codigoestacion := e;
     data := Some (fecha dia0);
     daily_rain := Some (lluvia_diaria dia0);
     rain_ant_1 := Some (suma (lluvia_diaria <$> take 1 resto));
     rain_ant_2 := Some (suma (lluvia_diaria <$> take 2 resto));
     rain_ant_3 := Some (suma (lluvia_diaria <$> take 3 resto));
     rain_ant_15 := Some (suma (lluvia_diaria <$> take 15 resto));
     rain_ant_30 := Some (suma (lluvia_diaria <$> take 30 resto)) |}.

Definition fila_esperada (fecha_final : Z) (df : list LluviaDiaria) (e : string)
  : option FilaModelo :=
  match datos_est fecha_final (grupo e df) with
  | [] => None
  | dia0 :: resto => Some (fila_modelo_de e dia0 resto)
  end.

(** The index of the pivot: the stations that have an entry in [resultados]. *)
Definition indice (fecha_final : Z) (df : list LluviaDiaria) : list string :=
  merge_sort str_le (remove_dups (par_pivot <$> resultados fecha_final df).*1).

(** Scenario of the specification: station A001 reports on four
    consecutive days the values 10, 0, 5, 2, most recent first. *)
Definition df_cuatro_dias : list LluviaDiaria :=
  [fila "A001" 3 10; fila "A001" 2 0; fila "A001" 1 5; fila "A001" 0 2].

(** Scenario: a 31-day query (dates 0 to 30). Station X reports on dates 0
    to 26 and then stops; station Y reports on the 31 dates. *)
Definition df_X_calla : list LluviaDiaria := serie "X" 0 27 ++ serie "Y" 0 31.



(** Scenario: an environment in which every input file exists but the
    region shapefile cannot be read. *)
Definition env_region_ilegible : Entorno unit :=
  {| ahora := 0;
     client_get := λ _ _ _ _, Lote [];
     columnas_api := ["codigoestacion"; "fechaobservacion"; "valorobservado";
                      "latitud"; "longitud"; "municipio"; "departamento"];
     existe_estaciones := true;
     existe_region := true;
     region_andina := None;
     shape_estaciones := None |}.

Definition env_region_vacia : Entorno unit :=
  {| ahora := 0;
     client_get := λ _ _ _ _, Lote [];
     columnas_api := ["codigoestacion"; "fechaobservacion"; "valorobservado";
                      "latitud"; "longitud"; "municipio"; "departamento"];
     existe_estaciones := true;
     existe_region := true;
     region_andina := Some {| crs := Some 4326; geometry := [] |};
     shape_estaciones := None |}.

(** Containment in a union of unit squares standing for polygons: the
    empty union contains nothing. *)
Definition within_alguno (region : list unit) (lon lat : Q) : bool :=
  bool_decide (region ≠ []).

Definition df_dos_lecturas : Frame :=
  {| columnas := ["codigoestacion"; "fechaobservacion"; "valorobservado";
                  "latitud"; "longitud"; "municipio"; "departamento"];
     filas := [lectura "A" 0 1 "M"; lectura "B" 60 2 "M"] |}.

(** What a download may change in the world besides the request counter:
    it takes pauses of 5 seconds, writes no report and no file. *)
Definition solo_descarga (w w' : Mundo) : Prop :=
  archivos w' = archivos w
  ∧ reportes w' = reportes w
  ∧ ∃ ps, pausas w' = pausas w ++ ps ∧ Forall (λ s, s = 5) ps.

(** The number of blocks of a range: its length in days, rounded up. *)
Definition bloques_previstos (current_start end_time : Z) : nat :=
  Z.to_nat ((end_time - current_start + (SEGUNDOS_DIA - 1)) `div` SEGUNDOS_DIA).

(** The data set behind the API is finite: from the offset [B] on, a
    request that answers gives the empty page. *)
Definition api_finita {Poligono} (env : Entorno Poligono) (B : Z) : Prop :=
  ∀ n inicio fin offset batch,
    B ≤ offset → client_get env n inicio fin offset = Lote batch → batch = [].

(** The pages of a block that can still hold records, from [offset] on. *)
Definition paginas_pendientes (B offset : Z) : nat :=
  Z.to_nat ((B - offset + (limit - 1)) `div` limit).

(** The three ways the retrieval of a run ends. *)
Definition sigue_normal (r : resultado Intentos) : Prop :=
  ∃ i, r = Ok i ∧ rama i = Some CoberturaAceptable.

Definition sigue_degradada (r : resultado Intentos) : Prop :=
  ∃ i, r = Ok i ∧ rama i = Some CoberturaReducida.

Definition aborta {A} (r : resultado A) : Prop := ∃ msg, r = Excepcion msg.

(** Scenario: the API holds, for each block of the query, one page with a
    reading of station A at the start of the block. *)
Definition env_una_lectura_por_dia (now : Z) : Entorno unit :=
  {| ahora := now;
     client_get := λ _ inicio _ offset,
       if decide (offset = 0) then Lote [lectura "A" inicio 1 "M"] else Lote [];
     columnas_api := ["codigoestacion"; "fechaobservacion"; "valorobservado";
                      "latitud"; "longitud"; "municipio"; "departamento"];
     existe_estaciones := true;
     existe_region := true;
     region_andina := Some {| crs := Some 4326; geometry := [tt] |};
     shape_estaciones := None |}.

(** Scenario: the API answers every request with the empty page. *)
Definition env_sin_datos : Entorno unit :=
  {| ahora := 43200;
     client_get := λ _ _ _ _, Lote [];
     columnas_api := [];
     existe_estaciones := true;
     existe_region := true;
     region_andina := Some {| crs := Some 4326; geometry := [tt] |};
     shape_estaciones := None |}.

(** Scenario: a run on date 30 (query from date 0 to date 30). Every block
    is downloaded; station A reports on dates 0 to 15 and station B on
    dates 16 to 30, so neither reaches 80% of the 31 dates; every point
    lies in the region. *)
Definition env_dos_mitades : Entorno unit :=
  {| ahora := 30 * 86400 + 43200;
     client_get := λ _ inicio _ offset,
       if decide (offset = 0)
       then Lote [lectura (if decide (fecha_de inicio ≤ 15) then "A" else "B") inicio 1 "M"]
       else Lote [];
     columnas_api := ["codigoestacion"; "fechaobservacion"; "valorobservado";
                      "latitud"; "longitud"; "municipio"; "departamento"];
     existe_estaciones := true;
     existe_region := true;
     region_andina := Some {| crs := Some 4326; geometry := [tt] |};
     shape_estaciones := None |}.

(** Is a file one of the three of the feature table? *)
Definition es_de_la_tabla (f : Archivo) : Prop :=
  match f with
  | RAW_lluvia_backup _ => False
  | _ => True
  end.

(** Scenario: the stations shapefile is missing. *)
Definition env_sin_estaciones : Entorno unit :=
  {| ahora := 43200;
     client_get := λ _ inicio _ _, Lote [lectura "A" inicio 1 "M"];
     columnas_api := [];
     existe_estaciones := false;
     existe_region := true;
     region_andina := Some {| crs := Some 4326; geometry := [tt] |};
     shape_estaciones := None |}.

(** A model table has a number in every rainfall column and a date. *)
Definition fila_completa (f : FilaModelo) : Prop :=
  is_Some (data f) ∧ is_Some (daily_rain f) ∧ is_Some (rain_ant_1 f)
  ∧ is_Some (rain_ant_2 f) ∧ is_Some (rain_ant_3 f) ∧ is_Some (rain_ant_15 f)
  ∧ is_Some (rain_ant_30 f).

Global Instance str_le_total : Total str_le.
Proof.
  intros a b. unfold str_le. rewrite (String.compare_antisym b a).
  destruct (String.compare a b); simpl; auto.
Qed.

(** Blocks that follow one another from [desde] to [hasta]: each starts
    where the one before ends and has positive length; each lasts one day,
    but the last, which ends at [hasta] and can be shorter. *)
Fixpoint bloques_contiguos (desde hasta : Z) (bs : list (Z * Z)) : Prop :=
  match bs with
  | [] => hasta ≤ desde
  | (a, b) :: bs' =>
      a = desde ∧ a < b ∧ b ≤ hasta
      ∧ (b = a + SEGUNDOS_DIA ∨ (b = hasta ∧ b < a + SEGUNDOS_DIA))
      ∧ bloques_contiguos b hasta bs'
  end.

(** The API holds no record and has no failure of connectivity: every
    request gives the empty page or an error of another kind. *)
Definition api_sin_registros {Poligono} (env : Entorno Poligono) : Prop :=
  ∀ n inicio fin offset,
    client_get env n inicio fin offset = Lote []
    ∨ client_get env n inicio fin offset = ErrorOtro.

(** The world in which the download of an attempt starts: every attempt
    but the first comes after a pause of 10 seconds. *)
Definition tras_pausa (attempt : nat) (w : Mundo) : Mundo :=
  if decide (0 < attempt)%nat then
    {| llamadas := llamadas w; pausas := pausas w ++ [10]; reportes := reportes w;
       archivos := archivos w |}
  else w.

(** Downloads of one range made one after the other from the attempt
    [attempt] on: each is a run of [obtener_datos_lluvia_masivos] in the
    world the one before left, and gives its report; [w'] is the world
    after the last. *)
Fixpoint descargas_sucesivas {Poligono} (env : Entorno Poligono) (fuel : nat)
    (inicio fin : Z) (attempt : nat) (w : Mundo) (reps : list Reporte) (w' : Mundo)
  : Prop :=
  match reps with
  | [] => w' = w
  | rep :: reps' =>
      ∃ w1, obtener_datos_lluvia_masivos env fuel inicio fin (tras_pausa attempt w)
            = Some (Ok rep, w1)
        ∧ descargas_sucesivas env fuel inicio fin (S attempt) w1 reps' w'
  end.

(** The line of the log that reports a download. *)
Definition linea_reporte (rep : Reporte) : nat * Q :=
  (length (all_data (descarga rep)), success_percentage rep).

(** Scenario: station A has two rows on its last date, under two names of
    its municipality: 8 mm first in the frame, then 16 mm. *)
Definition df_dos_filas_ultima_fecha : list LluviaDiaria :=
  [ fila_loc "A" 0 (Some "Bello") (Some "Antioquia");
    {| codigoestacion := "A"; fecha := 1; municipio := Some "Bello";
       departamento := Some "Antioquia"; lluvia_diaria := 8 |};
    {| codigoestacion := "A"; fecha := 1; municipio := Some "BELLO";
       departamento := Some "Antioquia"; lluvia_diaria := 16 |} ].

(** U+00A0 (no-break space) in UTF-8. *)
Definition NBSP : string :=
  String (ascii_of_nat 194) (String (ascii_of_nat 160) EmptyString).
(** * Properties *)

(** ** Lists, sorting and counting *)

Lemma merge_sort_elem_of {A} (R : relation A) `{∀ x y, Decision (R x y)} (l : list A) x :
  x ∈ merge_sort R l ↔ x ∈ l.
Proof. by rewrite merge_sort_Permutation. Qed.

Lemma merge_sort_NoDup {A} (R : relation A) `{∀ x y, Decision (R x y)} (l : list A) :
  NoDup l → NoDup (merge_sort R l).
Proof. by rewrite merge_sort_Permutation. Qed.

Lemma insertar_desc_Permutation {A} (f : A → Z) r l : insertar_desc f r l ≡ₚ r :: l.
Proof.
  induction l as [|x l IH]; simpl; [done|]. case_decide; [done|].
  rewrite IH. apply Permutation_swap.
Qed.

Lemma ordenar_desc_Permutation {A} (f : A → Z) l : ordenar_desc f l ≡ₚ l.
Proof.
  induction l as [|x l IH]; simpl; [done|].
  rewrite insertar_desc_Permutation. by f_equiv.
Qed.

Lemma ordenar_desc_elem_of {A} (f : A → Z) l x : x ∈ ordenar_desc f l ↔ x ∈ l.
Proof. by rewrite ordenar_desc_Permutation. Qed.

Lemma insertar_desc_sorted {A} (f : A → Z) r l :
  StronglySorted (fecha_desc f) l → StronglySorted (fecha_desc f) (insertar_desc f r l).
Proof.
  induction 1 as [|x l Hs IH Hall]; simpl.
  - repeat constructor.
  - case_decide as Hle.
    + constructor; [by constructor|]. constructor; [done|].
      eapply Forall_impl; [exact Hall|]. unfold fecha_desc. intros y Hy. lia.
    + constructor; [done|]. rewrite insertar_desc_Permutation.
      constructor; [|done]. unfold fecha_desc. lia.
Qed.

Lemma ordenar_desc_sorted {A} (f : A → Z) l :
  StronglySorted (fecha_desc f) (ordenar_desc f l).
Proof.
  induction l as [|x l IH]; simpl; [constructor|]. by apply insertar_desc_sorted.
Qed.



Lemma estaciones_elem_of df e : e ∈ estaciones df ↔ e ∈ codigoestacion <$> df.
Proof. unfold estaciones. by rewrite merge_sort_elem_of, elem_of_remove_dups. Qed.

Lemma estaciones_NoDup df : NoDup (estaciones df).
Proof. apply merge_sort_NoDup, NoDup_remove_dups. Qed.

Lemma grupo_elem_of e df r : r ∈ grupo e df ↔ r ∈ df ∧ codigoestacion r = e.
Proof. unfold grupo. rewrite list_elem_of_filter. tauto. Qed.

Lemma conteo_dias_elem_of df e n :
  (e, n) ∈ conteo_dias df ↔ e ∈ codigoestacion <$> df ∧ n = nunique (fecha <$> grupo e df).
Proof.
  unfold conteo_dias. rewrite list_elem_of_fmap. split.
  - intros (e' & [= -> ->] & He). by rewrite <- estaciones_elem_of.
  - intros [He ->]. exists e. by rewrite estaciones_elem_of.
Qed.

(** A duplicate-free list drawn from four values and of length four or
    more holds each of the four. *)
Lemma nunique_cuatro (l u : list Z) x :
  l ⊆ u → length u = 4%nat → (4 ≤ nunique l)%nat → x ∈ u → x ∈ l.
Proof.
  intros Hsub Hu Hn Hx. unfold nunique in Hn.
  rewrite <- (elem_of_remove_dups l).
  apply list_elem_of_In.
  apply (NoDup_length_incl (l := remove_dups l) (l' := u)).
  - apply NoDup_ListNoDup, NoDup_remove_dups.
  - lia.
  - intros y Hy. apply list_elem_of_In in Hy. apply list_elem_of_In.
    apply Hsub. by apply elem_of_remove_dups.
  - by apply list_elem_of_In.
Qed.

(** ** Daily aggregation *)

Lemma clave_fila_diaria obs k :
  clave_fila (fila_diaria obs k) = (k.1.1.1, k.1.1.2, Some k.1.2, Some k.2).
Proof. by destruct k as [[[c f] m] d]. Qed.

Lemma agrupar_claves obs :
  clave_fila <$> agrupar_lluvia_diaria obs
  = (λ k : Clave, (k.1.1.1, k.1.1.2, Some k.1.2, Some k.2))
      <$> merge_sort clave_le (remove_dups (omap clave_de obs)).
Proof.
  unfold agrupar_lluvia_diaria. rewrite <- list_fmap_compose.
  apply list_fmap_ext. intros _ k _. apply clave_fila_diaria.
Qed.

(** ** Quality control *)

Lemma df_lluvia_completo_elem_of df r :
  r ∈ df_lluvia_completo df ↔
  r ∈ df ∧ (umbral_minimo_dias df ≤ nunique (fecha <$> grupo (codigoestacion r) df))%nat.
Proof.
  unfold df_lluvia_completo, estaciones_a_excluir.
  rewrite list_elem_of_filter, list_elem_of_fmap. split.
  - intros [Hno Hr]. split; [done|].
    destruct (decide (umbral_minimo_dias df
                      ≤ nunique (fecha <$> grupo (codigoestacion r) df))%nat) as [|Hlt];
      [done|].
    destruct Hno.
    exists (codigoestacion r, nunique (fecha <$> grupo (codigoestacion r) df)).
    split; [done|]. apply list_elem_of_filter. split; [simpl; lia|].
    apply conteo_dias_elem_of. split; [|done]. by apply list_elem_of_fmap_2.
  - intros [Hr Hle]. split; [|done].
    intros ([e n] & He & Hin). simpl in He. subst e.
    apply list_elem_of_filter in Hin as [Hlt Hin]. simpl in Hlt.
    apply conteo_dias_elem_of in Hin as [_ ->]. lia.
Qed.

Lemma df_lluvia_filtrado_elem_of ff completo r :
  r ∈ df_lluvia_filtrado ff completo ↔
  r ∈ completo ∧
  (codigoestacion r ∈ codigoestacion <$> df_ultimos4 ff completo →
   4 ≤ nunique (fecha <$> grupo (codigoestacion r) (df_ultimos4 ff completo)))%nat.
Proof.
  unfold df_lluvia_filtrado, estaciones_incompletas, conteo_por_estacion.
  rewrite list_elem_of_filter, list_elem_of_fmap. split.
  - intros [Hno Hr]. split; [done|]. intros Hin.
    destruct (decide (4 ≤ nunique (fecha <$> grupo (codigoestacion r)
                                     (df_ultimos4 ff completo)))%nat) as [|Hlt];
      [done|].
    destruct Hno.
    exists (codigoestacion r,
            nunique (fecha <$> grupo (codigoestacion r) (df_ultimos4 ff completo))).
    split; [done|]. apply list_elem_of_filter. split; [simpl; lia|].
    by apply conteo_dias_elem_of.
  - intros [Hr Hle]. split; [|done].
    intros ([e n] & He & Hin). simpl in He. subst e.
    apply list_elem_of_filter in Hin as [Hlt Hin]. simpl in Hlt.
    apply conteo_dias_elem_of in Hin as [Hin ->]. specialize (Hle Hin). lia.
Qed.

Lemma corregir_datos_fila existe shape df codigos :
  datos_fila <$> corregir_inconsistencias_localidades existe shape df codigos
  = datos_fila <$> df.
Proof.
  unfold corregir_inconsistencias_localidades.
  destruct existe; [|done]. destruct shape as [shp|]; [|done].
  rewrite <- list_fmap_compose. apply list_fmap_ext.
  intros _ r _. simpl. by case_decide.
Qed.

Lemma corregir_nil existe shape df :
  corregir_inconsistencias_localidades existe shape df [] = df.
Proof.
  unfold corregir_inconsistencias_localidades.
  destruct existe; [|done]. destruct shape as [shp|]; [|done].
  rewrite <- (list_fmap_id df) at 2. apply list_fmap_ext.
  intros _ r _. case_decide as Hin; [|done]. by apply elem_of_nil in Hin.
Qed.

Lemma dict_def_ausente col shape (d : gmap string (option string)) e :
  e ∉ (λ x, strip (codigo x)) <$> shape →
  foldl (λ d x, <[strip (codigo x) := col x]> d) d shape !! e = d !! e.
Proof.
  revert d. induction shape as [|x shape IH]; intros d Hno; [done|].
  simpl. rewrite IH.
  - apply lookup_insert_ne. intros Heq. apply Hno. simpl. rewrite Heq. left.
  - intros Hin. apply Hno. simpl. by right.
Qed.

Lemma map_dict_ausente col shape e :
  e ∉ (λ x, strip (codigo x)) <$> shape → map_dict (dict_def col shape) e = None.
Proof.
  intros Hno. unfold map_dict, dict_def. by rewrite dict_def_ausente.
Qed.

(** The result of the quality control in terms of its three steps. *)
Lemma control_calidad_datos_Ok existe shape df out :
  control_calidad_datos existe shape df = Ok out →
  ∃ ff, max_fecha (fecha <$> df_lluvia_completo df) = Some ff ∧
    let filtrado := df_lluvia_filtrado ff (df_lluvia_completo df) in
    out = corregir_inconsistencias_localidades existe shape filtrado
            (codigos_inconsistentes filtrado).
Proof.
  unfold control_calidad_datos. case_decide; [done|].
  destruct (max_fecha _) as [ff|]; [|done].
  intros Hout. exists ff. split; [done|]. simpl.
  case_decide as Hnil; injection Hout as <-; [|done].
  by rewrite Hnil, corregir_nil.
Qed.

Lemma max_fecha_Some l m :
  max_fecha l = Some m → m ∈ l ∧ ∀ x, x ∈ l → x ≤ m.
Proof.
  destruct l as [|x l]; [done|]. simpl. intros [= <-].
  revert x. induction l as [|y l IH]; intros x; simpl.
  - split; [left|]. intros z ->%list_elem_of_singleton. lia.
  - destruct (IH (x `max` y)) as [Hin Hle]. split.
    + apply elem_of_cons in Hin as [Heq|Hin]; [|by right; right].
      rewrite Heq. destruct (Z.max_spec x y) as [[_ ->]|[_ ->]]; [right; left|left].
    + intros z Hz. assert (x ≤ foldl Z.max (x `max` y) l ∧ y ≤ foldl Z.max (x `max` y) l).
      { specialize (Hle (x `max` y) ltac:(left)). lia. }
      apply elem_of_cons in Hz as [->|Hz]; [lia|].
      apply elem_of_cons in Hz as [->|Hz]; [lia|].
      apply Hle. by right.
Qed.

Lemma max_fecha_is_Some l : l ≠ [] → is_Some (max_fecha l).
Proof. destruct l; [done|]. by eexists. Qed.

(** A filter on the station code keeps or drops whole groups. *)
Lemma grupo_filter_codigo (P : string → Prop) `{∀ c, Decision (P c)} e df :
  grupo e (filter (λ r, P (codigoestacion r)) df)
  = if decide (P e) then grupo e df else [].
Proof.
  unfold grupo. induction df as [|r df IH]; [by case_decide|].
  rewrite !filter_cons.
  destruct (decide (P (codigoestacion r))) as [HP|HP]; rewrite ?filter_cons;
    destruct (decide (codigoestacion r = e)) as [<-|Hne]; rewrite IH;
    repeat case_decide; done.
Qed.

Lemma grupo_filter_notin (L : list string) e df :
  grupo e (filter (λ r, codigoestacion r ∉ L) df)
  = if decide (e ∉ L) then grupo e df else [].
Proof. exact (@grupo_filter_codigo (λ c, c ∉ L) _ e df). Qed.

Lemma corregir_elem_of_1 existe shape df codigos r :
  r ∈ corregir_inconsistencias_localidades existe shape df codigos →
  ∃ r', r' ∈ df ∧ datos_fila r' = datos_fila r.
Proof.
  intros Hr. apply (list_elem_of_fmap_2 datos_fila) in Hr.
  rewrite corregir_datos_fila in Hr.
  apply list_elem_of_fmap in Hr as (r' & Heq & Hr'). by exists r'.
Qed.

Lemma corregir_elem_of_2 existe shape df codigos r' :
  r' ∈ df →
  ∃ r, r ∈ corregir_inconsistencias_localidades existe shape df codigos
       ∧ datos_fila r = datos_fila r'.
Proof.
  intros Hr. apply (list_elem_of_fmap_2 datos_fila) in Hr.
  rewrite <- (corregir_datos_fila existe shape df codigos) in Hr.
  apply list_elem_of_fmap in Hr as (r & Heq & Hr). by exists r.
Qed.

Lemma grupo_fechas_datos_fila e df1 df2 :
  datos_fila <$> df1 = datos_fila <$> df2 →
  fecha <$> grupo e df1 = fecha <$> grupo e df2.
Proof.
  revert df2. induction df1 as [|r1 df1 IH]; intros [|r2 df2]; try done.
  rewrite !fmap_cons. intros [= Hc Hf Hl Hrest]. unfold grupo in *.
  rewrite !filter_cons, <- Hc.
  case_decide; rewrite ?fmap_cons, ?Hf; [f_equal|]; by apply IH.
Qed.

(** ** Daily aggregation: one row per group *)

(** C7, as amended: the daily aggregation gives one row per distinct
    (station, date, municipality, department): no two rows share the four
    keys; every record that has a date, a municipality and a department
    has the row of its keys, the station being its stripped code and the
    date the calendar date of the observation; every row stands for such a
    record, and its value is the sum of the readings of its group. A station
    whose records of one date carry two names has one row per name. *)
Theorem agrupar_una_fila_por_clave (obs : list Observacion) :
  NoDup (clave_fila <$> agrupar_lluvia_diaria obs)
  ∧ (∀ o t m d,
       o ∈ obs → obs_fechaobservacion o = Some t →
       obs_municipio o = Some m → obs_departamento o = Some d →
       ∃ r, r ∈ agrupar_lluvia_diaria obs
         ∧ clave_fila r = (strip (obs_codigoestacion o), fecha_de t, Some m, Some d))
  ∧ ∀ r, r ∈ agrupar_lluvia_diaria obs →
      ∃ m d, municipio r = Some m ∧ departamento r = Some d
        ∧ (∃ o t, o ∈ obs ∧ obs_fechaobservacion o = Some t
             ∧ obs_municipio o = Some m ∧ obs_departamento o = Some d
             ∧ codigoestacion r = strip (obs_codigoestacion o)
             ∧ fecha r = fecha_de t)
        ∧ lluvia_diaria r = suma (valores_de (codigoestacion r, fecha r, m, d) obs).
Proof.
  split; [|split].
  - rewrite agrupar_claves. apply NoDup_fmap_2.
    + intros [[[c1 f1] m1] d1] [[[c2 f2] m2] d2]; simpl. by intros [= -> -> -> ->].
    + apply merge_sort_NoDup, NoDup_remove_dups.
  - intros o t m d Ho Ht Hm Hd.
    set (k := (strip (obs_codigoestacion o), fecha_de t, m, d) : Clave).
    assert (Hk : clave_de o = Some k) by (unfold clave_de; by rewrite Ht, Hm, Hd).
    exists (fila_diaria obs k). split; [|by rewrite clave_fila_diaria].
    unfold agrupar_lluvia_diaria. apply list_elem_of_fmap_2.
    apply merge_sort_elem_of, elem_of_remove_dups, list_elem_of_omap. by exists o.
  - intros r Hr. unfold agrupar_lluvia_diaria in Hr.
    apply list_elem_of_fmap in Hr as ([[[c f] m] d] & -> & Hk).
    apply merge_sort_elem_of, elem_of_remove_dups, list_elem_of_omap in Hk
      as (o & Ho & Hk).
    exists m, d. simpl. split; [done|]. split; [done|]. split; [|done].
    unfold clave_de in Hk.
    destruct (obs_fechaobservacion o) as [t|] eqn:Ht; [|done].
    destruct (obs_municipio o) as [m'|] eqn:Hm; [|done].
    destruct (obs_departamento o) as [d'|] eqn:Hd; [|done].
    simpl in Hk. injection Hk as <- <- <- <-. by exists o, t.
Qed.

(** The station code is stripped of Unicode white space too: a code that
    starts with a no-break space falls in the group of the bare code. *)
Lemma agrupar_codigo_con_espacio_unicode :
  agrupar_lluvia_diaria [lectura (NBSP +:+ "A1") 0 1 "M"; lectura "A1 " 60 2 "M"]
  = [ {| codigoestacion := "A1"; fecha := 0; municipio := Some "M";
         departamento := Some "D"; lluvia_diaria := 3 |} ].
Proof. vm_compute. reflexivity. Qed.

(** C7 as stated fails: two readings of one station on one date with two
    spellings of the municipality give two rows for that (station, date). *)
Lemma agrupar_dos_filas_mismo_dia :
  ¬ NoDup ((λ r, (codigoestacion r, fecha r)) <$> agrupar_lluvia_diaria obs_dos_municipios).
Proof.
  assert (agrupar_lluvia_diaria obs_dos_municipios
          = [ {| codigoestacion := "A001"; fecha := 0; municipio := Some "Medellin";
                 departamento := Some "D"; lluvia_diaria := 2 |};
              {| codigoestacion := "A001"; fecha := 0; municipio := Some "Medellín";
                 departamento := Some "D"; lluvia_diaria := 3 |} ]) as ->
    by (vm_compute; reflexivity).
  simpl. intros Hnd. apply NoDup_cons in Hnd as [Hno _]. apply Hno. left.
Qed.

(** ** Quality control: coverage and recency *)

(** C2, as amended: a station in the output of the quality control has
    rows on at least floor(0.8 * T') distinct dates, T' being the number of
    distinct dates present in the daily frame given to it; and if it has a
    row on one of the four dates ending at the most recent date of the data
    that passed the coverage rule, it has rows on all four. *)
Theorem control_calidad_cobertura_y_recencia
    (existe : bool) (shape : option (list Estacion))
    (df out : list LluviaDiaria) (ff : Z) (e : string) :
  control_calidad_datos existe shape df = Ok out →
  max_fecha (fecha <$> df_lluvia_completo df) = Some ff →
  e ∈ codigoestacion <$> out →
  (total_dias_disponibles df * 4 / 5 ≤ nunique (fecha <$> grupo e out))%nat
  ∧ (∀ r, r ∈ df_lluvia_completo df → fecha r ≤ ff)
  ∧ ((∃ r, r ∈ out ∧ codigoestacion r = e ∧ fecha r ∈ ultimos_dias ff) →
     ∀ d, d ∈ ultimos_dias ff → ∃ r, r ∈ out ∧ codigoestacion r = e ∧ fecha r = d).
Proof.
  intros Hout Hff He.
  apply control_calidad_datos_Ok in Hout as (ff' & Hff' & Hout).
  rewrite Hff in Hff'. injection Hff' as <-. simpl in Hout.
  set (completo := df_lluvia_completo df) in *.
  set (filtrado := df_lluvia_filtrado ff completo) in *.
  assert (Hdatos : datos_fila <$> out = datos_fila <$> filtrado)
    by (rewrite Hout; apply corregir_datos_fila).
  apply list_elem_of_fmap in He as (r0 & -> & Hr0).
  assert (∃ r1, r1 ∈ filtrado ∧ datos_fila r1 = datos_fila r0) as (r1 & Hr1 & Heq1)
    by (rewrite Hout in Hr0; by apply corregir_elem_of_1 in Hr0).
  injection Heq1 as Hc1 Hf1 _.
  pose proof Hr1 as Hr1'. apply df_lluvia_filtrado_elem_of in Hr1' as [Hr1c Hrec].
  pose proof Hr1c as Hr1c'. apply df_lluvia_completo_elem_of in Hr1c' as [Hr1d Hcob].
  rewrite Hc1 in Hrec, Hcob.
  assert (Hgf : grupo (codigoestacion r0) filtrado = grupo (codigoestacion r0) completo).
  { unfold filtrado, df_lluvia_filtrado.
    rewrite grupo_filter_notin.
    rewrite decide_True; [done|]. rewrite <- Hc1.
    unfold filtrado, df_lluvia_filtrado in Hr1.
    by apply list_elem_of_filter in Hr1 as [? _]. }
  assert (Hgc : grupo (codigoestacion r0) completo = grupo (codigoestacion r0) df).
  { unfold completo, df_lluvia_completo.
    rewrite grupo_filter_notin.
    rewrite decide_True; [done|]. rewrite <- Hc1.
    unfold completo, df_lluvia_completo in Hr1c.
    by apply list_elem_of_filter in Hr1c as [? _]. }
  split; [|split].
  - rewrite (grupo_fechas_datos_fila _ out filtrado Hdatos), Hgf, Hgc. apply Hcob.
  - intros r Hr. apply (max_fecha_Some _ _ Hff). by apply list_elem_of_fmap_2.
  - intros (r & Hr & Hrc & Hrf) d Hd.
    assert (∃ r2, r2 ∈ filtrado ∧ datos_fila r2 = datos_fila r) as (r2 & Hr2 & Heq2)
      by (rewrite Hout in Hr; by apply corregir_elem_of_1 in Hr).
    injection Heq2 as Hc2 Hf2 _.
    assert (Hr2c : r2 ∈ completo)
      by (by apply df_lluvia_filtrado_elem_of in Hr2 as [? _]).
    assert (Hu4 : r2 ∈ df_ultimos4 ff completo).
    { unfold df_ultimos4. apply list_elem_of_filter. by rewrite Hf2. }
    assert (H4 : (4 ≤ nunique (fecha <$> grupo (codigoestacion r0)
                                 (df_ultimos4 ff completo)))%nat).
    { apply Hrec. apply list_elem_of_fmap. exists r2. split; [congruence|done]. }
    assert (Hd' : d ∈ fecha <$> grupo (codigoestacion r0) (df_ultimos4 ff completo)).
    { apply (nunique_cuatro _ (ultimos_dias ff)); try done.
      intros x (r3 & -> & Hr3)%list_elem_of_fmap.
      apply grupo_elem_of in Hr3 as [Hr3 _]. unfold df_ultimos4 in Hr3.
      by apply list_elem_of_filter in Hr3 as [? _]. }
    apply list_elem_of_fmap in Hd' as (r3 & -> & Hr3).
    apply grupo_elem_of in Hr3 as [Hr3 Hc3]. unfold df_ultimos4 in Hr3.
    apply list_elem_of_filter in Hr3 as [_ Hr3].
    assert (Hr3f : r3 ∈ filtrado).
    { assert (Hg : r3 ∈ grupo (codigoestacion r0) filtrado)
        by (rewrite Hgf; by apply grupo_elem_of).
      by apply grupo_elem_of in Hg as [? _]. }
    destruct (corregir_elem_of_2 existe shape filtrado
                (codigos_inconsistentes filtrado) r3 Hr3f) as (r4 & Hr4 & Heq4).
    injection Heq4 as Hc4 Hf4 _. exists r4. rewrite Hout. repeat split; congruence.
Qed.

(** The theorem at the frame of station A with its 21 dates. *)
Lemma control_calidad_cobertura_y_recencia_testigo :
  control_calidad_datos true None df_21_de_31 = Ok df_21_de_31
  ∧ max_fecha (fecha <$> df_lluvia_completo df_21_de_31) = Some 30
  ∧ "A" ∈ codigoestacion <$> df_21_de_31
  ∧ (total_dias_disponibles df_21_de_31 * 4 / 5
     ≤ nunique (fecha <$> grupo "A" df_21_de_31))%nat
  ∧ (∀ r, r ∈ df_lluvia_completo df_21_de_31 → fecha r ≤ 30)
  ∧ ((∃ r, r ∈ df_21_de_31 ∧ codigoestacion r = "A" ∧ fecha r ∈ ultimos_dias 30) →
     ∀ d, d ∈ ultimos_dias 30 →
       ∃ r, r ∈ df_21_de_31 ∧ codigoestacion r = "A" ∧ fecha r = d).
Proof.
  assert (H1 : control_calidad_datos true None df_21_de_31 = Ok df_21_de_31)
    by (vm_compute; reflexivity).
  assert (H2 : max_fecha (fecha <$> df_lluvia_completo df_21_de_31) = Some 30)
    by (vm_compute; reflexivity).
  assert (H3 : "A" ∈ codigoestacion <$> df_21_de_31)
    by (apply (bool_decide_unpack _); vm_compute; exact I).
  split; [exact H1|]. split; [exact H2|]. split; [exact H3|].
  exact (control_calidad_cobertura_y_recencia true None df_21_de_31 df_21_de_31
           30 "A" H1 H2 H3).
Defined.

(** C2 as stated fails: the threshold follows the dates present in the
    data, not the length of the query. In a 31-day query whose data start
    on date 10, a station with 21 dates passes (21 >= floor(0.8 * 21) = 16)
    with fewer than floor(0.8 * 31) = 24 dates. *)
Lemma control_calidad_umbral_no_es_del_periodo :
  dias_solicitados (periodo (30 * 86400 + 43200)).1 (periodo (30 * 86400 + 43200)).2 = 31
  ∧ Forall (λ r, fecha_de (periodo (30 * 86400 + 43200)).1 ≤ fecha r
                 ≤ fecha_de (periodo (30 * 86400 + 43200)).2) df_21_de_31
  ∧ control_calidad_datos true None df_21_de_31 = Ok df_21_de_31
  ∧ "A" ∈ codigoestacion <$> df_21_de_31
  ∧ nunique (fecha <$> grupo "A" df_21_de_31) = 21%nat
  ∧ ¬ (31 * 4 / 5 ≤ nunique (fecha <$> grupo "A" df_21_de_31))%nat.
Proof.
  split; [by vm_compute|].
  split; [apply (bool_decide_unpack _); vm_compute; exact I|].
  split; [vm_compute; reflexivity|].
  split; [apply (bool_decide_unpack _); vm_compute; exact I|].
  assert (H : nunique (fecha <$> grupo "A" df_21_de_31) = 21%nat)
    by (vm_compute; reflexivity).
  split; [exact H|]. rewrite H. vm_compute. lia.
Qed.

(** ** Quality control: reconciliation of the locality names *)

(** C10: the reconciliation neither adds nor removes rows and keeps
    station, date and value of each, whatever the state of the shapefile;
    when the shapefile is read and a station flagged as inconsistent is not
    among its (stripped) codes, every row of that station gets NaN in both
    municipality and department. *)
Theorem reconciliacion_codigo_ausente
    (existe : bool) (shape : option (list Estacion))
    (df out : list LluviaDiaria) (ff : Z) :
  control_calidad_datos existe shape df = Ok out →
  max_fecha (fecha <$> df_lluvia_completo df) = Some ff →
  datos_fila <$> out = datos_fila <$> df_lluvia_filtrado ff (df_lluvia_completo df)
  ∧ ∀ shp e, existe = true → shape = Some shp →
      e ∈ codigos_inconsistentes (df_lluvia_filtrado ff (df_lluvia_completo df)) →
      e ∉ (λ x, strip (codigo x)) <$> shp →
      ∀ r, r ∈ out → codigoestacion r = e →
        municipio r = None ∧ departamento r = None.
Proof.
  intros Hout Hff.
  apply control_calidad_datos_Ok in Hout as (ff' & Hff' & Hout).
  rewrite Hff in Hff'. injection Hff' as <-. simpl in Hout.
  split; [rewrite Hout; apply corregir_datos_fila|].
  intros shp e -> -> He Hno r Hr Hc. rewrite Hout in Hr.
  unfold corregir_inconsistencias_localidades in Hr.
  apply list_elem_of_fmap in Hr as (r' & -> & Hr').
  destruct (decide (codigoestacion r' ∈ _)) as [Hin|Hnin]; simpl in *.
  - subst e. by rewrite !map_dict_ausente.
  - by subst e.
Qed.

(** The theorem at the frame with the two spellings, station A missing from
    the shapefile. *)
Lemma reconciliacion_codigo_ausente_testigo :
  control_calidad_datos true (Some shape_solo_B) df_inconsistente = Ok df_reconciliado
  ∧ max_fecha (fecha <$> df_lluvia_completo df_inconsistente) = Some 3
  ∧ "A" ∈ codigos_inconsistentes (df_lluvia_filtrado 3 (df_lluvia_completo df_inconsistente))
  ∧ ("A" ∉ (λ x, strip (codigo x)) <$> shape_solo_B)
  ∧ (datos_fila <$> df_reconciliado
     = datos_fila <$> df_lluvia_filtrado 3 (df_lluvia_completo df_inconsistente))
  ∧ ∀ r, r ∈ df_reconciliado → codigoestacion r = "A" →
      municipio r = None ∧ departamento r = None.
Proof.
  assert (H1 : control_calidad_datos true (Some shape_solo_B) df_inconsistente
               = Ok df_reconciliado) by (vm_compute; reflexivity).
  assert (H2 : max_fecha (fecha <$> df_lluvia_completo df_inconsistente) = Some 3)
    by (vm_compute; reflexivity).
  assert (H3 : "A" ∈ codigos_inconsistentes
                       (df_lluvia_filtrado 3 (df_lluvia_completo df_inconsistente)))
    by (apply (bool_decide_unpack _); vm_compute; exact I).
  assert (H4 : "A" ∉ (λ x, strip (codigo x)) <$> shape_solo_B)
    by (apply (bool_decide_unpack _); vm_compute; exact I).
  split; [exact H1|]. split; [exact H2|]. split; [exact H3|]. split; [exact H4|].
  pose proof (reconciliacion_codigo_ausente true (Some shape_solo_B) df_inconsistente
                df_reconciliado 3 H1 H2) as [Ha Hb].
  split; [exact Ha|].
  exact (Hb shape_solo_B "A" eq_refl eq_refl H3 H4).
Defined.

(** ** Feature construction: from the long list to the model table *)

Lemma filter_nil_Forall {A} (P : A → Prop) `{∀ x, Decision (P x)} (l : list A) :
  Forall (λ x, ¬ P x) l → filter P l = [].
Proof. induction 1 as [|x l Hx _ IH]; [done|]. by rewrite filter_cons, decide_False. Qed.

Lemma filter_fmap {A B} (P : B → Prop) `{∀ x, Decision (P x)} (f : A → B) (l : list A) :
  filter P (f <$> l) = f <$> filter (λ x, P (f x)) l.
Proof.
  induction l as [|x l IH]; [done|].
  rewrite fmap_cons, !filter_cons. case_decide; by rewrite ?fmap_cons, IH.
Qed.

Lemma fmap_bind_list {A B C} (f : B → C) (g : A → list B) (l : list A) :
  f <$> (l ≫= g) = l ≫= (λ x, f <$> g x).
Proof. induction l as [|x l IH]; [done|]. by rewrite !bind_cons, fmap_app, IH. Qed.

(** In a list built station by station, a filter that fixes the station
    only sees the entries of that station. *)
Lemma filter_bind_uno {B} (key : B → string) (f : string → list B)
    (P : B → Prop) `{∀ b, Decision (P b)} (e : string) (l : list string) :
  (∀ x b, b ∈ f x → key b = x) → (∀ b, P b → key b = e) → NoDup l →
  filter P (l ≫= f) = if decide (e ∈ l) then filter P (f e) else [].
Proof.
  intros Hkey HP. induction l as [|x l IH]; intros Hnd; [done|].
  apply NoDup_cons in Hnd as [Hx Hnd]. rewrite bind_cons, filter_app, (IH Hnd).
  destruct (decide (x = e)) as [->|Hne].
  - rewrite (decide_False (P := e ∈ l)) by done.
    rewrite decide_True by left. apply app_nil_r.
  - rewrite (filter_nil_Forall P (f x)).
    + simpl. destruct (decide (e ∈ l)) as [Hin|Hnin].
      * rewrite decide_True; [done|by right].
      * rewrite decide_False; [done|]. intros [->|?]%elem_of_cons; done.
    + apply Forall_forall. intros b Hb HPb. apply Hne.
      by rewrite <- (Hkey x b Hb), (HP b HPb).
Qed.

Lemma resultados_estacion_codigo ff e g a :
  a ∈ resultados_estacion ff e g → ac_codigoestacion a = e.
Proof.
  unfold resultados_estacion. destruct (datos_est ff g) as [|dia0 resto].
  - by intros ?%elem_of_nil.
  - intros [->|Ha]%elem_of_cons; [done|].
    by apply list_elem_of_fmap in Ha as (n & -> & _).
Qed.

Lemma resultados_estacion_nil ff e g :
  resultados_estacion ff e g = [] ↔ datos_est ff g = [].
Proof. unfold resultados_estacion. by destruct (datos_est ff g). Qed.

Lemma resultados_estacion_pares ff e g dia0 resto :
  datos_est ff g = dia0 :: resto →
  par_pivot <$> resultados_estacion ff e g
  = (λ c, (e, c)) <$> ["daily rain"; "1-rain ant.rain"; "2-rain ant.rain";
                       "3-rain ant.rain"; "15-rain ant.rain"; "30-rain ant.rain"].
Proof. intros E. unfold resultados_estacion. rewrite E. reflexivity. Qed.

Ltac decide_par :=
  repeat first
    [ rewrite decide_True by reflexivity
    | rewrite decide_False by (let H := fresh in
                               intros H; apply (f_equal snd) in H;
                               vm_compute in H; discriminate) ].

(** The cells of the pivot for a station with rows in the window. *)
Lemma celda_estacion ff df e dia0 resto :
  e ∈ estaciones df →
  datos_est ff (grupo e df) = dia0 :: resto →
  let ac := resultados ff df in
  celda e "daily rain" ac = Some (lluvia_diaria dia0)
  ∧ celda e "1-rain ant.rain" ac = Some (suma (lluvia_diaria <$> take 1 resto))
  ∧ celda e "2-rain ant.rain" ac = Some (suma (lluvia_diaria <$> take 2 resto))
  ∧ celda e "3-rain ant.rain" ac = Some (suma (lluvia_diaria <$> take 3 resto))
  ∧ celda e "15-rain ant.rain" ac = Some (suma (lluvia_diaria <$> take 15 resto))
  ∧ celda e "30-rain ant.rain" ac = Some (suma (lluvia_diaria <$> take 30 resto)).
Proof.
  intros He E ac.
  assert (Hf : ∀ c, filter (λ a, par_pivot a = (e, c)) ac
                    = filter (λ a, par_pivot a = (e, c))
                        (resultados_estacion ff e (grupo e df))).
  { intros c. unfold ac, resultados.
    rewrite (filter_bind_uno ac_codigoestacion
               (λ e, resultados_estacion ff e (grupo e df)) _ e).
    - by rewrite decide_True.
    - intros x b. apply resultados_estacion_codigo.
    - by intros b [= ? _].
    - apply estaciones_NoDup. }
  unfold celda. rewrite !Hf. unfold resultados_estacion. rewrite E.
  unfold ventanas, par_pivot. rewrite !fmap_cons, fmap_nil.
  repeat split; rewrite !filter_cons; simpl ac_codigoestacion; simpl dias_acumulados;
    decide_par; reflexivity.
Qed.


Lemma datos_est_elem_of ff g r :
  r ∈ datos_est ff g ↔ r ∈ g ∧ ff - 29 ≤ fecha r.
Proof. unfold datos_est. rewrite ordenar_desc_elem_of, list_elem_of_filter. tauto. Qed.

Lemma fecha_daily_estacion ff df e dia0 resto :
  e ∈ estaciones df →
  datos_est ff (grupo e df) = dia0 :: resto →
  filter (λ p : string * Z, p.1 = e) (fecha_daily (resultados ff df)) = [(e, fecha dia0)].
Proof.
  intros He E. unfold fecha_daily. rewrite filter_fmap, list_filter_filter.
  unfold resultados.
  rewrite (filter_bind_uno ac_codigoestacion
             (λ e, resultados_estacion ff e (grupo e df)) _ e).
  - rewrite decide_True by done. unfold resultados_estacion. rewrite E.
    unfold ventanas. rewrite !fmap_cons, fmap_nil, !filter_cons.
    simpl ac_codigoestacion; simpl dias_acumulados; simpl fst.
    repeat first [ rewrite decide_True by (split; reflexivity)
                 | rewrite decide_False by (intros [_ ?]; discriminate) ].
    reflexivity.
  - intros x b. apply resultados_estacion_codigo.
  - by intros b [? _].
  - apply estaciones_NoDup.
Qed.

Lemma resultados_pares_NoDup ff df : NoDup (par_pivot <$> resultados ff df).
Proof.
  unfold resultados. rewrite fmap_bind_list. apply NoDup_bind.
  - intros x1 x2 y _ _ H1 H2.
    apply list_elem_of_fmap in H1 as (a1 & -> & H1).
    apply list_elem_of_fmap in H2 as (a2 & Heq & H2).
    apply resultados_estacion_codigo in H1, H2.
    unfold par_pivot in Heq. injection Heq as Heq _. congruence.
  - intros x _. destruct (datos_est ff (grupo x df)) as [|dia0 resto] eqn:E.
    + apply (resultados_estacion_nil ff x) in E. rewrite E. constructor.
    + rewrite (resultados_estacion_pares _ _ _ _ _ E). apply NoDup_fmap_2.
      * by intros c1 c2 [=].
      * apply (bool_decide_unpack _). vm_compute. exact I.
  - apply estaciones_NoDup.
Qed.

Lemma resultados_elem_of ff df a :
  a ∈ resultados ff df ↔
  ∃ e, e ∈ estaciones df ∧ a ∈ resultados_estacion ff e (grupo e df).
Proof.
  unfold resultados. rewrite list_elem_of_bind. split; intros (e & ? & ?); by exists e.
Qed.

Lemma resultados_pares_elem_of ff df e dia0 resto c :
  e ∈ estaciones df →
  datos_est ff (grupo e df) = dia0 :: resto →
  c ∈ ["daily rain"; "1-rain ant.rain"; "2-rain ant.rain";
       "3-rain ant.rain"; "15-rain ant.rain"; "30-rain ant.rain"] →
  (e, c) ∈ par_pivot <$> resultados ff df.
Proof.
  intros He E Hc. unfold resultados. rewrite fmap_bind_list.
  apply list_elem_of_bind. exists e. split; [|done].
  rewrite (resultados_estacion_pares _ _ _ _ _ E).
  by apply (list_elem_of_fmap_2 (λ c, (e, c))).
Qed.

Lemma indice_elem_of ff df e :
  e ∈ indice ff df ↔ e ∈ estaciones df ∧ datos_est ff (grupo e df) ≠ [].
Proof.
  unfold indice. rewrite merge_sort_elem_of, elem_of_remove_dups. split.
  - intros ([e' c] & -> & Hp)%list_elem_of_fmap.
    apply list_elem_of_fmap in Hp as (a & Heq & Ha).
    apply resultados_elem_of in Ha as (x & Hx & Ha).
    pose proof (resultados_estacion_codigo _ _ _ _ Ha) as Hc.
    unfold par_pivot in Heq. injection Heq as -> _. simpl. rewrite Hc.
    split; [done|]. intros E. apply (resultados_estacion_nil ff x) in E.
    rewrite E in Ha. by apply elem_of_nil in Ha.
  - intros [He Hne].
    destruct (datos_est ff (grupo e df)) as [|dia0 resto] eqn:E; [done|].
    apply list_elem_of_fmap. exists (e, "daily rain"). split; [done|].
    apply (resultados_pares_elem_of _ _ _ _ _ _ He E). left.
Qed.

Lemma indice_NoDup ff df : NoDup (indice ff df).
Proof. apply merge_sort_NoDup, NoDup_remove_dups. Qed.

Lemma columnas_elem_of ff df c :
  resultados ff df ≠ [] →
  c ∈ ["daily rain"; "1-rain ant.rain"; "2-rain ant.rain";
       "3-rain ant.rain"; "15-rain ant.rain"; "30-rain ant.rain"] →
  c ∈ merge_sort str_le (remove_dups (par_pivot <$> resultados ff df).*2).
Proof.
  intros Hne Hc. rewrite merge_sort_elem_of, elem_of_remove_dups.
  destruct (resultados ff df) as [|a ac] eqn:Eac; [done|].
  assert (Ha : a ∈ resultados ff df) by (rewrite Eac; left).
  apply resultados_elem_of in Ha as (x & Hx & Ha).
  destruct (datos_est ff (grupo x df)) as [|dia0 resto] eqn:E.
  { apply (resultados_estacion_nil ff x) in E. rewrite E in Ha.
    by apply elem_of_nil in Ha. }
  rewrite <- Eac. apply list_elem_of_fmap. exists (x, c). split; [done|].
  by apply (resultados_pares_elem_of _ _ _ dia0 resto).
Qed.

Lemma list_to_map_fmap_lookup {V} (g : string → V) (l : list string) (c : string) :
  c ∈ l → (list_to_map ((λ c, (c, g c)) <$> l) : gmap string V) !! c = Some (g c).
Proof.
  induction l as [|x l IH]; intros Hin; [by apply elem_of_nil in Hin|].
  rewrite fmap_cons, list_to_map_cons. destruct (decide (x = c)) as [->|Hne].
  - apply lookup_insert_eq.
  - rewrite lookup_insert_ne by done. apply IH.
    by apply elem_of_cons in Hin as [->|?].
Qed.

Lemma ordenar_columnas_estacion ff df e dia0 resto :
  e ∈ estaciones df →
  datos_est ff (grupo e df) = dia0 :: resto →
  let ac := resultados ff df in
  let columnas := merge_sort str_le (remove_dups (par_pivot <$> ac).*2) in
  ordenar_columnas
    (e, list_to_map ((λ c, (c, celda e c ac)) <$> columnas), Some (fecha dia0))
  = Ok (fila_modelo_de e dia0 resto).
Proof.
  intros He E ac columnas.
  assert (Hac : ac ≠ []).
  { intros Hnil.
    assert (Hin : (e, "daily rain") ∈ par_pivot <$> ac)
      by (apply (resultados_pares_elem_of _ _ _ _ _ _ He E); left).
    rewrite Hnil in Hin. by apply elem_of_nil in Hin. }
  destruct (celda_estacion ff df e dia0 resto He E) as (H0 & H1 & H2 & H3 & H15 & H30).
  fold ac in H0, H1, H2, H3, H15, H30.
  unfold ordenar_columnas, columna.
  rewrite !(list_to_map_fmap_lookup (λ c, celda e c ac))
    by (apply columnas_elem_of; [done|]; apply (bool_decide_unpack _); vm_compute; exact I).
  rewrite H0, H1, H2, H3, H15, H30. reflexivity.
Qed.

Lemma merge_left_cons e fila pv fd :
  merge_left ((e, fila) :: pv) fd
  = match filter (λ p : string * Z, p.1 = e) fd with
    | [] => [(e, fila, None)]
    | coinciden => (λ p : string * Z, (e, fila, Some p.2)) <$> coinciden
    end ++ merge_left pv fd.
Proof. reflexivity. Qed.

Lemma cada_fila_cons {A B} (f : A → resultado B) x l :
  cada_fila f (x :: l) = (y ← f x; ys ← cada_fila f l; Ok (y :: ys)).
Proof. reflexivity. Qed.

Lemma cada_fila_merge ff df (l : list string) :
  (∀ e, e ∈ l → e ∈ estaciones df ∧ datos_est ff (grupo e df) ≠ []) →
  let ac := resultados ff df in
  let columnas := merge_sort str_le (remove_dups (par_pivot <$> ac).*2) in
  cada_fila ordenar_columnas
    (merge_left ((λ e, (e, list_to_map ((λ c, (c, celda e c ac)) <$> columnas))) <$> l)
       (fecha_daily ac))
  = Ok (omap (fila_esperada ff df) l).
Proof.
  intros Hl ac columnas. subst ac columnas. induction l as [|e l IH]; [done|].
  destruct (Hl e ltac:(left)) as [He Hne].
  destruct (datos_est ff (grupo e df)) as [|dia0 resto] eqn:E; [done|].
  rewrite fmap_cons, merge_left_cons, (fecha_daily_estacion _ _ _ _ _ He E).
  rewrite fmap_cons, fmap_nil. simpl app. simpl snd.
  rewrite cada_fila_cons, (ordenar_columnas_estacion _ _ _ _ _ He E).
  rewrite IH by (intros e' He'; apply Hl; by right).
  change (omap ?f (e :: l)) with (match f e with Some y => y :: omap f l | None => omap f l end).
  assert (fila_esperada ff df e = Some (fila_modelo_de e dia0 resto)) as ->
    by (unfold fila_esperada; by rewrite E).
  reflexivity.
Qed.

(** The model table, station by station: [generar_formato_modelo] succeeds
    on a frame with rows and gives the rows of [fila_esperada] for the
    stations of the pivot index. *)
Lemma generar_formato_modelo_Ok df ff :
  max_fecha (fecha <$> df) = Some ff →
  generar_formato_modelo df = Ok (omap (fila_esperada ff df) (indice ff df)).
Proof.
  intros Hff. pose proof (max_fecha_Some _ _ Hff) as [Hin Hmax].
  apply list_elem_of_fmap in Hin as (r & Hfr & Hr).
  assert (Hac : resultados ff df ≠ []).
  { assert (He : codigoestacion r ∈ estaciones df)
      by (apply estaciones_elem_of; by apply list_elem_of_fmap_2).
    assert (Hd : r ∈ datos_est ff (grupo (codigoestacion r) df)).
    { apply datos_est_elem_of. split; [by apply grupo_elem_of|lia]. }
    destruct (datos_est ff (grupo (codigoestacion r) df)) as [|dia0 resto] eqn:E;
      [by apply elem_of_nil in Hd|].
    intros Hnil.
    assert (H0 : (codigoestacion r, "daily rain") ∈ par_pivot <$> resultados ff df)
      by (apply (resultados_pares_elem_of _ _ _ _ _ _ He E); left).
    rewrite Hnil in H0. by apply elem_of_nil in H0. }
  unfold generar_formato_modelo.
  rewrite decide_False by (intros ->; by apply elem_of_nil in Hr).
  rewrite Hff. rewrite decide_False by done.
  unfold pivot. rewrite decide_True by apply resultados_pares_NoDup.
  change (Ok ?x ≫= ?f) with (f x). cbv beta.
  apply (cada_fila_merge ff df (indice ff df)).
  intros e. apply indice_elem_of.
Qed.

(** ** Feature construction: the window and the accumulations *)

Lemma datos_est_Permutation ff g :
  datos_est ff g ≡ₚ filter (λ r, ff - 29 ≤ fecha r) g.
Proof. apply ordenar_desc_Permutation. Qed.

Lemma datos_est_sorted ff g : StronglySorted (fecha_desc fecha) (datos_est ff g).
Proof. apply ordenar_desc_sorted. Qed.


(** Day 0 is a row of the station on the latest of all its dates. *)
Lemma datos_est_dia0 ff g dia0 resto :
  datos_est ff g = dia0 :: resto →
  dia0 ∈ g ∧ ∀ r, r ∈ g → fecha r ≤ fecha dia0.
Proof.
  intros E.
  assert (H0 : dia0 ∈ datos_est ff g) by (rewrite E; left).
  apply datos_est_elem_of in H0 as [H0 Hv]. split; [done|].
  intros r Hr. destruct (decide (ff - 29 ≤ fecha r)) as [Hin|Hout]; [|lia].
  assert (Hr' : r ∈ datos_est ff g) by (by apply datos_est_elem_of).
  pose proof (datos_est_sorted ff g) as Hs. rewrite E in Hs, Hr'.
  apply StronglySorted_inv in Hs as [_ Hall].
  apply elem_of_cons in Hr' as [->|Hr']; [lia|].
  rewrite Forall_forall in Hall. apply (Hall r Hr').
Qed.

Lemma generar_formato_modelo_elem_of df ff tabla f :
  max_fecha (fecha <$> df) = Some ff →
  generar_formato_modelo df = Ok tabla →
  f ∈ tabla ↔
  ∃ e dia0 resto, e ∈ codigoestacion <$> df
    ∧ datos_est ff (grupo e df) = dia0 :: resto
    ∧ f = fila_modelo_de e dia0 resto.
Proof.
  intros Hff Hg. rewrite (generar_formato_modelo_Ok df ff Hff) in Hg.
  injection Hg as <-. rewrite list_elem_of_omap. split.
  - intros (e & He & Hf). apply indice_elem_of in He as [He _].
    apply estaciones_elem_of in He. unfold fila_esperada in Hf.
    destruct (datos_est ff (grupo e df)) as [|dia0 resto] eqn:E; [done|].
    injection Hf as <-. by exists e, dia0, resto.
  - intros (e & dia0 & resto & He & E & ->). exists e. split.
    + apply indice_elem_of. split; [by apply estaciones_elem_of|]. by rewrite E.
    + unfold fila_esperada. by rewrite E.
Qed.

Lemma generar_formato_modelo_NoDup df ff tabla :
  max_fecha (fecha <$> df) = Some ff →
  generar_formato_modelo df = Ok tabla →
  NoDup (fm_codigoestacion <$> tabla).
Proof.
  intros Hff Hg. rewrite (generar_formato_modelo_Ok df ff Hff) in Hg.
  injection Hg as <-.
  assert (H : ∀ l, NoDup l →
            NoDup (fm_codigoestacion <$> omap (fila_esperada ff df) l)).
  { induction l as [|e l IH]; intros Hnd; [constructor|].
    apply NoDup_cons in Hnd as [He Hnd].
    change (omap ?f (e :: l))
      with (match f e with Some y => y :: omap f l | None => omap f l end).
    unfold fila_esperada at 1.
    destruct (datos_est ff (grupo e df)) as [|dia0 resto]; [by apply IH|].
    rewrite fmap_cons. apply NoDup_cons. split; [|by apply IH]. simpl.
    intros (f & Hc & Hf)%list_elem_of_fmap.
    apply list_elem_of_omap in Hf as (e' & He' & Hf). unfold fila_esperada in Hf.
    destruct (datos_est ff (grupo e' df)); [done|]. injection Hf as <-.
    simpl in Hc. by subst e'. }
  apply H, indice_NoDup.
Qed.




(** Two rows of one date: day 0 is the one that comes first in the frame,
    and the other is the first row of the accumulations. *)
Lemma dia0_de_dos_filas_de_una_fecha :
  generar_formato_modelo df_dos_filas_ultima_fecha
  = Ok [ {| fm_codigoestacion := "A"; data := Some 1; daily_rain := Some 8%Q;
            rain_ant_1 := Some 16%Q; rain_ant_2 := Some 17%Q; rain_ant_3 := Some 17%Q;
            rain_ant_15 := Some 17%Q; rain_ant_30 := Some 17%Q |} ].
Proof. vm_compute. reflexivity. Qed.




(** C9 fails on the code: a station without any row on the last four
    dates is not counted among the incomplete ones and stays. Station X
    (latest date 26) and station Y (latest date 30) both pass the quality
    control, and the model table carries two different values of [data]. *)
Lemma fechas_data_distintas :
  estaciones_incompletas 30 (df_lluvia_completo df_X_calla) = []
  ∧ control_calidad_datos true None df_X_calla = Ok df_X_calla
  ∧ ∃ tabla, generar_formato_modelo df_X_calla = Ok tabla
      ∧ fm_codigoestacion <$> tabla = ["X"; "Y"]
      ∧ data <$> tabla = [Some 26; Some 30].
Proof.
  split; [vm_compute; reflexivity|]. split; [vm_compute; reflexivity|].
  eexists. split; [vm_compute; reflexivity|]. split; reflexivity.
Qed.

(** ** Spatial filter *)

Lemma trozos_concat {A} (n : nat) (l : list A) : (0 < n)%nat → concat (trozos n l) = l.
Proof.
  intros Hn. unfold trozos.
  assert (H : ∀ m, concat ((λ k, take n (drop (k * n) l)) <$> seq 0 m) = take (m * n) l).
  { induction m as [|m IH]; [by rewrite take_0|].
    rewrite seq_S, fmap_app, concat_app, IH. simpl.
    rewrite app_nil_r, take_take_drop. f_equal. lia. }
  rewrite H. apply take_ge.
  pose proof (Nat.div_mod (length l + n - 1) n ltac:(lia)) as Hdm.
  pose proof (Nat.mod_upper_bound (length l + n - 1) n ltac:(lia)). nia.
Qed.

Lemma concat_filter_no_vacios {A} (ls : list (list A)) :
  concat (filter (λ c, c ≠ []) ls) = concat ls.
Proof.
  induction ls as [|c ls IH]; [done|]. rewrite filter_cons.
  destruct (decide (c ≠ [])) as [Hc|Hc]; simpl; rewrite IH; [done|].
  destruct c; [done|]. by destruct Hc.
Qed.

Lemma concat_fmap_filter {A} (P : A → Prop) `{∀ x, Decision (P x)} (ls : list (list A)) :
  concat (filter P <$> ls) = filter P (concat ls).
Proof.
  induction ls as [|c ls IH]; [done|]. rewrite fmap_cons. simpl.
  by rewrite filter_app, IH.
Qed.

(** The chunks change the memory the filter needs, not its result. *)
Lemma filtrar_chunks_filas {Poligono} (within : list Poligono → Q → Q → bool)
    (n : nat) (region : list Poligono) (df : Frame) :
  (0 < n)%nat →
  columnas (filtrar_chunks within n region df) = columnas df ++ ["geometry"]
  ∧ filas (filtrar_chunks within n region df)
    = filter (λ o, dentro within region o = true)
        (filter coordenadas_validas (filas df)).
Proof.
  intros Hn. unfold filtrar_chunks.
  set (chunks := trozos n (filter coordenadas_validas (filas df))).
  set (filtrados := (λ chunk, filter (λ o, dentro within region o = true) chunk) <$> chunks).
  assert (Hc : concat (filter (λ c, c ≠ []) filtrados)
               = filter (λ o, dentro within region o = true)
                   (filter coordenadas_validas (filas df))).
  { rewrite concat_filter_no_vacios. unfold filtrados.
    etrans; [apply (concat_fmap_filter (λ o, dentro within region o = true))|].
    unfold chunks. by rewrite trozos_concat. }
  destruct (decide (filter (λ c, c ≠ []) filtrados = [])) as [Hnil|Hnil];
    (split; [reflexivity|]); cbn [filas]; [|exact Hc].
  rewrite <- Hc, Hnil. reflexivity.
Qed.

Lemma chunk_size_pos : (0 < chunk_size)%nat.
Proof. unfold chunk_size. lia. Qed.

(** The filter raises exactly when the region shapefile cannot be read,
    when it declares no reference system, or when the frame lacks one of
    the two coordinate columns. *)
Lemma filtrar_region_andina_excepcion {Poligono}
    (within : list Poligono → Q → Q → bool) (env : Entorno Poligono) (df : Frame) :
  (∃ msg, filtrar_region_andina within env df = Excepcion msg)
  ↔ region_andina env = None
    ∨ (∃ region, region_andina env = Some region ∧ crs region = None)
    ∨ "latitud" ∉ columnas df ∨ "longitud" ∉ columnas df.
Proof.
  unfold filtrar_region_andina, cargar_region, to_crs.
  destruct (region_andina env) as [region|]; simpl.
  2:{ split; [by left|]. intros _. by eexists. }
  destruct (crs region) as [c|] eqn:Hcrs; simpl.
  2:{ split; [|intros _; by eexists]. intros _. right. left. by exists region. }
  destruct (decide ("latitud" ∈ columnas df)) as [Hlat|Hlat].
  2:{ split; [|intros _; by eexists]. intros _. right. right. by left. }
  destruct (decide ("longitud" ∈ columnas df)) as [Hlon|Hlon].
  2:{ split; [|intros _; by eexists]. intros _. right. right. by right. }
  split; [by intros [msg [=]]|].
  intros [[=]|[(region' & [= <-] & Hnone)|[?|?]]]; [congruence|done|done].
Qed.

(** C6, as amended: when the region shapefile is read and declares a
    reference system, and the frame has the columns latitud and longitud,
    the spatial filter does not raise; its result has the columns of the
    input followed by a geometry column and holds, in arrival order, the
    rows with numeric coordinates that lie within the region; the result
    has no row when the region contains no point (as a region without
    polygons) and when every row fails the parsing of its coordinates.
    When the shapefile cannot be read the error is raised again. *)
Theorem filtro_con_region_cargada {Poligono} (within : list Poligono → Q → Q → bool)
    (env : Entorno Poligono) (region : Region Poligono) (df : Frame) :
  region_andina env = Some region → is_Some (crs region) →
  "latitud" ∈ columnas df → "longitud" ∈ columnas df →
  ∃ out, filtrar_region_andina within env df = Ok out
    ∧ columnas out = columnas df ++ ["geometry"]
    ∧ filas out = filter (λ o, dentro within (geometry region) o = true)
                    (filter coordenadas_validas (filas df))
    ∧ ((∀ lon lat, within (geometry region) lon lat = false) → filas out = [])
    ∧ (Forall (λ o, ¬ coordenadas_validas o) (filas df) → filas out = []).
Proof.
  intros Hreg [c Hcrs] Hlat Hlon.
  unfold filtrar_region_andina, cargar_region, to_crs. rewrite Hreg. simpl.
  rewrite Hcrs. simpl. rewrite !decide_True by done.
  eexists. split; [reflexivity|].
  destruct (filtrar_chunks_filas within chunk_size (geometry region) df chunk_size_pos)
    as [Hcol Hfil].
  split; [exact Hcol|]. split; [exact Hfil|]. split.
  - intros Hfuera. rewrite Hfil. apply filter_nil_Forall, Forall_forall.
    intros o _. unfold dentro.
    destruct (obs_longitud o), (obs_latitud o); try done. by rewrite Hfuera.
  - intros Hinv. rewrite Hfil.
    by rewrite (filter_nil_Forall coordenadas_validas (filas df)).
Qed.

(** The theorem at a region read without polygons: two valid readings, no
    row in the result. *)
Lemma filtro_con_region_cargada_testigo :
  region_andina env_region_vacia = Some {| crs := Some 4326; geometry := [] |}
  ∧ ∃ out, filtrar_region_andina within_alguno env_region_vacia df_dos_lecturas = Ok out
      ∧ columnas out = columnas df_dos_lecturas ++ ["geometry"]
      ∧ filas out = [].
Proof.
  split; [reflexivity|].
  assert (H1 : "latitud" ∈ columnas df_dos_lecturas)
    by (apply (bool_decide_unpack _); vm_compute; exact I).
  assert (H2 : "longitud" ∈ columnas df_dos_lecturas)
    by (apply (bool_decide_unpack _); vm_compute; exact I).
  destruct (filtro_con_region_cargada within_alguno env_region_vacia
              {| crs := Some 4326; geometry := [] |} df_dos_lecturas
              eq_refl (ex_intro _ 4326 eq_refl) H1 H2) as (out & Ha & Hb & _ & Hc & _).
  exists out. split; [exact Ha|]. split; [exact Hb|].
  apply Hc. reflexivity.
Defined.

(** C6 as stated fails: when the region shapefile cannot be read,
    [cargar_region] raises the error again and the filter raises. *)
Lemma filtro_lanza_sin_region :
  filtrar_region_andina within_alguno env_region_ilegible df_dos_lecturas
  = Excepcion "Error cargando región".
Proof. reflexivity. Qed.

(** ** Runs in the world *)

Lemma M_bind_Some {A B} (m : M A) (f : A → M B) w r w' :
  (m ≫= f) w = Some (r, w') →
  (∃ a w1, m w = Some (Ok a, w1) ∧ f a w1 = Some (r, w'))
  ∨ (∃ msg, m w = Some (Excepcion msg, w') ∧ r = Excepcion msg).
Proof.
  unfold mbind, M_bind. destruct (m w) as [[[a|msg] w1]|]; intros H; [| |done].
  - left. by exists a, w1.
  - right. injection H as <- <-. by exists msg.
Qed.

Lemma M_bind_Ok {A B} (m : M A) (f : A → M B) w a w1 :
  m w = Some (Ok a, w1) → (m ≫= f) w = f a w1.
Proof. unfold mbind, M_bind. by intros ->. Qed.

Lemma solo_descarga_refl w : solo_descarga w w.
Proof. repeat split. exists []. by rewrite app_nil_r. Qed.

Lemma solo_descarga_trans w1 w2 w3 :
  solo_descarga w1 w2 → solo_descarga w2 w3 → solo_descarga w1 w3.
Proof.
  intros (Ha1 & Hr1 & ps1 & Hp1 & Hf1) (Ha2 & Hr2 & ps2 & Hp2 & Hf2).
  repeat split; [congruence|congruence|].
  exists (ps1 ++ ps2). split; [by rewrite Hp2, Hp1, app_assoc|by apply Forall_app].
Qed.

Lemma dormir_5_solo_descarga w : ∃ w', dormir 5 w = Some (Ok (), w') ∧ solo_descarga w w'.
Proof.
  eexists. split; [reflexivity|]. repeat split. exists [5]. split; [done|].
  by repeat constructor.
Qed.

(** *** The pages of a block *)

Lemma paginas_S {Poligono} (env : Entorno Poligono) n ini fin off data errs w :
  paginas env (S n) ini fin off data errs w
  = let w1 := {| llamadas := S (llamadas w); pausas := pausas w;
                 reportes := reportes w; archivos := archivos w |} in
    match client_get env (llamadas w) ini fin off with
    | Lote batch =>
        if decide (batch = []) then Some (Ok data, w1)
        else paginas env n ini fin (off + limit) (data ++ batch) errs w1
    | ErrorConectividad =>
        if decide (S errs < 5)%nat
        then paginas env n ini fin (off + limit) data (S errs) w1
        else Some (Ok data, w1)
    | ErrorOtro => Some (Ok data, w1)
    end.
Proof.
  simpl. unfold mbind, M_bind, pedir. simpl.
  destruct (client_get env (llamadas w) ini fin off) as [batch| |]; try done;
    by case_decide.
Qed.

Lemma paginas_mundo {Poligono} (env : Entorno Poligono) n ini fin off data errs w r w' :
  paginas env n ini fin off data errs w = Some (r, w') →
  ∃ d, r = Ok d ∧ solo_descarga w w' ∧ pausas w' = pausas w.
Proof.
  revert off data errs w. induction n as [|n IH]; intros off data errs w; [done|].
  rewrite paginas_S. cbv zeta.
  set (w1 := {| llamadas := S (llamadas w); pausas := pausas w;
                reportes := reportes w; archivos := archivos w |}).
  assert (Hw1 : solo_descarga w w1 ∧ pausas w1 = pausas w).
  { split; [|done]. repeat split. exists []. by rewrite app_nil_r. }
  assert (Hfin : ∀ d, Some (Ok d, w1) = Some (r, w') →
            ∃ d, r = Ok d ∧ solo_descarga w w' ∧ pausas w' = pausas w).
  { intros d [= <- <-]. by exists d. }
  assert (Hrec : ∀ off data errs, paginas env n ini fin off data errs w1 = Some (r, w') →
            ∃ d, r = Ok d ∧ solo_descarga w w' ∧ pausas w' = pausas w).
  { intros off' data' errs' H. apply IH in H as (d & -> & Hs & Hp).
    exists d. split; [done|]. split; [|by rewrite Hp].
    eapply solo_descarga_trans; [apply Hw1|done]. }
  destruct (client_get env (llamadas w) ini fin off) as [batch| |].
  - case_decide; [apply Hfin|apply Hrec].
  - case_decide; [apply Hrec|apply Hfin].
  - apply Hfin.
Qed.

(** *** The attempts at a block *)

Lemma intentos_bloque_mundo {Poligono} (env : Entorno Poligono) n fuel ini fin rc w r w' :
  intentos_bloque env n fuel ini fin rc w = Some (r, w') →
  ∃ o, r = Ok o ∧ solo_descarga w w' ∧ ∀ d, o = Some d → d ≠ [].
Proof.
  revert rc w. induction n as [|n IH]; intros rc w; simpl.
  - case_decide; [done|]. intros [= <- <-]. exists None.
    split; [done|]. split; [apply solo_descarga_refl|done].
  - case_decide as Hrc.
    2:{ intros [= <- <-]. exists None.
        split; [done|]. split; [apply solo_descarga_refl|done]. }
    intros H. apply M_bind_Some in H as [(d & w1 & Hp & H)|(msg & Hp & _)].
    2:{ by apply paginas_mundo in Hp as (? & ? & _). }
    apply paginas_mundo in Hp as (? & [= <-] & Hs1 & _).
    case_decide as Hlen.
    + injection H as <- <-. exists (Some d). split; [done|]. split; [done|].
      intros ? [= <-] ->. simpl in Hlen. lia.
    + apply M_bind_Some in H as [([] & w2 & Hd & H)|(msg & Hd & _)].
      2:{ case_decide; by inversion Hd. }
      assert (Hs2 : solo_descarga w1 w2).
      { case_decide.
        - destruct (dormir_5_solo_descarga w1) as (w2' & Hd' & Hs).
          rewrite Hd' in Hd. by injection Hd as <-.
        - injection Hd as <-. apply solo_descarga_refl. }
      apply IH in H as (o & -> & Hs3 & Ho). exists o. split; [done|].
      split; [|done].
      eapply solo_descarga_trans; [exact Hs1|].
      eapply solo_descarga_trans; [exact Hs2|exact Hs3].
Qed.

(** *** The blocks of a range *)

Lemma bloques_previstos_fin cs fin : ¬ cs < fin → bloques_previstos cs fin = 0%nat.
Proof.
  intros H. unfold bloques_previstos, SEGUNDOS_DIA.
  assert ((fin - cs + (86400 - 1)) `div` 86400 < 1); [|lia].
  apply Z.div_lt_upper_bound; lia.
Qed.

Lemma bloques_previstos_S cs fin :
  cs < fin →
  bloques_previstos cs fin
  = S (bloques_previstos (Z.min (cs + block_size * SEGUNDOS_DIA) fin) fin).
Proof.
  intros H. unfold bloques_previstos, block_size, SEGUNDOS_DIA.
  rewrite <- Z2Nat.inj_succ.
  - f_equal. destruct (Z.min_spec (cs + 1 * 86400) fin) as [[Hlt ->]|[Hle ->]].
    + replace (fin - cs + (86400 - 1)) with (fin - (cs + 1 * 86400) + (86400 - 1) + 1 * 86400)
        by lia.
      rewrite Z.div_add by lia. lia.
    + replace (fin - fin + (86400 - 1)) with 86399 by lia.
      change (86399 `div` 86400) with 0.
      symmetry. apply (Z.div_unique _ _ 1 (fin - cs - 1)); lia.
  - apply Z.div_pos; [|lia].
    destruct (Z.min_spec (cs + 1 * 86400) fin) as [[_ ->]|[_ ->]]; lia.
Qed.

Lemma bucle_bloques_mundo {Poligono} (env : Entorno Poligono) n fuel cs fin d w r w' :
  bucle_bloques env n fuel cs fin d w = Some (r, w') →
  ∃ d', r = Ok d' ∧ solo_descarga w w'
    ∧ length (bloques d') = (length (bloques d) + bloques_previstos cs fin)%nat
    ∧ (length (failed_blocks d') ≤ length (failed_blocks d) + bloques_previstos cs fin)%nat
    ∧ (all_data d' = [] →
       all_data d = []
       ∧ length (failed_blocks d')
         = (length (failed_blocks d) + bloques_previstos cs fin)%nat).
Proof.
  revert cs d w. induction n as [|n IH]; intros cs d w; simpl.
  - case_decide as Hlt; [done|]. intros [= <- <-]. exists d.
    rewrite (bloques_previstos_fin _ _ Hlt), !Nat.add_0_r.
    split; [done|]. split; [apply solo_descarga_refl|]. by repeat split.
  - case_decide as Hlt.
    2:{ intros [= <- <-]. exists d.
        rewrite (bloques_previstos_fin _ _ Hlt), !Nat.add_0_r.
        split; [done|]. split; [apply solo_descarga_refl|]. by repeat split. }
    intros H. apply M_bind_Some in H as [(o & w1 & Hi & H)|(msg & Hi & _)].
    2:{ by apply intentos_bloque_mundo in Hi as (? & ? & _). }
    apply intentos_bloque_mundo in Hi as (? & [= <-] & Hs1 & Ho).
    apply IH in H as (d' & -> & Hs2 & Hb & Hf & Hv).
    exists d'. split; [done|].
    split; [by eapply solo_descarga_trans|].
    rewrite (bloques_previstos_S _ _ Hlt).
    destruct o as [block_data|]; simpl in *.
    + rewrite length_app in Hb. simpl in Hb. split; [lia|]. split; [lia|].
      intros Hnil. destruct (Hv Hnil) as [Happ _].
      apply app_eq_nil in Happ as [_ Hbd]. by destruct (Ho block_data eq_refl).
    + rewrite length_app in Hb, Hf, Hv. simpl in Hb, Hf, Hv.
      split; [lia|]. split; [lia|].
      intros Hnil. destruct (Hv Hnil) as [? ?]. split; [done|lia].
Qed.

(** *** The download report *)

Lemma masivos_mundo {Poligono} (env : Entorno Poligono) fuel ini fin w r w' :
  obtener_datos_lluvia_masivos env fuel ini fin w = Some (r, w') →
  match r with
  | Ok rep =>
      total_days rep = dias_solicitados ini fin
      ∧ total_days rep ≠ 0
      ∧ failed_days rep = Z.of_nat (length (failed_blocks (descarga rep)))
      ∧ success_percentage rep = cobertura (total_days rep) (failed_days rep)
      ∧ length (bloques (descarga rep)) = bloques_previstos ini fin
      ∧ (length (failed_blocks (descarga rep)) ≤ bloques_previstos ini fin)%nat
      ∧ (all_data (descarga rep) = [] →
         length (failed_blocks (descarga rep)) = bloques_previstos ini fin)
      ∧ archivos w' = archivos w
      ∧ reportes w' = reportes w ++ [(length (all_data (descarga rep)),
                                      success_percentage rep)]
      ∧ ∃ ps, pausas w' = pausas w ++ ps ∧ Forall (λ s, s = 5) ps
  | Excepcion _ => dias_solicitados ini fin = 0 ∧ solo_descarga w w'
  end.
Proof.
  unfold obtener_datos_lluvia_masivos. intros H.
  apply M_bind_Some in H as [(d & w1 & Hb & H)|(msg & Hb & _)].
  2:{ by apply bucle_bloques_mundo in Hb as (? & ? & _). }
  apply bucle_bloques_mundo in Hb as (? & [= <-] & Hs & Hbl & Hfl & Hv).
  simpl in Hbl, Hfl, Hv. destruct Hs as (Ha & Hr & ps & Hp & Hps).
  case_decide as Hz.
  - injection H as <- <-. split; [done|]. repeat split; try done. by exists ps.
  - unfold mbind, M_bind, reportar in H. simpl in H. injection H as <- <-. simpl.
    unfold block_size. repeat split; try done; try lia.
    + intros Hnil. by destruct (Hv Hnil).
    + by rewrite Hr.
    + by exists ps.
Qed.

(** *** Enough fuel: the loops end when the data set is finite *)

Lemma paginas_pendientes_mono B off :
  (paginas_pendientes B (off + limit) ≤ paginas_pendientes B off)%nat.
Proof.
  unfold paginas_pendientes, limit.
  assert ((B - (off + 2000) + (2000 - 1)) `div` 2000 ≤ (B - off + (2000 - 1)) `div` 2000)
    by (apply Z.div_le_mono; lia).
  lia.
Qed.

Lemma paginas_pendientes_S B off :
  off < B → (paginas_pendientes B (off + limit) < paginas_pendientes B off)%nat.
Proof.
  intros H. unfold paginas_pendientes, limit.
  replace (B - off + (2000 - 1)) with (B - (off + 2000) + (2000 - 1) + 1 * 2000) by lia.
  rewrite Z.div_add by lia.
  assert (0 ≤ (B - (off + 2000) + (2000 - 1)) `div` 2000)
    by (apply Z.div_pos; lia).
  lia.
Qed.

Lemma paginas_termina {Poligono} (env : Entorno Poligono) B n ini fin off data errs w :
  api_finita env B → (errs < 5)%nat →
  (paginas_pendientes B off + (5 - errs) ≤ n)%nat →
  ∃ r w', paginas env n ini fin off data errs w = Some (r, w').
Proof.
  intros Hfin. revert off data errs w.
  induction n as [|n IH]; intros off data errs w Herrs Hn; [lia|].
  rewrite paginas_S. cbv zeta.
  destruct (client_get env (llamadas w) ini fin off) as [batch| |] eqn:Hresp.
  - case_decide as Hb; [by eexists _, _|].
    assert (off < B).
    { destruct (decide (off < B)); [done|]. destruct Hb.
      eapply Hfin; [|exact Hresp]. lia. }
    apply IH; [done|]. pose proof (paginas_pendientes_S B off ltac:(done)). lia.
  - case_decide; [|by eexists _, _].
    apply IH; [done|]. pose proof (paginas_pendientes_mono B off). lia.
  - by eexists _, _.
Qed.

Lemma intentos_bloque_termina {Poligono} (env : Entorno Poligono) B n fuel ini fin rc w :
  api_finita env B → (paginas_pendientes B 0 + 5 ≤ fuel)%nat →
  (max_retries + 1 - rc ≤ n)%nat →
  ∃ r w', intentos_bloque env n fuel ini fin rc w = Some (r, w').
Proof.
  intros Hfin Hfuel. revert rc w. unfold max_retries.
  induction n as [|n IH]; intros rc w Hn; simpl.
  - rewrite decide_False by (unfold max_retries; lia). by eexists _, _.
  - case_decide as Hrc; [|by eexists _, _].
    destruct (paginas_termina env B fuel ini fin 0 [] 0 w Hfin ltac:(lia) ltac:(lia))
      as (r1 & w1 & Hp).
    pose proof Hp as Hp'. apply paginas_mundo in Hp' as (d & -> & _).
    rewrite (M_bind_Ok _ _ _ _ _ Hp).
    case_decide; [by eexists _, _|].
    assert (∃ w2, (if decide (S rc ≤ max_retries)%nat then dormir 5 else mret ()) w1
                  = Some (Ok (), w2)) as (w2 & Hd)
      by (case_decide; by eexists).
    rewrite (M_bind_Ok _ _ _ _ _ Hd). apply IH. unfold max_retries in Hrc. lia.
Qed.

Lemma bucle_bloques_termina {Poligono} (env : Entorno Poligono) B n fuel cs fin d w :
  api_finita env B → (paginas_pendientes B 0 + 5 ≤ fuel)%nat → (4 ≤ fuel)%nat →
  (bloques_previstos cs fin ≤ n)%nat →
  ∃ r w', bucle_bloques env n fuel cs fin d w = Some (r, w').
Proof.
  intros Hfin Hfuel H4. revert cs d w.
  induction n as [|n IH]; intros cs d w Hn; simpl.
  - case_decide as Hlt; [|by eexists _, _].
    rewrite (bloques_previstos_S _ _ Hlt) in Hn. lia.
  - case_decide as Hlt; [|by eexists _, _].
    rewrite (bloques_previstos_S _ _ Hlt) in Hn.
    destruct (intentos_bloque_termina env B fuel fuel cs
                (Z.min (cs + block_size * SEGUNDOS_DIA) fin) 0 w Hfin Hfuel
                ltac:(unfold max_retries; lia)) as (r1 & w1 & Hi).
    pose proof Hi as Hi'. apply intentos_bloque_mundo in Hi' as (o & -> & _).
    rewrite (M_bind_Ok _ _ _ _ _ Hi). apply IH. lia.
Qed.

Lemma masivos_termina {Poligono} (env : Entorno Poligono) B fuel ini fin w :
  api_finita env B → (paginas_pendientes B 0 + 5 ≤ fuel)%nat → (4 ≤ fuel)%nat →
  (bloques_previstos ini fin ≤ fuel)%nat →
  ∃ r w', obtener_datos_lluvia_masivos env fuel ini fin w = Some (r, w').
Proof.
  intros Hfin Hfuel H4 Hb. unfold obtener_datos_lluvia_masivos.
  destruct (bucle_bloques_termina env B fuel fuel ini fin
              {| all_data := []; failed_blocks := []; bloques := [] |} w
              Hfin Hfuel H4 Hb) as (r1 & w1 & Hbl).
  pose proof Hbl as Hbl'. apply bucle_bloques_mundo in Hbl' as (d & -> & _).
  rewrite (M_bind_Ok _ _ _ _ _ Hbl).
  case_decide; by eexists _, _.
Qed.

(** *** The period of the run *)

Lemma periodo_duracion now :
  (periodo now).2 - (periodo now).1 = days_back * SEGUNDOS_DIA + 86399.
Proof.
  unfold periodo, fecha_de, days_back, SEGUNDOS_DIA. simpl fst. simpl snd.
  replace (now `div` 86400 * 86400 + 86399 - 30 * 86400)
    with (86399 + (now `div` 86400 - 30) * 86400) by lia.
  rewrite Z.div_add by lia. change (86399 `div` 86400) with 0. lia.
Qed.

Lemma periodo_dias now :
  dias_solicitados (periodo now).1 (periodo now).2 = 31
  ∧ bloques_previstos (periodo now).1 (periodo now).2 = 31%nat.
Proof.
  unfold dias_solicitados, bloques_previstos. rewrite periodo_duracion.
  by vm_compute.
Qed.

(** ** The retrieval of a run and its coverage tiers *)

Lemma guardar_respaldo_mundo datos w :
  ∃ w', guardar_respaldo datos w = Some (Ok (), w')
    ∧ reportes w' = reportes w ∧ pausas w' = pausas w
    ∧ (archivos w' = archivos w
       ∨ ∃ f, archivos w' = archivos w ++ [RAW_lluvia_backup f]).
Proof.
  unfold guardar_respaldo. destruct (max_fecha _) as [f|].
  - eexists. split; [reflexivity|]. repeat split. right. by exists (fecha_de f).
  - eexists. split; [reflexivity|]. repeat split. by left.
Qed.

Lemma pausa_reintento (a : nat) w :
  ∃ w0, (if decide (0 < a)%nat then dormir 10 else mret ()) w = Some (Ok (), w0)
    ∧ archivos w0 = archivos w ∧ reportes w0 = reportes w
    ∧ pausas w0 = pausas w ++ (if decide (0 < a)%nat then [10] else []).
Proof.
  case_decide; (eexists; split; [reflexivity|]); repeat split.
  simpl. by rewrite app_nil_r.
Qed.

Lemma pausa_reintento_tras (a : nat) w :
  (if decide (0 < a)%nat then dormir 10 else mret ()) w = Some (Ok (), tras_pausa a w).
Proof. unfold tras_pausa. by case_decide. Qed.

(** What a chain of downloads leaves in the world: a line of the log for
    each, a pause of 10 seconds before each but the first of the run, the
    pauses of 5 seconds of the blocks, and no file. *)
Lemma descargas_sucesivas_mundo {Poligono} (env : Entorno Poligono) fuel ini fin
    (a : nat) w reps w' :
  descargas_sucesivas env fuel ini fin a w reps w' →
  archivos w' = archivos w
  ∧ reportes w' = reportes w ++ (linea_reporte <$> reps)
  ∧ ∃ ps, pausas w' = pausas w ++ ps
      ∧ Forall (λ s, s = 5 ∨ s = 10) ps
      ∧ length (filter (λ s, s = 10) ps)
        = (length reps - (if decide (0 < a)%nat then 0 else 1))%nat.
Proof.
  revert a w. induction reps as [|rep reps IH]; intros a w; simpl.
  - intros ->. rewrite app_nil_r. split; [done|]. split; [done|].
    exists []. rewrite app_nil_r. split; [done|]. split; [constructor|]. simpl. lia.
  - intros (w1 & Hm & Hc).
    apply masivos_mundo in Hm
      as (_ & _ & _ & _ & _ & _ & _ & Ha1 & Hr1 & ps1 & Hp1 & Hps1).
    apply IH in Hc as (Ha & Hr & ps & Hp & Hps & Hcount).
    assert (Htras : archivos (tras_pausa a w) = archivos w
                    ∧ reportes (tras_pausa a w) = reportes w
                    ∧ pausas (tras_pausa a w)
                      = pausas w ++ (if decide (0 < a)%nat then [10] else [])).
    { unfold tras_pausa. destruct (decide (0 < a)%nat); simpl.
      - done.
      - by rewrite app_nil_r. }
    destruct Htras as (Ha0 & Hr0 & Hp0).
    split; [congruence|]. split.
    { rewrite Hr, Hr1, Hr0. by rewrite <- app_assoc. }
    exists ((if decide (0 < a)%nat then [10] else []) ++ ps1 ++ ps).
    split; [by rewrite Hp, Hp1, Hp0, <- !app_assoc|]. split.
    { apply Forall_app. split; [case_decide; [apply Forall_singleton; by right|constructor]|].
      apply Forall_app. split; [|done].
      eapply Forall_impl; [exact Hps1|]. intros s ->. by left. }
    rewrite !filter_app, !length_app, Hcount.
    rewrite (filter_nil_Forall (λ s, s = 10) ps1)
      by (eapply Forall_impl; [exact Hps1|]; intros s -> [=]).
    rewrite (decide_True (P := (0 < S a)%nat)) by lia.
    case_decide; simpl; lia.
Qed.

Section Reintentos.

Context {Poligono : Type} (env : Entorno Poligono) (fuel : nat) (ini fin : Z).
Hypothesis Htermina :
  ∀ w, ∃ r w', obtener_datos_lluvia_masivos env fuel ini fin w = Some (r, w').
Hypothesis Hdias : dias_solicitados ini fin = 31.
Hypothesis Hbloques : bloques_previstos ini fin = 31%nat.

(** A download of the 31 days of the run: without records every block
    failed and the coverage is 0. *)
Lemma masivos_periodo w :
  ∃ rep w' ps,
    obtener_datos_lluvia_masivos env fuel ini fin w = Some (Ok rep, w')
    ∧ archivos w' = archivos w
    ∧ reportes w' = reportes w ++ [(length (all_data (descarga rep)),
                                    success_percentage rep)]
    ∧ pausas w' = pausas w ++ ps ∧ Forall (λ s, s = 5) ps
    ∧ (all_data (descarga rep) = [] → ¬ (50 <= success_percentage rep)%Q).
Proof.
  destruct (Htermina w) as (r & w' & Hm). pose proof (masivos_mundo _ _ _ _ _ _ _ Hm) as H.
  destruct r as [rep|msg]; [|destruct H as [H _]; rewrite Hdias in H; done].
  destruct H as (Ht & _ & Hf & Hp & _ & _ & Hv & Ha & Hr & ps & Hps & Hall).
  exists rep, w', ps. repeat split; try done.
  intros Hnil Hle. rewrite Hp, Hf, Ht, (Hv Hnil), Hdias, Hbloques in Hle.
  apply Qle_bool_iff in Hle. vm_compute in Hle. discriminate.
Qed.

(** The loop of the whole downloads, from the attempt [a] on: the downloads
    made, the last of which decides. *)
Lemma bucle_intentos_tramos (k a : nat) (prev : Intentos) (w : Mundo) :
  (a + k = max_complete_retries + 1)%nat → (1 ≤ k)%nat →
  ∃ r w' previas ultima w_ult,
    bucle_intentos env fuel (seq a k) ini fin prev w = Some (r, w')
    ∧ descargas_sucesivas env fuel ini fin a w (previas ++ [ultima]) w_ult
    ∧ (length previas < k)%nat
    ∧ Forall (λ rep, ¬ (70 <= success_percentage rep)%Q) previas
    ∧ (¬ (70 <= success_percentage ultima)%Q →
       (a + length previas = max_complete_retries)%nat)
    ∧ (all_data (descarga ultima) = [] → ¬ (50 <= success_percentage ultima)%Q)
    ∧ match r with
      | Ok i =>
          datos i = all_data (descarga ultima)
          ∧ porcentaje i = success_percentage ultima
          ∧ guardar_respaldo (datos i) w_ult = Some (Ok (), w')
          ∧ ((rama i = Some CoberturaAceptable ∧ (70 <= success_percentage ultima)%Q)
             ∨ (rama i = Some CoberturaReducida
                ∧ ¬ (70 <= success_percentage ultima)%Q
                ∧ (50 <= success_percentage ultima)%Q))
      | Excepcion _ =>
          (¬ (50 <= success_percentage ultima)%Q) ∧ w' = w_ult
      end.
Proof.
  revert a prev w. induction k as [|k IH]; intros a prev w Hak Hk; [lia|].
  cbn [seq bucle_intentos].
  rewrite (M_bind_Ok _ _ _ _ _ (pausa_reintento_tras a w)).
  destruct (masivos_periodo (tras_pausa a w))
    as (rep & w1 & ps1 & Hm & Ha1 & Hr1 & Hp1 & Hps1 & Hvacio).
  rewrite (M_bind_Ok _ _ _ _ _ Hm). cbv zeta.
  set (pct := success_percentage rep) in *.
  assert (Huna : descargas_sucesivas env fuel ini fin a w ([] ++ [rep]) w1).
  { simpl. by exists w1. }
  destruct (Qle_bool min_coverage pct) eqn:H70.
  - (* acceptable coverage *)
    destruct (guardar_respaldo_mundo (all_data (descarga rep)) w1) as (w2 & Hg & _).
    rewrite (M_bind_Ok _ _ _ _ _ Hg).
    eexists _, _, [], rep, w1. split; [reflexivity|]. split; [exact Huna|].
    split; [simpl; lia|]. split; [constructor|].
    assert (H70' : (70 <= pct)%Q) by (by apply Qle_bool_iff).
    split; [by intros []|]. split; [exact Hvacio|].
    simpl. split; [done|]. split; [done|]. split; [exact Hg|]. by left.
  - assert (Hno70 : ¬ (70 <= pct)%Q).
    { intros H%Qle_bool_iff. unfold min_coverage in H70. congruence. }
    destruct (decide (a < max_complete_retries)%nat) as [Hult|Hult].
    + (* a whole download again *)
      destruct (IH (S a) {| rama := None; datos := all_data (descarga rep);
                            porcentaje := pct; descargas := S (descargas prev) |}
                  w1 ltac:(unfold max_complete_retries in *; lia)
                  ltac:(unfold max_complete_retries in *; lia))
        as (r & w' & previas & ultima & w_ult & Hb & Hc & Hl & Hf & Hlast & Hv & Hpost).
      exists r, w', (rep :: previas), ultima, w_ult.
      split; [exact Hb|]. split.
      { simpl. exists w1. by split. }
      split; [simpl; lia|]. split; [by constructor|].
      split; [intros Hno; specialize (Hlast Hno); simpl; lia|].
      split; [exact Hv|exact Hpost].
    + assert (Hlast : (a + 0 = max_complete_retries)%nat)
        by (unfold max_complete_retries in *; lia).
      destruct (Qle_bool 50 pct && bool_decide (0 < length (all_data (descarga rep)))%nat)
        eqn:H50.
      * (* reduced coverage *)
        apply andb_prop in H50 as [H50 _]. apply Qle_bool_iff in H50.
        destruct (guardar_respaldo_mundo (all_data (descarga rep)) w1) as (w2 & Hg & _).
        rewrite (M_bind_Ok _ _ _ _ _ Hg).
        eexists _, _, [], rep, w1. split; [reflexivity|]. split; [exact Huna|].
        split; [simpl; lia|]. split; [constructor|].
        split; [by intros _|]. split; [exact Hvacio|].
        simpl. split; [done|]. split; [done|]. split; [exact Hg|]. right. by repeat split.
      * (* not enough data *)
        eexists _, _, [], rep, w1. split; [reflexivity|]. split; [exact Huna|].
        split; [simpl; lia|]. split; [constructor|].
        split; [by intros _|]. split; [exact Hvacio|].
        split; [|done].
        intros H50'. apply andb_false_iff in H50 as [H50|H50].
        -- apply Qle_bool_iff in H50'. fold pct in H50'. congruence.
        -- apply bool_decide_eq_false in H50. apply Hvacio; [|done].
           destruct (all_data (descarga rep)); [done|]. simpl in H50. lia.
Qed.

End Reintentos.

Lemma descargar_con_reintentos_archivos_presentes {Poligono} (env : Entorno Poligono)
    fuel w :
  existe_estaciones env = true → existe_region env = true →
  descargar_con_reintentos env fuel w
  = (i ← bucle_intentos env fuel (seq 0 (max_complete_retries + 1))
          (periodo (ahora env)).1 (periodo (ahora env)).2
          {| rama := None; datos := []; porcentaje := 0; descargas := 0 |};
     if decide (datos i = []) then lanzar "Sin datos de API" else mret i) w.
Proof.
  intros H1 H2. unfold descargar_con_reintentos. rewrite H1, H2. simpl andb. cbv iota.
  destruct (periodo (ahora env)) as [s e]. reflexivity.
Qed.

(** C3: the retrieval of a run downloads the 31 days of its period at most
    three times, one download after the other, again only while the
    coverage of the download just made is below 70% and after a pause of 10
    seconds. The coverage and the records of the last download decide: the
    run goes on as normal iff that coverage is at least 70%, goes on with
    reduced coverage iff it is at least 50% and below 70% with records (and
    then three downloads were made), and ends with an exception, no file
    written, iff it is below 50% or there is no record. A run that goes on
    carries the records of the last download and writes the raw backup of
    them. Enough fuel gives the result when the data set behind the API is
    finite. *)
Theorem cobertura_decide_la_corrida {Poligono} (env : Entorno Poligono)
    (B : Z) (fuel : nat) (w : Mundo) :
  existe_estaciones env = true → existe_region env = true →
  api_finita env B →
  (31 ≤ fuel)%nat → (paginas_pendientes B 0 + 5 ≤ fuel)%nat →
  ∃ r w' previas ultima w_ult ps,
    descargar_con_reintentos env fuel w = Some (r, w')
    ∧ descargas_sucesivas env fuel (periodo (ahora env)).1 (periodo (ahora env)).2
        0 w (previas ++ [ultima]) w_ult
    ∧ (length previas ≤ 2)%nat
    ∧ Forall (λ rep, ¬ (70 <= success_percentage rep)%Q) previas
    ∧ let pct := success_percentage ultima in
      let n := length (all_data (descarga ultima)) in
      (¬ (70 <= pct)%Q → length previas = 2%nat)
      ∧ reportes w' = reportes w ++ (linea_reporte <$> previas) ++ [(n, pct)]
      ∧ pausas w' = pausas w ++ ps
      ∧ Forall (λ s, s = 5 ∨ s = 10) ps
      ∧ length (filter (λ s, s = 10) ps) = length previas
      ∧ (sigue_normal r ↔ (70 <= pct)%Q)
      ∧ (sigue_degradada r ↔ (50 <= pct)%Q ∧ (pct < 70)%Q ∧ (0 < n)%nat)
      ∧ (aborta r ↔ (pct < 50)%Q ∨ n = 0%nat)
      ∧ (aborta r → w' = w_ult ∧ archivos w' = archivos w)
      ∧ (∀ i, r = Ok i →
           datos i = all_data (descarga ultima) ∧ porcentaje i = pct
           ∧ guardar_respaldo (datos i) w_ult = Some (Ok (), w')).
Proof.
  intros H1 H2 Hfin H31 Hpag.
  rewrite (descargar_con_reintentos_archivos_presentes env fuel w H1 H2).
  destruct (periodo_dias (ahora env)) as [Hdias Hbloques].
  assert (Htermina : ∀ w, ∃ r w',
            obtener_datos_lluvia_masivos env fuel (periodo (ahora env)).1
              (periodo (ahora env)).2 w = Some (r, w')).
  { intros w0. apply (masivos_termina env B); try done; [lia|]. rewrite Hbloques. lia. }
  destruct (bucle_intentos_tramos env fuel _ _ Htermina Hdias Hbloques 3 0
              {| rama := None; datos := []; porcentaje := 0; descargas := 0 |} w
              eq_refl ltac:(lia))
    as (r & w' & previas & ultima & w_ult & Hb & Hc & Hl & Hf & Hlast & Hv & Hpost).
  change (max_complete_retries + 1)%nat with 3%nat.
  destruct (descargas_sucesivas_mundo env fuel _ _ 0 w _ w_ult Hc)
    as (Ha & Hr & ps & Hp & Hps & Hcount).
  rewrite fmap_app, length_app in *. simpl in Hr, Hcount, Hlast.
  set (pct := success_percentage ultima) in *.
  set (n := length (all_data (descarga ultima))) in *.
  assert (H5070 : ¬ (70 <= pct)%Q ↔ (pct < 70)%Q)
    by (split; [apply Qnot_le_lt|apply Qlt_not_le]).
  assert (H50 : ¬ (50 <= pct)%Q ↔ (pct < 50)%Q)
    by (split; [apply Qnot_le_lt|apply Qlt_not_le]).
  assert (H7050 : (70 <= pct)%Q → (50 <= pct)%Q).
  { intros H. eapply Qle_trans; [|exact H]. by vm_compute. }
  assert (Hn : n = 0%nat → ¬ (50 <= pct)%Q).
  { intros H0. apply Hv. by apply nil_length_inv. }
  assert (Hlast' : ¬ (70 <= pct)%Q → length previas = 2%nat).
  { intros Hno. specialize (Hlast Hno). unfold max_complete_retries in Hlast. lia. }
  destruct r as [i|msg].
  - (* the loop was left by [break] *)
    destruct Hpost as (Hdi & Hpi & Hg & Hrama).
    assert (Hpos : (0 < n)%nat).
    { destruct (decide (n = 0%nat)) as [H0|]; [|lia].
      destruct (Hn H0). destruct Hrama as [[_ ?]|(_ & _ & ?)]; auto. }
    assert (Hdatos : datos i ≠ []).
    { rewrite Hdi. intros Hnil. unfold n in Hpos. rewrite Hnil in Hpos. simpl in Hpos. lia. }
    destruct (guardar_respaldo_mundo (datos i) w_ult) as (w2 & Hg2 & Hr2 & Hp2 & _).
    rewrite Hg in Hg2. injection Hg2 as <-.
    exists (Ok i), w', previas, ultima, w_ult, ps. split.
    { rewrite (M_bind_Ok _ _ _ _ _ Hb). by rewrite decide_False. }
    split; [done|]. split; [lia|]. split; [done|]. cbv zeta.
    split; [done|]. split; [by rewrite Hr2, Hr|]. split; [by rewrite Hp2|].
    split; [done|]. split; [lia|]. split; [|split; [|split; [|split]]].
    + split.
      * intros (i' & [= <-] & Hr'). destruct Hrama as [[_ ?]|[Hr'' _]]; [done|congruence].
      * intros H70. exists i. split; [done|].
        destruct Hrama as [[? _]|(_ & Hno & _)]; [done|by destruct Hno].
    + split.
      * intros (i' & [= <-] & Hr').
        destruct Hrama as [[Hr'' _]|(_ & Hno & H50')]; [congruence|].
        split; [done|]. split; [by apply H5070|done].
      * intros (H50' & Hlt & _). exists i. split; [done|].
        destruct Hrama as [[_ H70]|[? _]]; [|done]. by apply H5070 in Hlt.
    + split.
      * by intros (msg & [=]).
      * intros [Hlt|Hz]; [|lia]. apply H50 in Hlt. destruct Hlt.
        destruct Hrama as [[_ ?]|(_ & _ & ?)]; auto.
    + by intros (msg & [=]).
    + by intros i' [= <-].
  - (* the last download was not enough *)
    destruct Hpost as [Hno50 ->].
    exists (Excepcion msg), w_ult, previas, ultima, w_ult, ps. split.
    { unfold mbind, M_bind. by rewrite Hb. }
    split; [done|]. split; [lia|]. split; [done|]. cbv zeta.
    split; [done|]. split; [done|]. split; [done|].
    split; [done|]. split; [lia|]. split; [|split; [|split; [|split]]].
    + split; [by intros (i & [=] & _)|]. intros H70. by destruct Hno50; apply H7050.
    + split; [by intros (i & [=] & _)|]. by intros (? & _).
    + split; [|by exists msg]. intros _. left. by apply H50.
    + done.
    + by intros i [=].
Qed.

(** The theorem at an API with one page per block and 40 units of fuel:
    one download, of 31 records and coverage 100%. *)
Lemma cobertura_decide_la_corrida_testigo :
  existe_estaciones (env_una_lectura_por_dia 43200) = true
  ∧ existe_region (env_una_lectura_por_dia 43200) = true
  ∧ api_finita (env_una_lectura_por_dia 43200) 2000
  ∧ (31 ≤ 40)%nat ∧ (paginas_pendientes 2000 0 + 5 ≤ 40)%nat
  ∧ ∃ r w' previas ultima w_ult,
      descargar_con_reintentos (env_una_lectura_por_dia 43200) 40 mundo_inicial
      = Some (r, w')
      ∧ descargas_sucesivas (env_una_lectura_por_dia 43200) 40
          (periodo 43200).1 (periodo 43200).2 0 mundo_inicial (previas ++ [ultima]) w_ult
      ∧ (length previas ≤ 2)%nat
      ∧ (sigue_normal r ↔ (70 <= success_percentage ultima)%Q).
Proof.
  assert (H3 : api_finita (env_una_lectura_por_dia 43200) 2000).
  { intros n ini fin off batch Hoff. simpl.
    rewrite decide_False by lia. by intros [= <-]. }
  assert (H4 : (31 ≤ 40)%nat) by lia.
  assert (H5 : (paginas_pendientes 2000 0 + 5 ≤ 40)%nat) by (vm_compute; lia).
  split; [reflexivity|]. split; [reflexivity|]. split; [exact H3|].
  split; [exact H4|]. split; [exact H5|].
  destruct (cobertura_decide_la_corrida (env_una_lectura_por_dia 43200) 2000 40
              mundo_inicial eq_refl eq_refl H3 H4 H5)
    as (r & w' & previas & ultima & w_ult & ps & Ha & Hb & Hc & _ & _ & _ & _ & _ & _
        & He & _).
  exists r, w', previas, ultima, w_ult.
  split; [exact Ha|]. split; [exact Hb|]. split; [exact Hc|exact He].
Defined.

(** ** The trace of a download: blocks, lost blocks, pauses *)

Lemma intentos_bloque_pausas {Poligono} (env : Entorno Poligono) n fuel ini fin rc
    w o w' :
  intentos_bloque env n fuel ini fin rc w = Some (Ok o, w') →
  ∃ k, pausas w' = pausas w ++ replicate k 5
    ∧ match o with
      | None => k = (max_retries - rc)%nat
      | Some d => (k ≤ max_retries - rc)%nat ∧ d ≠ []
      end.
Proof.
  revert rc w. induction n as [|n IH]; intros rc w; simpl.
  - case_decide; [done|]. intros [= <- <-]. exists 0%nat.
    rewrite app_nil_r. split; [done|]. lia.
  - case_decide as Hrc.
    2:{ intros [= <- <-]. exists 0%nat. rewrite app_nil_r. split; [done|]. lia. }
    intros H. apply M_bind_Some in H as [(d & w1 & Hp & H)|(msg & _ & [=])].
    apply paginas_mundo in Hp as (? & [= <-] & _ & Hp1).
    case_decide as Hlen.
    + injection H as <- <-. exists 0%nat. rewrite app_nil_r.
      split; [done|]. split; [lia|]. intros ->. simpl in Hlen. lia.
    + apply M_bind_Some in H as [([] & w2 & Hd & H)|(msg & _ & [=])].
      apply IH in H as (k & Hk & Ho).
      destruct (decide (S rc ≤ max_retries)%nat) as [Hle|Hgt].
      * injection Hd as <-. simpl in Hk. rewrite Hp1 in Hk.
        exists (S k). split; [by rewrite Hk, <- app_assoc|].
        destruct o as [d'|]; [destruct Ho; split; [lia|done]|lia].
      * injection Hd as <-. rewrite Hp1 in Hk. exists k. split; [done|].
        destruct o as [d'|]; [destruct Ho; split; [lia|done]|lia].
Qed.

Lemma bucle_bloques_traza {Poligono} (env : Entorno Poligono) n fuel cs fin d w d' w' :
  bucle_bloques env n fuel cs fin d w = Some (Ok d', w') →
  ∃ bs fs nuevos k,
    bloques d' = bloques d ++ bs
    ∧ bloques_contiguos cs fin bs
    ∧ failed_blocks d' = failed_blocks d ++ fs
    ∧ fs `sublist_of` bs
    ∧ all_data d' = all_data d ++ nuevos
    ∧ (nuevos = [] ↔ fs = bs)
    ∧ pausas w' = pausas w ++ replicate k 5
    ∧ (3 * length fs ≤ k ≤ 3 * length bs)%nat.
Proof.
  revert cs d w. induction n as [|n IH]; intros cs d w; simpl.
  - case_decide as Hlt; [done|]. intros [= <- <-]. exists [], [], [], 0%nat.
    rewrite !app_nil_r. simpl. repeat split; try done; lia.
  - case_decide as Hlt.
    2:{ intros [= <- <-]. exists [], [], [], 0%nat.
        rewrite !app_nil_r. simpl. repeat split; try done; lia. }
    intros H. apply M_bind_Some in H as [(o & w1 & Hi & H)|(msg & _ & [=])].
    pose proof (intentos_bloque_pausas _ _ _ _ _ _ _ _ _ Hi) as (k1 & Hk1 & Ho).
    apply IH in H as (bs & fs & nuevos & k & Hb & Hc & Hf & Hs & Ha & Hiff & Hp & Hk).
    set (ce := Z.min (cs + block_size * SEGUNDOS_DIA) fin) in *.
    assert (Hce : cs < ce ∧ ce ≤ fin
                  ∧ (ce = cs + SEGUNDOS_DIA ∨ (ce = fin ∧ ce < cs + SEGUNDOS_DIA))).
    { unfold ce, block_size, SEGUNDOS_DIA.
      destruct (Z.min_spec (cs + 1 * 86400) fin) as [[? ->]|[? ->]]; lia. }
    assert (Hcont : bloques_contiguos cs fin ((cs, ce) :: bs)).
    { simpl. destruct Hce as (? & ? & ?). by repeat split. }
    unfold max_retries in Ho.
    destruct o as [block_data|]; simpl in Hb, Hf, Ha.
    + destruct Ho as [Hk1' Hd].
      exists ((cs, ce) :: bs), fs, (block_data ++ nuevos), (k1 + k)%nat.
      split; [by rewrite Hb, <- app_assoc|]. split; [done|]. split; [done|].
      split; [by apply sublist_cons|]. split; [by rewrite Ha, <- app_assoc|].
      split.
      { split.
        - intros Hnil. apply app_eq_nil in Hnil as [? _]. done.
        - intros Heq. apply sublist_length in Hs. rewrite Heq in Hs. simpl in Hs. lia. }
      split; [by rewrite Hp, Hk1, <- app_assoc, replicate_add|]. simpl. lia.
    + exists ((cs, ce) :: bs), ((cs, ce) :: fs), nuevos, (k1 + k)%nat.
      split; [by rewrite Hb, <- app_assoc|]. split; [done|].
      split; [by rewrite Hf, <- app_assoc|].
      split; [by apply sublist_skip|]. split; [done|].
      split.
      { rewrite Hiff. split; [by intros ->|by intros [= ->]]. }
      split; [by rewrite Hp, Hk1, <- app_assoc, replicate_add|]. simpl. lia.
Qed.

Lemma masivos_traza {Poligono} (env : Entorno Poligono) fuel ini fin w rep w' :
  obtener_datos_lluvia_masivos env fuel ini fin w = Some (Ok rep, w') →
  ∃ k,
    bloques_contiguos ini fin (bloques (descarga rep))
    ∧ failed_blocks (descarga rep) `sublist_of` bloques (descarga rep)
    ∧ (all_data (descarga rep) = []
       ↔ failed_blocks (descarga rep) = bloques (descarga rep))
    ∧ pausas w' = pausas w ++ replicate k 5
    ∧ (3 * length (failed_blocks (descarga rep)) ≤ k
       ≤ 3 * length (bloques (descarga rep)))%nat.
Proof.
  unfold obtener_datos_lluvia_masivos. intros H.
  apply M_bind_Some in H as [(d & w1 & Hb & H)|(msg & _ & [=])].
  apply bucle_bloques_traza in Hb
    as (bs & fs & nuevos & k & Hbl & Hc & Hf & Hs & Ha & Hiff & Hp & Hk).
  simpl in Hbl, Hf, Ha. subst bs fs nuevos.
  case_decide; [done|].
  unfold mbind, M_bind, reportar in H. simpl in H. injection H as <- <-. simpl.
  exists k. split; [done|]. split; [done|]. split; [exact Hiff|].
  split; [done|]. lia.
Qed.

(** ** Blocks and requested days *)

(** In a range that is not a whole number of days, as the one of the run,
    the blocks are as many as the requested days. *)
Lemma bloques_igual_dias ini fin :
  ini < fin → (fin - ini) `mod` SEGUNDOS_DIA ≠ 0 →
  Z.of_nat (bloques_previstos ini fin) = dias_solicitados ini fin.
Proof.
  unfold bloques_previstos, dias_solicitados, SEGUNDOS_DIA. intros Hlt Hmod.
  rewrite Z2Nat.id by (apply Z.div_pos; lia).
  pose proof (Z.div_mod (fin - ini) 86400 ltac:(lia)) as Hdm.
  pose proof (Z.mod_pos_bound (fin - ini) 86400 ltac:(lia)) as Hb.
  symmetry. apply (Z.div_unique _ _ _ ((fin - ini) `mod` 86400 - 1)); lia.
Qed.

(** The range of every run is of that kind. *)
Lemma periodo_no_entero now :
  (periodo now).1 < (periodo now).2
  ∧ ((periodo now).2 - (periodo now).1) `mod` SEGUNDOS_DIA ≠ 0.
Proof.
  pose proof (periodo_duracion now) as H. rewrite H.
  unfold days_back, SEGUNDOS_DIA in *. split; [lia|]. by vm_compute.
Qed.

(** C4: for every requested range that is not a whole number of days, as
    the ranges the run requests are (from 00:00:00 of a date to 23:59:59 of
    a date), the one-day blocks that a download schedules are as many as the
    days it reports as requested; they follow one another from the start to
    the end of the range, the lost blocks are among them, and the coverage
    reported is (requested days - days of the lost blocks) / requested days
    * 100, a lost block counting for one day. With a finite data set behind
    the API and enough fuel the download gives its report. *)
Theorem un_bloque_por_dia_solicitado {Poligono} (env : Entorno Poligono)
    (fuel : nat) (ini fin : Z) (w : Mundo) :
  ini < fin → (fin - ini) `mod` SEGUNDOS_DIA ≠ 0 →
  (∀ r w', obtener_datos_lluvia_masivos env fuel ini fin w = Some (r, w') →
     ∃ rep, r = Ok rep
       ∧ total_days rep = dias_solicitados ini fin
       ∧ Z.of_nat (length (bloques (descarga rep))) = total_days rep
       ∧ bloques_contiguos ini fin (bloques (descarga rep))
       ∧ failed_blocks (descarga rep) `sublist_of` bloques (descarga rep)
       ∧ failed_days rep = Z.of_nat (length (failed_blocks (descarga rep)))
       ∧ success_percentage rep
         = (inject_Z (total_days rep - failed_days rep) / inject_Z (total_days rep)
            * 100)%Q
       ∧ reportes w' = reportes w ++ [(length (all_data (descarga rep)),
                                       success_percentage rep)])
  ∧ (∀ B, api_finita env B →
       (paginas_pendientes B 0 + 5 ≤ fuel)%nat → (4 ≤ fuel)%nat →
       (bloques_previstos ini fin ≤ fuel)%nat →
       ∃ r w', obtener_datos_lluvia_masivos env fuel ini fin w = Some (r, w')).
Proof.
  intros Hlt Hmod. split.
  - intros r w' H. pose proof (bloques_igual_dias ini fin Hlt Hmod) as Hbd.
    pose proof (masivos_mundo _ _ _ _ _ _ _ H) as Hm.
    destruct r as [rep|msg].
    2:{ destruct Hm as [Hz _]. rewrite <- Hbd in Hz.
        assert (bloques_previstos ini fin = 0%nat) as H0 by lia.
        pose proof (bloques_previstos_S ini fin Hlt). lia. }
    destruct (masivos_traza _ _ _ _ _ _ _ H) as (k & Hcont & Hsub & _).
    destruct Hm as (Ht & _ & Hf & Hp & Hl & _ & _ & _ & Hr & _).
    exists rep. split; [done|]. split; [done|]. split; [by rewrite Hl, Hbd, Ht|].
    split; [done|]. split; [done|]. split; [done|]. split; [exact Hp|exact Hr].
  - intros B Hfin Hpag H4 Hb. by apply (masivos_termina env B).
Qed.

(** The theorem at the period of a run at noon of date 0 and an API with
    one reading per block: 31 blocks, 31 days, none lost. *)
Lemma un_bloque_por_dia_solicitado_testigo :
  (periodo 43200).1 < (periodo 43200).2
  ∧ ((periodo 43200).2 - (periodo 43200).1) `mod` SEGUNDOS_DIA ≠ 0
  ∧ ∃ rep w',
      obtener_datos_lluvia_masivos (env_una_lectura_por_dia 43200) 40
        (periodo 43200).1 (periodo 43200).2 mundo_inicial = Some (Ok rep, w')
      ∧ total_days rep = 31
      ∧ Z.of_nat (length (bloques (descarga rep))) = total_days rep
      ∧ failed_days rep = 0.
Proof.
  destruct (periodo_no_entero 43200) as [H1 H2].
  split; [exact H1|]. split; [exact H2|].
  assert (H : obtener_datos_lluvia_masivos (env_una_lectura_por_dia 43200) 40
                (periodo 43200).1 (periodo 43200).2 mundo_inicial = Some (Ok _, _))
    by (vm_compute; reflexivity).
  eexists _, _. split; [exact H|].
  destruct (proj1 (un_bloque_por_dia_solicitado (env_una_lectura_por_dia 43200) 40
                     _ _ mundo_inicial H1 H2) _ _ H)
    as (rep & Heq & _ & Hb & _).
  injection Heq as <-. split; [reflexivity|]. split; [exact Hb|reflexivity].
Defined.

(** Outside that hypothesis, on a range of a whole number of days, which
    no run requests: from 00:00:00 of a date to 00:00:00 of the next, one
    block is scheduled and two days are counted, the range being read as
    one of closed ends; when the block brings records the coverage is 100%,
    and when it is lost the coverage is 50%. *)
Lemma un_bloque_dos_dias :
  (∃ rep w', obtener_datos_lluvia_masivos (env_una_lectura_por_dia 0) 10 0 86400
               mundo_inicial = Some (Ok rep, w')
     ∧ bloques (descarga rep) = [(0, 86400)]
     ∧ failed_blocks (descarga rep) = []
     ∧ total_days rep = 2
     ∧ Qeq (success_percentage rep) 100)
  ∧ (∃ rep w', obtener_datos_lluvia_masivos env_sin_datos 10 0 86400
                 mundo_inicial = Some (Ok rep, w')
       ∧ bloques (descarga rep) = [(0, 86400)]
       ∧ failed_blocks (descarga rep) = [(0, 86400)]
       ∧ all_data (descarga rep) = []
       ∧ total_days rep = 2
       ∧ Qeq (success_percentage rep) 50).
Proof.
  split; eexists _, _; (split; [vm_compute; reflexivity|]); repeat split.
Qed.

(** ** The files of a run *)

Lemma bucle_intentos_archivos {Poligono} (env : Entorno Poligono) fuel l ini fin prev
    w r w' :
  bucle_intentos env fuel l ini fin prev w = Some (r, w') →
  archivos w' = archivos w ∨ ∃ f, archivos w' = archivos w ++ [RAW_lluvia_backup f].
Proof.
  revert prev w. induction l as [|a l IH]; intros prev w.
  - intros [= <- <-]. by left.
  - cbn [bucle_intentos]. intros H.
    destruct (pausa_reintento a w) as (w0 & Hw0 & Ha0 & _).
    rewrite (M_bind_Ok _ _ _ _ _ Hw0) in H.
    apply M_bind_Some in H as [(rep & w1 & Hm & H)|(msg & Hm & _)].
    2:{ apply masivos_mundo in Hm as [_ (Ha & _)]. left. congruence. }
    apply masivos_mundo in Hm as (_ & _ & _ & _ & _ & _ & _ & Ha1 & _).
    cbv zeta in H.
    assert (Hresp : ∀ (i : Intentos),
              (guardar_respaldo (all_data (descarga rep));; mret i) w1 = Some (r, w') →
              archivos w' = archivos w
              ∨ ∃ f, archivos w' = archivos w ++ [RAW_lluvia_backup f]).
    { intros i Hg.
      destruct (guardar_respaldo_mundo (all_data (descarga rep)) w1)
        as (w2 & Hg2 & _ & _ & Ha2).
      rewrite (M_bind_Ok _ _ _ _ _ Hg2) in Hg. injection Hg as <- <-.
      rewrite Ha1, Ha0 in Ha2. exact Ha2. }
    destruct (Qle_bool min_coverage (success_percentage rep)); [by eapply Hresp|].
    destruct (decide (a < max_complete_retries)%nat).
    + apply IH in H. rewrite Ha1, Ha0 in H. exact H.
    + destruct (Qle_bool 50 (success_percentage rep) && _); [by eapply Hresp|].
      injection H as <- <-. left. congruence.
Qed.

Lemma descargar_con_reintentos_archivos {Poligono} (env : Entorno Poligono) fuel w r w' :
  descargar_con_reintentos env fuel w = Some (r, w') →
  archivos w' = archivos w ∨ ∃ f, archivos w' = archivos w ++ [RAW_lluvia_backup f].
Proof.
  unfold descargar_con_reintentos. intros H.
  destruct (existe_estaciones env && existe_region env).
  2:{ injection H as <- <-. by left. }
  rewrite (M_bind_Ok (A := unit) _ _ w () w eq_refl) in H.
  destruct (periodo (ahora env)) as [s e].
  apply M_bind_Some in H as [(i & w1 & Hb & H)|(msg & Hb & _)].
  - apply bucle_intentos_archivos in Hb.
    case_decide; injection H as <- <-; exact Hb.
  - by apply bucle_intentos_archivos in Hb.
Qed.

Lemma procesar_datos_completos_archivos {Poligono} within (env : Entorno Poligono)
    fuel w r w' :
  procesar_datos_completos within env fuel w = Some (r, w') →
  archivos w' = archivos w ∨ ∃ f, archivos w' = archivos w ++ [RAW_lluvia_backup f].
Proof.
  unfold procesar_datos_completos. intros H.
  apply M_bind_Some in H as [(i & w1 & Hd & H)|(msg & Hd & _)].
  2:{ by apply descargar_con_reintentos_archivos in Hd. }
  apply descargar_con_reintentos_archivos in Hd.
  cbv zeta in H. cbn [filas] in H.
  destruct (max_fecha _); [|by injection H as <- <-].
  unfold mbind, M_bind, de_resultado in H.
  destruct (filtrar_region_andina within env _); injection H as <- <-; exact Hd.
Qed.

(** C8, as amended: a run that ends with an error has written none of the
    files of the feature table (dated table, latest copy, summary); the one
    file it can have written is the raw backup, written as soon as the
    retrieval is accepted, before the quality control. A run that ends
    well has written the three files of the table, in that order, last. *)
Theorem corrida_abortada_sin_tabla {Poligono} (within : list Poligono → Q → Q → bool)
    (env : Entorno Poligono) (fuel : nat) (w w' : Mundo) (codigo_salida : Z) :
  main within env fuel w = Some (codigo_salida, w') →
  ∃ nuevos, archivos w' = archivos w ++ nuevos
    ∧ (codigo_salida = 1 →
       Forall (λ f, ¬ es_de_la_tabla f) nuevos
       ∧ (nuevos = [] ∨ ∃ f, nuevos = [RAW_lluvia_backup f]))
    ∧ (codigo_salida = 0 →
       ∃ respaldo d, nuevos = respaldo ++ [lluvia_30d d; lluvia_procesada_latest;
                                          resumen_lluvia]
         ∧ (respaldo = [] ∨ ∃ f, respaldo = [RAW_lluvia_backup f]))
    ∧ (codigo_salida = 0 ∨ codigo_salida = 1).
Proof.
  unfold main. intros H.
  destruct ((procesar_datos_completos within env fuel ≫= guardar_resultados) w)
    as [[r w2]|] eqn:Hrun; [|done].
  assert (Hraw : ∀ w1, (archivos w1 = archivos w
                        ∨ ∃ f, archivos w1 = archivos w ++ [RAW_lluvia_backup f]) →
            ∃ nuevos, archivos w1 = archivos w ++ nuevos
              ∧ Forall (λ f, ¬ es_de_la_tabla f) nuevos
              ∧ (nuevos = [] ∨ ∃ f, nuevos = [RAW_lluvia_backup f])).
  { intros w1 [Ha|[f Ha]].
    - exists []. rewrite app_nil_r. split; [done|]. split; [constructor|by left].
    - exists [RAW_lluvia_backup f]. split; [done|].
      split; [apply Forall_singleton; simpl; tauto|]. right. by exists f. }
  apply M_bind_Some in Hrun as [(df & w1 & Hp & Hg)|(msg & Hp & ->)].
  - apply procesar_datos_completos_archivos in Hp.
    destruct (Hraw w1 Hp) as (nuevos & Ha & Hf & Hn).
    unfold guardar_resultados in Hg.
    destruct (head df) as [fila0|].
    2:{ injection Hg as <- <-. injection H as <- <-. exists nuevos.
        split; [done|]. split; [done|]. split; [done|by right]. }
    destruct (data fila0) as [d|].
    2:{ injection Hg as <- <-. injection H as <- <-. exists nuevos.
        split; [done|]. split; [done|]. split; [done|by right]. }
    unfold mbind, M_bind, escribir in Hg. simpl in Hg. injection Hg as <- <-.
    injection H as <- <-. simpl.
    exists (nuevos ++ [lluvia_30d d; lluvia_procesada_latest; resumen_lluvia]).
    split; [by rewrite Ha, <- !app_assoc|]. split; [done|].
    split; [|by left]. intros _. by exists nuevos, d.
  - apply procesar_datos_completos_archivos in Hp.
    destruct (Hraw w2 Hp) as (nuevos & Ha & Hf & Hn).
    injection H as <- <-. exists nuevos.
    split; [done|]. split; [done|]. split; [done|by right].
Qed.

(** The theorem at the run in which no station passes the quality
    control. *)
Lemma corrida_abortada_sin_tabla_testigo :
  main (λ _ _ _, true) env_dos_mitades 40 mundo_inicial
  = Some (1, {| llamadas := 62; pausas := []; reportes := [(31%nat, (3100 # 31)%Q)];
                archivos := [RAW_lluvia_backup 30] |})
  ∧ ∃ nuevos, [RAW_lluvia_backup 30] = archivos mundo_inicial ++ nuevos
      ∧ Forall (λ f, ¬ es_de_la_tabla f) nuevos.
Proof.
  assert (H : main (λ _ _ _, true) env_dos_mitades 40 mundo_inicial
              = Some (1, {| llamadas := 62; pausas := [];
                            reportes := [(31%nat, (3100 # 31)%Q)];
                            archivos := [RAW_lluvia_backup 30] |}))
    by (vm_compute; reflexivity).
  split; [exact H|].
  destruct (corrida_abortada_sin_tabla _ _ _ _ _ _ H) as (nuevos & Ha & Hb & _).
  exists nuevos. split; [exact Ha|]. exact (proj1 (Hb eq_refl)).
Defined.

(** C8 as stated fails: in a run whose download is complete (coverage
    100%) and in which no station passes the quality control, the run ends
    with an error after it has written the raw backup to the output
    directory. *)
Lemma corrida_abortada_deja_respaldo :
  ∃ w', procesar_datos_completos (λ _ _ _, true) env_dos_mitades 40 mundo_inicial
        = Some (Excepcion "Sin datos después de control de calidad", w')
    ∧ main (λ _ _ _, true) env_dos_mitades 40 mundo_inicial = Some (1, w')
    ∧ archivos w' = [RAW_lluvia_backup 30]
    ∧ archivos w' ≠ [].
Proof.
  eexists. split; [vm_compute; reflexivity|]. split; [vm_compute; reflexivity|].
  split; [reflexivity|done].
Qed.

(** * Further properties of the code *)

(** ** The period of the query *)

(** X1: the query of a run covers 31 calendar dates: it starts at midnight
    30 dates before today, ends one second before the next midnight of
    today and holds the instant of the run; it is split in 31 blocks and
    counted as 31 requested days. *)
Theorem periodo_treinta_y_un_dias (now : Z) :
  (periodo now).1 ≤ now ≤ (periodo now).2
  ∧ (periodo now).1 = (fecha_de now - 30) * SEGUNDOS_DIA
  ∧ (periodo now).2 = fecha_de now * SEGUNDOS_DIA + (SEGUNDOS_DIA - 1)
  ∧ fecha_de (periodo now).1 = fecha_de now - 30
  ∧ fecha_de (periodo now).2 = fecha_de now
  ∧ dias_solicitados (periodo now).1 (periodo now).2 = 31
  ∧ bloques_previstos (periodo now).1 (periodo now).2 = 31%nat.
Proof.
  pose proof (periodo_dias now) as [Hd Hb].
  assert (H1 : (periodo now).1 = (fecha_de now - 30) * SEGUNDOS_DIA).
  { unfold periodo, fecha_de, days_back, SEGUNDOS_DIA. simpl fst.
    replace (now `div` 86400 * 86400 + 86399 - 30 * 86400)
      with (86399 + (now `div` 86400 - 30) * 86400) by lia.
    rewrite Z.div_add by lia. change (86399 `div` 86400) with 0. lia. }
  assert (H2 : (periodo now).2 = fecha_de now * SEGUNDOS_DIA + (SEGUNDOS_DIA - 1))
    by reflexivity.
  pose proof (Z.div_mod now 86400 ltac:(lia)) as Hdm.
  pose proof (Z.mod_pos_bound now 86400 ltac:(lia)) as Hmb.
  split; [|split; [exact H1|split; [exact H2|split; [|split; [|done]]]]].
  - rewrite H1, H2. unfold fecha_de, SEGUNDOS_DIA. lia.
  - rewrite H1. unfold fecha_de, SEGUNDOS_DIA. apply Z.div_mul. lia.
  - rewrite H2. unfold fecha_de, SEGUNDOS_DIA.
    symmetry. apply (Z.div_unique _ _ _ 86399); lia.
Qed.

(** ** Missing input files *)

(** X2: when one of the two shapefiles is missing the run ends with exit
    code 1 before anything happens: no request is sent, no pause is taken,
    nothing is logged as a report and no file is written. *)
Theorem main_sin_archivos_de_entrada {Poligono} (within : list Poligono → Q → Q → bool)
    (env : Entorno Poligono) (fuel : nat) (w : Mundo) :
  existe_estaciones env = false ∨ existe_region env = false →
  main within env fuel w = Some (1, w).
Proof.
  intros H. unfold main, procesar_datos_completos, descargar_con_reintentos.
  assert (existe_estaciones env && existe_region env = false) as ->.
  { destruct H as [-> | ->]; [done|]. by destruct (existe_estaciones env). }
  reflexivity.
Qed.

(** The theorem at an environment without the stations shapefile, whose
    API would never stop giving records. *)
Lemma main_sin_archivos_de_entrada_testigo :
  (existe_estaciones env_sin_estaciones = false
   ∨ existe_region env_sin_estaciones = false)
  ∧ main within_alguno env_sin_estaciones 0 mundo_inicial = Some (1, mundo_inicial).
Proof.
  assert (H : existe_estaciones env_sin_estaciones = false
              ∨ existe_region env_sin_estaciones = false) by (left; reflexivity).
  split; [exact H|].
  exact (main_sin_archivos_de_entrada within_alguno env_sin_estaciones 0 mundo_inicial H).
Defined.

(** ** Quality control: errors, whole stations, consistent names *)

(** X3: the quality control raises exactly when the coverage rule leaves
    no row, that is when every station of the frame (none, for the empty
    frame) has fewer distinct dates than the threshold; the message is then
    that of the emptiness check, the check of the final date never fails. *)
Theorem control_calidad_excepcion (existe : bool) (shape : option (list Estacion))
    (df : list LluviaDiaria) (msg : string) :
  control_calidad_datos existe shape df = Excepcion msg ↔
  msg = "Sin datos después de control de calidad"
  ∧ ∀ r, r ∈ df →
      (nunique (fecha <$> grupo (codigoestacion r) df) < umbral_minimo_dias df)%nat.
Proof.
  unfold control_calidad_datos.
  destruct (decide (df_lluvia_completo df = [])) as [Hnil|Hne].
  - split.
    + intros [= <-]. split; [done|]. intros r Hr.
      destruct (decide (umbral_minimo_dias df
                        ≤ nunique (fecha <$> grupo (codigoestacion r) df))%nat); [|lia].
      assert (Hin : r ∈ df_lluvia_completo df)
        by (by apply df_lluvia_completo_elem_of).
      rewrite Hnil in Hin. by apply elem_of_nil in Hin.
    + by intros [-> _].
  - destruct (max_fecha (fecha <$> df_lluvia_completo df)) as [ff|] eqn:Hff.
    + split; [by case_decide|]. intros [_ Hall].
      destruct (df_lluvia_completo df) as [|r l] eqn:E; [done|].
      assert (Hr : r ∈ df_lluvia_completo df) by (rewrite E; left).
      apply df_lluvia_completo_elem_of in Hr as [Hr Hle]. specialize (Hall r Hr). lia.
    + destruct (df_lluvia_completo df); [done|]. simpl in Hff. done.
Qed.

Lemma grupo_datos_fila e df1 df2 :
  datos_fila <$> df1 = datos_fila <$> df2 →
  datos_fila <$> grupo e df1 = datos_fila <$> grupo e df2.
Proof.
  revert df2. induction df1 as [|r1 df1 IH]; intros [|r2 df2]; try done.
  rewrite !fmap_cons. intros [= Hc Hf Hl Hrest]. unfold grupo in *.
  rewrite !filter_cons, <- Hc.
  case_decide; rewrite ?fmap_cons; [|by apply IH].
  unfold datos_fila at 1 3. rewrite Hc, Hf, Hl. f_equal. by apply IH.
Qed.

(** X4: the quality control keeps or drops whole stations: of every
    station, the output holds either no row or all the rows the station has
    in the input, in the same order, with the same date and value. *)
Theorem control_calidad_estaciones_enteras (existe : bool)
    (shape : option (list Estacion)) (df out : list LluviaDiaria) (e : string) :
  control_calidad_datos existe shape df = Ok out →
  grupo e out = [] ∨ datos_fila <$> grupo e out = datos_fila <$> grupo e df.
Proof.
  intros Hout. apply control_calidad_datos_Ok in Hout as (ff & Hff & Hout).
  simpl in Hout.
  set (filtrado := df_lluvia_filtrado ff (df_lluvia_completo df)) in *.
  assert (Hd : datos_fila <$> grupo e out = datos_fila <$> grupo e filtrado).
  { apply grupo_datos_fila. rewrite Hout. apply corregir_datos_fila. }
  assert (Hf : grupo e filtrado = [] ∨ grupo e filtrado = grupo e df).
  { unfold filtrado, df_lluvia_filtrado. rewrite grupo_filter_notin.
    case_decide; [|by left].
    unfold df_lluvia_completo. rewrite grupo_filter_notin.
    case_decide; [by right|by left]. }
  destruct Hf as [Hf|Hf]; rewrite Hf in Hd; [left|by right].
  by apply fmap_nil_inv in Hd.
Qed.

(** The theorem at the frame of stations X and Y: both are kept whole. *)
Lemma control_calidad_estaciones_enteras_testigo :
  control_calidad_datos true None df_X_calla = Ok df_X_calla
  ∧ (grupo "X" df_X_calla = []
     ∨ datos_fila <$> grupo "X" df_X_calla = datos_fila <$> grupo "X" df_X_calla).
Proof.
  assert (H : control_calidad_datos true None df_X_calla = Ok df_X_calla)
    by (vm_compute; reflexivity).
  split; [exact H|].
  exact (control_calidad_estaciones_enteras true None df_X_calla df_X_calla "X" H).
Defined.

Lemma grupo_fmap_codigo (h : LluviaDiaria → LluviaDiaria) e df :
  (∀ r, codigoestacion (h r) = codigoestacion r) →
  grupo e (h <$> df) = h <$> grupo e df.
Proof.
  intros Hh. unfold grupo. induction df as [|r df IH]; [done|].
  rewrite fmap_cons, !filter_cons, Hh. case_decide; by rewrite ?fmap_cons, IH.
Qed.

Lemma nunique_constante `{EqDecision A} (l : list A) (v : A) :
  (∀ x, x ∈ l → x = v) → (nunique l ≤ 1)%nat.
Proof.
  intros Hl. unfold nunique.
  assert (Hsub : remove_dups l ⊆ [v]).
  { intros x Hx. rewrite (Hl x (proj1 (elem_of_remove_dups l x) Hx)). left. }
  pose proof (NoDup_remove_dups l) as Hnd.
  destruct (remove_dups l) as [|a [|b l']]; simpl; [lia|lia|].
  apply NoDup_cons in Hnd as [Hab _].
  assert (a = v) by (by apply list_elem_of_singleton, Hsub; left).
  assert (b = v) by (by apply list_elem_of_singleton, Hsub; right; left).
  destruct Hab. subst. left.
Qed.

(** X5: when the stations shapefile is read, no station of the output of
    the quality control has two municipalities or two departments: the
    rows of a station found inconsistent all carry the value of the
    shapefile, or all NaN. *)
Theorem control_calidad_sin_inconsistencias (shp : list Estacion)
    (df out : list LluviaDiaria) :
  control_calidad_datos true (Some shp) df = Ok out →
  codigos_inconsistentes out = [].
Proof.
  intros Hout. apply control_calidad_datos_Ok in Hout as (ff & Hff & Hout).
  simpl in Hout.
  set (filtrado := df_lluvia_filtrado ff (df_lluvia_completo df)) in *.
  set (codigos := codigos_inconsistentes filtrado) in *.
  set (h := λ r, if decide (codigoestacion r ∈ codigos)
                 then {| codigoestacion := codigoestacion r; fecha := fecha r;
                         municipio := map_dict (dict_def mpio_def shp) (codigoestacion r);
                         departamento := map_dict (dict_def depto_def shp)
                                           (codigoestacion r);
                         lluvia_diaria := lluvia_diaria r |}
                 else r).
  assert (Hh : out = h <$> filtrado) by (by rewrite Hout).
  assert (Hcod : ∀ r, codigoestacion (h r) = codigoestacion r)
    by (intros r; unfold h; by case_decide).
  unfold codigos_inconsistentes at 1. apply filter_nil_Forall, Forall_forall.
  intros e He. rewrite Hh, (grupo_fmap_codigo h e filtrado Hcod).
  destruct (decide (e ∈ codigos)) as [Hin|Hnin].
  - intros [Hm|Hd].
    + assert (nunique (omap municipio (h <$> grupo e filtrado)) ≤ 1)%nat; [|lia].
      apply (nunique_constante _ (default "" (map_dict (dict_def mpio_def shp) e))).
      intros x (r' & (r & -> & Hr)%list_elem_of_fmap & Hx)%list_elem_of_omap.
      apply grupo_elem_of in Hr as [_ Hce]. unfold h in Hx.
      rewrite decide_True in Hx by (by rewrite Hce). simpl in Hx.
      rewrite Hce in Hx. by rewrite Hx.
    + assert (nunique (omap departamento (h <$> grupo e filtrado)) ≤ 1)%nat; [|lia].
      apply (nunique_constante _ (default "" (map_dict (dict_def depto_def shp) e))).
      intros x (r' & (r & -> & Hr)%list_elem_of_fmap & Hx)%list_elem_of_omap.
      apply grupo_elem_of in Hr as [_ Hce]. unfold h in Hx.
      rewrite decide_True in Hx by (by rewrite Hce). simpl in Hx.
      rewrite Hce in Hx. by rewrite Hx.
  - assert (Hid : h <$> grupo e filtrado = grupo e filtrado).
    { rewrite <- (list_fmap_id (grupo e filtrado)) at 2. apply list_fmap_ext.
      intros i r Hr. apply list_elem_of_lookup_2, grupo_elem_of in Hr as [_ Hce].
      unfold h. rewrite decide_False; [done|]. by rewrite Hce. }
    rewrite Hid. intros Hinc. apply Hnin. unfold codigos, codigos_inconsistentes.
    apply list_elem_of_filter. split; [done|].
    apply estaciones_elem_of. apply estaciones_elem_of in He.
    rewrite Hh, <- list_fmap_compose in He.
    apply list_elem_of_fmap in He as (r & -> & Hr). simpl. rewrite Hcod.
    by apply list_elem_of_fmap_2.
Qed.

(** The theorem at the frame with the two spellings of a municipality. *)
Lemma control_calidad_sin_inconsistencias_testigo :
  control_calidad_datos true (Some shape_solo_B) df_inconsistente = Ok df_reconciliado
  ∧ codigos_inconsistentes df_reconciliado = [].
Proof.
  assert (H : control_calidad_datos true (Some shape_solo_B) df_inconsistente
              = Ok df_reconciliado) by (vm_compute; reflexivity).
  split; [exact H|].
  exact (control_calidad_sin_inconsistencias shape_solo_B df_inconsistente
           df_reconciliado H).
Defined.

(** ** The model table: errors, completeness, order *)

Lemma max_fecha_None l : max_fecha l = None ↔ l = [].
Proof. by destruct l. Qed.

Lemma indice_no_vacio df ff : max_fecha (fecha <$> df) = Some ff → indice ff df ≠ [].
Proof.
  intros Hff. pose proof (max_fecha_Some _ _ Hff) as [Hin _].
  apply list_elem_of_fmap in Hin as (r & Hfr & Hr).
  assert (He : codigoestacion r ∈ indice ff df).
  { apply indice_elem_of. split.
    - apply estaciones_elem_of. by apply list_elem_of_fmap_2.
    - intros Hnil.
      assert (Hd : r ∈ datos_est ff (grupo (codigoestacion r) df)).
      { apply datos_est_elem_of. split; [by apply grupo_elem_of|lia]. }
      rewrite Hnil in Hd. by apply elem_of_nil in Hd. }
  intros Hnil. rewrite Hnil in He. by apply elem_of_nil in He.
Qed.

Lemma fila_esperada_indice df ff (l : list string) :
  (∀ e, e ∈ l → datos_est ff (grupo e df) ≠ []) →
  fm_codigoestacion <$> omap (fila_esperada ff df) l = l.
Proof.
  induction l as [|e l IH]; intros Hl; [done|].
  change (omap ?f (e :: l))
    with (match f e with Some y => y :: omap f l | None => omap f l end).
  unfold fila_esperada at 1.
  destruct (datos_est ff (grupo e df)) as [|dia0 resto] eqn:E.
  - by destruct (Hl e ltac:(left)).
  - rewrite fmap_cons. simpl. f_equal. apply IH. intros e' He'. apply Hl. by right.
Qed.

(** X6: the feature builder raises only on a frame without rows, with
    the message of its emptiness check; on any other frame it gives a table
    with at least one row in which every row has a date and a number in each
    of the six rainfall columns (no NaN, no NaT). *)
Theorem generar_formato_modelo_resultado (df : list LluviaDiaria) :
  (∀ msg, generar_formato_modelo df = Excepcion msg ↔
          df = [] ∧ msg = "Sin datos para modelo")
  ∧ (∀ tabla, generar_formato_modelo df = Ok tabla →
       df ≠ [] ∧ tabla ≠ [] ∧ ∀ f, f ∈ tabla → fila_completa f).
Proof.
  destruct df as [|r df].
  - split; [|done]. intros msg. split; [by intros [= <-]|by intros [_ ->]].
  - destruct (max_fecha (fecha <$> r :: df)) as [ff|] eqn:Hff; [|done].
    pose proof (generar_formato_modelo_Ok _ _ Hff) as Hg. rewrite Hg. split.
    + intros msg. split; [done|by intros [? _]].
    + intros tabla [= <-]. split; [done|]. split.
      * intros Hnil. apply (indice_no_vacio _ _ Hff).
        rewrite <- (fila_esperada_indice (r :: df) ff (indice ff (r :: df)))
          by (intros e He; by apply indice_elem_of in He as [_ ?]).
        by rewrite Hnil.
      * intros f Hf.
        apply (generar_formato_modelo_elem_of _ ff _ _ Hff Hg) in Hf
          as (e & dia0 & resto & _ & _ & ->).
        unfold fila_completa. simpl. by repeat split.
Qed.

(** X7: the model table lists the stations in ascending order of their
    codes, each once: the row written first is that of the least code. *)
Theorem generar_formato_modelo_ordenado (df : list LluviaDiaria)
    (tabla : list FilaModelo) :
  generar_formato_modelo df = Ok tabla →
  Sorted str_le (fm_codigoestacion <$> tabla)
  ∧ NoDup (fm_codigoestacion <$> tabla).
Proof.
  intros Hg.
  destruct (max_fecha (fecha <$> df)) as [ff|] eqn:Hff.
  - split; [|by apply (generar_formato_modelo_NoDup df ff)].
    rewrite (generar_formato_modelo_Ok _ _ Hff) in Hg. injection Hg as <-.
    rewrite fila_esperada_indice
      by (intros e He; by apply indice_elem_of in He as [_ ?]).
    unfold indice. apply Sorted_merge_sort, _.
  - apply max_fecha_None, fmap_nil_inv in Hff. by subst df.
Qed.

(** The theorem at the frame of stations X and Y. *)
Lemma generar_formato_modelo_ordenado_testigo :
  (∃ tabla, generar_formato_modelo df_X_calla = Ok tabla
     ∧ Sorted str_le (fm_codigoestacion <$> tabla)
     ∧ NoDup (fm_codigoestacion <$> tabla)).
Proof.
  assert (H : generar_formato_modelo df_X_calla
              = Ok (omap (fila_esperada 30 df_X_calla) (indice 30 df_X_calla)))
    by (apply generar_formato_modelo_Ok; vm_compute; reflexivity).
  eexists. split; [exact H|].
  exact (generar_formato_modelo_ordenado df_X_calla _ H).
Defined.

(** ** The accumulations: sign, rows of the window *)

Lemma foldl_Qplus (a : Q) (l : list Q) : (foldl Qplus a l == a + suma l)%Q.
Proof.
  unfold suma. revert a. induction l as [|x l IH]; intros a; simpl.
  - ring.
  - rewrite (IH (a + x)%Q), (IH (0 + x)%Q). ring.
Qed.

Lemma suma_cons (x : Q) (l : list Q) : (suma (x :: l) == x + suma l)%Q.
Proof. unfold suma at 1. simpl. rewrite foldl_Qplus. ring. Qed.

Lemma suma_no_negativa (l : list Q) : Forall (λ x, (0 <= x)%Q) l → (0 <= suma l)%Q.
Proof.
  induction 1 as [|x l Hx _ IH]; [by vm_compute|].
  rewrite suma_cons. replace 0%Q with (0 + 0)%Q by reflexivity.
  by apply Qplus_le_compat.
Qed.

(** X8: when no daily total of the frame is negative, no column of the
    model table is negative: neither the daily rain nor any of the five
    accumulations. *)
Theorem acumulados_no_negativos (df : list LluviaDiaria)
    (tabla : list FilaModelo) (f : FilaModelo) :
  Forall (λ r, (0 <= lluvia_diaria r)%Q) df →
  generar_formato_modelo df = Ok tabla →
  f ∈ tabla →
  ∃ a0 a1 a2 a3 a15 a30,
    daily_rain f = Some a0 ∧ rain_ant_1 f = Some a1 ∧ rain_ant_2 f = Some a2
    ∧ rain_ant_3 f = Some a3 ∧ rain_ant_15 f = Some a15 ∧ rain_ant_30 f = Some a30
    ∧ (0 <= a0)%Q ∧ (0 <= a1)%Q ∧ (0 <= a2)%Q ∧ (0 <= a3)%Q
    ∧ (0 <= a15)%Q ∧ (0 <= a30)%Q.
Proof.
  intros Hpos Hg Hf.
  destruct (max_fecha (fecha <$> df)) as [ff|] eqn:Hff.
  2:{ apply max_fecha_None, fmap_nil_inv in Hff. by subst df. }
  destruct (proj1 (generar_formato_modelo_elem_of _ ff _ _ Hff Hg) Hf)
    as (e & dia0 & resto & _ & E & Hfeq).
  subst f.
  assert (Hsub : ∀ r, r ∈ dia0 :: resto → (0 <= lluvia_diaria r)%Q).
  { intros r Hr. rewrite <- E in Hr. apply datos_est_elem_of in Hr as [Hr _].
    apply grupo_elem_of in Hr as [Hr _]. rewrite Forall_forall in Hpos. by apply Hpos. }
  assert (Hresto : Forall (λ x, (0 <= x)%Q) (lluvia_diaria <$> resto)).
  { apply Forall_fmap, Forall_forall. intros r Hr. apply Hsub. by right. }
  eexists _, _, _, _, _, _. simpl.
  do 6 (split; [reflexivity|]).
  split; [apply Hsub; left|].
  rewrite !fmap_take.
  repeat split; apply suma_no_negativa; by apply Forall_take.
Qed.

(** The theorem at the scenario of the four days. *)
Lemma acumulados_no_negativos_testigo :
  Forall (λ r, (0 <= lluvia_diaria r)%Q) df_cuatro_dias
  ∧ (∃ f, generar_formato_modelo df_cuatro_dias = Ok [f]
       ∧ ∃ a1 a30, rain_ant_1 f = Some a1 ∧ rain_ant_30 f = Some a30
           ∧ (0 <= a1)%Q ∧ (0 <= a30)%Q).
Proof.
  assert (H1 : Forall (λ r, (0 <= lluvia_diaria r)%Q) df_cuatro_dias)
    by (repeat constructor; by vm_compute).
  assert (H2 : generar_formato_modelo df_cuatro_dias = Ok [_])
    by (vm_compute; reflexivity).
  split; [exact H1|]. eexists. split; [exact H2|].
  destruct (acumulados_no_negativos df_cuatro_dias _ _ H1 H2 ltac:(left))
    as (a0 & a1 & a2 & a3 & a15 & a30 & _ & Hb & _ & _ & _ & Hc & _ & Hd & _ & _
        & _ & Hh).
  exists a1, a30. split; [exact Hb|]. split; [exact Hc|]. split; [exact Hd|exact Hh].
Defined.

(** X9: for a station with one row per date, the window holds at most 30
    rows, all dated in the 30 days that end at the final date of the frame:
    the 30-day column sums every row of the window but day 0, at most 29
    daily totals. *)
Theorem acumulado_30_suma_hasta_29_dias (df : list LluviaDiaria)
    (tabla : list FilaModelo) (ff : Z) (f : FilaModelo) :
  max_fecha (fecha <$> df) = Some ff →
  generar_formato_modelo df = Ok tabla →
  f ∈ tabla →
  NoDup (fecha <$> grupo (fm_codigoestacion f) df) →
  ∃ dia0 resto,
    datos_est ff (grupo (fm_codigoestacion f) df) = dia0 :: resto
    ∧ (∀ r, r ∈ dia0 :: resto → ff - 29 ≤ fecha r ≤ ff)
    ∧ (length resto ≤ 29)%nat
    ∧ rain_ant_15 f = Some (suma (lluvia_diaria <$> take 15 resto))
    ∧ rain_ant_30 f = Some (suma (lluvia_diaria <$> resto)).
Proof.
  intros Hff Hg Hf Hnd. pose proof (max_fecha_Some _ _ Hff) as [_ Hmax].
  destruct (proj1 (generar_formato_modelo_elem_of _ ff _ _ Hff Hg) Hf)
    as (e & dia0 & resto & _ & E & Hfeq).
  subst f.
  simpl fm_codigoestacion in *. exists dia0, resto. split; [done|].
  assert (Hrango : ∀ r, r ∈ dia0 :: resto → ff - 29 ≤ fecha r ≤ ff).
  { intros r Hr. rewrite <- E in Hr. apply datos_est_elem_of in Hr as [Hr ?].
    apply grupo_elem_of in Hr as [Hr _]. split; [done|].
    apply Hmax. by apply list_elem_of_fmap_2. }
  split; [exact Hrango|].
  assert (Hlen : (length (dia0 :: resto) ≤ 30)%nat).
  { assert (Hnd' : NoDup (fecha <$> dia0 :: resto)).
    { rewrite <- E, datos_est_Permutation.
      eapply sublist_NoDup; [exact Hnd|]. apply fmap_sublist, sublist_filter. }
    rewrite <- (length_fmap fecha).
    change 30%nat with (Z.to_nat 30). rewrite <- (length_seqZ (ff - 29) 30).
    apply NoDup_incl_length; [by apply NoDup_ListNoDup|].
    intros x Hx. apply list_elem_of_In in Hx. apply list_elem_of_In.
    apply list_elem_of_fmap in Hx as (r & -> & Hr).
    apply elem_of_seqZ. specialize (Hrango r Hr). lia. }
  simpl in Hlen. split; [lia|]. split; [reflexivity|].
  simpl. by rewrite take_ge by lia.
Qed.

(** The theorem at station Y of the 31-date frame: 30 rows in the window,
    29 of them in the 30-day column. *)
Lemma acumulado_30_suma_hasta_29_dias_testigo :
  max_fecha (fecha <$> serie "Y" 0 31) = Some 30
  ∧ NoDup (fecha <$> grupo "Y" (serie "Y" 0 31))
  ∧ ∃ f dia0 resto,
      generar_formato_modelo (serie "Y" 0 31) = Ok [f]
      ∧ datos_est 30 (grupo (fm_codigoestacion f) (serie "Y" 0 31)) = dia0 :: resto
      ∧ (length resto ≤ 29)%nat
      ∧ rain_ant_30 f = Some (suma (lluvia_diaria <$> resto)).
Proof.
  assert (H1 : max_fecha (fecha <$> serie "Y" 0 31) = Some 30) by (vm_compute; reflexivity).
  assert (H2 : generar_formato_modelo (serie "Y" 0 31) = Ok [_])
    by (vm_compute; reflexivity).
  assert (H3 : NoDup (fecha <$> grupo "Y" (serie "Y" 0 31)))
    by (apply (bool_decide_unpack _); vm_compute; exact I).
  split; [exact H1|]. split; [exact H3|].
  destruct (acumulado_30_suma_hasta_29_dias _ _ 30 _ H1 H2 ltac:(left) H3)
    as (dia0 & resto & Ha & _ & Hb & _ & Hc).
  eexists _, dia0, resto. split; [exact H2|]. split; [exact Ha|].
  split; [exact Hb|exact Hc].
Defined.

(** ** The spatial filter and its chunks *)

Lemma filter_todos {A} (P : A → Prop) `{∀ x, Decision (P x)} (l : list A) :
  Forall P l → filter P l = l.
Proof.
  induction 1 as [|x l Hx _ IH]; [done|]. by rewrite filter_cons, decide_True, IH.
Qed.

(** X10: the size of the chunks does not change the result of the spatial
    filter: with any two positive sizes it gives the same frame, whose rows
    are exactly the rows of the input with numeric coordinates that lie
    within the region, in the order of the input; filtering the result
    again gives the same rows. *)
Theorem filtro_no_depende_de_los_chunks {Poligono}
    (within : list Poligono → Q → Q → bool) (n m : nat)
    (region : list Poligono) (df : Frame) :
  (0 < n)%nat → (0 < m)%nat →
  filtrar_chunks within n region df = filtrar_chunks within m region df
  ∧ filas (filtrar_chunks within n region df) `sublist_of` filas df
  ∧ (∀ o, o ∈ filas (filtrar_chunks within n region df) ↔
          o ∈ filas df ∧ coordenadas_validas o ∧ dentro within region o = true)
  ∧ filas (filtrar_chunks within m region (filtrar_chunks within n region df))
    = filas (filtrar_chunks within n region df).
Proof.
  intros Hn Hm.
  destruct (filtrar_chunks_filas within n region df Hn) as [Hcn Hfn].
  destruct (filtrar_chunks_filas within m region df Hm) as [Hcm Hfm].
  split; [|split; [|split]].
  - destruct (filtrar_chunks within n region df) as [c1 f1],
             (filtrar_chunks within m region df) as [c2 f2].
    simpl in *. congruence.
  - rewrite Hfn. transitivity (filter coordenadas_validas (filas df));
      apply sublist_filter.
  - intros o. rewrite Hfn, !list_elem_of_filter. tauto.
  - destruct (filtrar_chunks_filas within m region
                (filtrar_chunks within n region df) Hm) as [_ ->].
    rewrite Hfn.
    set (Y := filter (λ o, dentro within region o = true)
                (filter coordenadas_validas (filas df))).
    assert (HY : ∀ o, o ∈ Y → coordenadas_validas o ∧ dentro within region o = true).
    { intros o Ho. unfold Y in Ho. rewrite !list_elem_of_filter in Ho. tauto. }
    rewrite (filter_todos coordenadas_validas Y)
      by (apply Forall_forall; intros o Ho; by apply HY).
    apply filter_todos, Forall_forall. intros o Ho. by apply HY.
Qed.

(** The theorem at two readings, with chunks of one row and of 50000. *)
Lemma filtro_no_depende_de_los_chunks_testigo :
  (0 < 1)%nat ∧ (0 < chunk_size)%nat
  ∧ filtrar_chunks within_alguno 1 [tt] df_dos_lecturas
    = filtrar_chunks within_alguno chunk_size [tt] df_dos_lecturas
  ∧ filas (filtrar_chunks within_alguno 1 [tt] df_dos_lecturas) `sublist_of`
      filas df_dos_lecturas.
Proof.
  assert (H1 : (0 < 1)%nat) by lia.
  split; [exact H1|]. split; [exact chunk_size_pos|].
  destruct (filtro_no_depende_de_los_chunks within_alguno 1 chunk_size [tt]
              df_dos_lecturas H1 chunk_size_pos) as (Ha & Hb & _).
  split; [exact Ha|exact Hb].
Defined.

(** ** The download: attempts, blocks, coverage *)

(** X11: when a block is given up, exactly three pauses of 5 seconds were
    taken for it, one after each failed attempt but the fourth and last; a
    block that brings records ends at that attempt, after at most three
    pauses, and its data are not empty; the attempts write no file and no
    report. *)
Theorem bloque_cuatro_intentos {Poligono} (env : Entorno Poligono)
    (n fuel : nat) (ini fin : Z) (w w' : Mundo) (o : option (list Observacion)) :
  intentos_bloque env n fuel ini fin 0 w = Some (Ok o, w') →
  match o with
  | None => pausas w' = pausas w ++ [5; 5; 5]
  | Some block_data =>
      block_data ≠ []
      ∧ ∃ k, (k ≤ 3)%nat ∧ pausas w' = pausas w ++ replicate k 5
  end
  ∧ archivos w' = archivos w ∧ reportes w' = reportes w.
Proof.
  intros H. pose proof (intentos_bloque_pausas _ _ _ _ _ _ _ _ _ H) as (k & Hk & Ho).
  split.
  - destruct o as [d|].
    + destruct Ho as [Hle Hd]. split; [done|]. exists k. split; [|done].
      unfold max_retries in Hle. lia.
    + by rewrite Hk, Ho.
  - by apply intentos_bloque_mundo in H as (? & _ & (Ha & Hr & _) & _).
Qed.

(** The theorem at an API without data: the block is lost after three
    pauses. *)
Lemma bloque_cuatro_intentos_testigo :
  ∃ w', intentos_bloque env_sin_datos 4 4 0 86400 0 mundo_inicial = Some (Ok None, w')
    ∧ pausas w' = pausas mundo_inicial ++ [5; 5; 5]
    ∧ archivos w' = archivos mundo_inicial.
Proof.
  eexists.
  assert (H : intentos_bloque env_sin_datos 4 4 0 86400 0 mundo_inicial
              = Some (Ok None, _)) by (vm_compute; reflexivity).
  split; [exact H|].
  destruct (bloque_cuatro_intentos env_sin_datos 4 4 0 86400 _ _ None H)
    as (Ha & Hb & _).
  split; [exact Ha|exact Hb].
Defined.

(** X12: the blocks of a download follow one another across the range:
    the first starts at the start of the range, each later one starts at
    the very instant at which the one before ends, an instant that the
    queries of both include; each lasts one day, but the last, which ends
    at the end of the range and can be shorter. They are as many as the days
    of the range, rounded up; the lost blocks are among them, in order, and
    the download has no record exactly when every block is lost. *)
Theorem bloques_cubren_el_rango {Poligono} (env : Entorno Poligono)
    (fuel : nat) (ini fin : Z) (w w' : Mundo) (rep : Reporte) :
  obtener_datos_lluvia_masivos env fuel ini fin w = Some (Ok rep, w') →
  bloques_contiguos ini fin (bloques (descarga rep))
  ∧ length (bloques (descarga rep)) = bloques_previstos ini fin
  ∧ failed_blocks (descarga rep) `sublist_of` bloques (descarga rep)
  ∧ (all_data (descarga rep) = []
     ↔ failed_blocks (descarga rep) = bloques (descarga rep)).
Proof.
  intros H. destruct (masivos_traza _ _ _ _ _ _ _ H) as (k & Ha & Hb & Hc & _).
  apply masivos_mundo in H as (_ & _ & _ & _ & Hl & _).
  split; [done|]. split; [done|]. split; [done|exact Hc].
Qed.

(** The theorem at a range of two days and a half with one reading per
    block. *)
Lemma bloques_cubren_el_rango_testigo :
  ∃ rep w',
    obtener_datos_lluvia_masivos (env_una_lectura_por_dia 0) 10 0 216000 mundo_inicial
    = Some (Ok rep, w')
    ∧ bloques (descarga rep) = [(0, 86400); (86400, 172800); (172800, 216000)]
    ∧ bloques_contiguos 0 216000 (bloques (descarga rep))
    ∧ length (bloques (descarga rep)) = bloques_previstos 0 216000.
Proof.
  eexists _, _.
  assert (H : obtener_datos_lluvia_masivos (env_una_lectura_por_dia 0) 10 0 216000
                mundo_inicial = Some (Ok _, _)) by (vm_compute; reflexivity).
  split; [exact H|]. split; [reflexivity|].
  destruct (bloques_cubren_el_rango _ _ _ _ _ _ _ H) as (Ha & Hb & _).
  split; [exact Ha|exact Hb].
Defined.

(** X13: the pauses of a download are all of 5 seconds; their number is at
    least three times the number of lost blocks and at most three times the
    number of blocks: a download of n blocks sleeps at most 15 n seconds. *)
Theorem pausas_de_una_descarga {Poligono} (env : Entorno Poligono)
    (fuel : nat) (ini fin : Z) (w w' : Mundo) (rep : Reporte) :
  obtener_datos_lluvia_masivos env fuel ini fin w = Some (Ok rep, w') →
  ∃ k, pausas w' = pausas w ++ replicate k 5
    ∧ (3 * length (failed_blocks (descarga rep)) ≤ k)%nat
    ∧ (k ≤ 3 * bloques_previstos ini fin)%nat.
Proof.
  intros H. destruct (masivos_traza _ _ _ _ _ _ _ H) as (k & _ & _ & _ & Hp & Hk).
  apply masivos_mundo in H as (_ & _ & _ & _ & Hl & _).
  exists k. rewrite <- Hl. split; [done|]. lia.
Qed.

(** The theorem at an API without data and a range of one day: one lost
    block, three pauses. *)
Lemma pausas_de_una_descarga_testigo :
  ∃ rep w',
    obtener_datos_lluvia_masivos env_sin_datos 10 0 86400 mundo_inicial
    = Some (Ok rep, w')
    ∧ failed_blocks (descarga rep) = [(0, 86400)]
    ∧ ∃ k, pausas w' = pausas mundo_inicial ++ replicate k 5
        ∧ (3 * length (failed_blocks (descarga rep)) ≤ k)%nat
        ∧ (k ≤ 3 * bloques_previstos 0 86400)%nat.
Proof.
  eexists _, _.
  assert (H : obtener_datos_lluvia_masivos env_sin_datos 10 0 86400 mundo_inicial
              = Some (Ok _, _)) by (vm_compute; reflexivity).
  split; [exact H|]. split; [reflexivity|].
  exact (pausas_de_una_descarga _ _ _ _ _ _ _ H).
Defined.

Lemma cobertura_valor (t f : Z) :
  0 < t → (cobertura t f == (100 * (t - f)) # (Z.to_pos t))%Q.
Proof.
  intros Ht. destruct t as [|p|p]; try lia.
  unfold cobertura, Qeq, Qdiv, Qmult, Qinv, inject_Z. simpl. lia.
Qed.

Lemma cobertura_cotas (t f : Z) :
  0 < t → 0 ≤ f ≤ t →
  (0 <= cobertura t f)%Q ∧ (cobertura t f <= 100)%Q
  ∧ ((cobertura t f == 100)%Q ↔ f = 0)
  ∧ ((cobertura t f == 0)%Q ↔ f = t).
Proof.
  intros Ht Hf. rewrite !(cobertura_valor t f Ht).
  unfold Qle, Qeq. simpl. rewrite !Z2Pos.id by lia. repeat split; try lia; nia.
Qed.

Lemma sublist_misma_longitud {A} (l1 l2 : list A) :
  l1 `sublist_of` l2 → length l1 = length l2 → l1 = l2.
Proof.
  induction 1 as [|x l1 l2 _ IH|x l1 l2 Hs _]; simpl; intros Hl.
  - done.
  - f_equal. apply IH. lia.
  - apply sublist_length in Hs. lia.
Qed.

(** X14: for a range that is not a whole number of days, as that of a
    run, the coverage of a download lies between 0 and 100; it is 100
    exactly when no block is lost, and 0 exactly when the download brings
    no record. *)
Theorem cobertura_entre_0_y_100 {Poligono} (env : Entorno Poligono)
    (fuel : nat) (ini fin : Z) (w w' : Mundo) (rep : Reporte) :
  ini < fin → (fin - ini) `mod` SEGUNDOS_DIA ≠ 0 →
  obtener_datos_lluvia_masivos env fuel ini fin w = Some (Ok rep, w') →
  (0 <= success_percentage rep)%Q
  ∧ (success_percentage rep <= 100)%Q
  ∧ ((success_percentage rep == 100)%Q ↔ failed_blocks (descarga rep) = [])
  ∧ ((success_percentage rep == 0)%Q ↔ all_data (descarga rep) = []).
Proof.
  intros Hlt Hmod H.
  destruct (masivos_traza _ _ _ _ _ _ _ H) as (k & _ & Hsub & Hiff & _).
  apply masivos_mundo in H as (Ht & Hnz & Hf & Hp & Hl & Hle & _).
  pose proof (bloques_igual_dias ini fin Hlt Hmod) as Hbd.
  assert (Htot : 0 < total_days rep).
  { rewrite Ht, <- Hbd. rewrite Ht, <- Hbd in Hnz. lia. }
  assert (Hfd : 0 ≤ failed_days rep ≤ total_days rep) by (rewrite Hf, Ht, <- Hbd; lia).
  destruct (cobertura_cotas _ _ Htot Hfd) as (H0 & H100 & Heq100 & Heq0).
  rewrite Hp. split; [done|]. split; [done|]. split.
  - rewrite Heq100, Hf. split.
    + intros Hz. destruct (failed_blocks (descarga rep)); [done|]. simpl in Hz. lia.
    + by intros ->.
  - rewrite Heq0, Hiff, Hf, Ht, <- Hbd, <- Hl. split.
    + intros Hz. apply sublist_misma_longitud; [done|lia].
    + by intros ->.
Qed.

(** The theorem at a range of two days and a half without data: every
    block is lost and the coverage is 0. *)
Lemma cobertura_entre_0_y_100_testigo :
  0 < 216000 ∧ (216000 - 0) `mod` SEGUNDOS_DIA ≠ 0
  ∧ ∃ rep w',
      obtener_datos_lluvia_masivos env_sin_datos 10 0 216000 mundo_inicial
      = Some (Ok rep, w')
      ∧ (0 <= success_percentage rep)%Q
      ∧ (success_percentage rep <= 100)%Q
      ∧ ((success_percentage rep == 0)%Q ↔ all_data (descarga rep) = []).
Proof.
  assert (H1 : 0 < 216000) by lia.
  assert (H2 : (216000 - 0) `mod` SEGUNDOS_DIA ≠ 0) by (by vm_compute).
  assert (H : obtener_datos_lluvia_masivos env_sin_datos 10 0 216000 mundo_inicial
              = Some (Ok _, _)) by (vm_compute; reflexivity).
  split; [exact H1|]. split; [exact H2|]. eexists _, _. split; [exact H|].
  destruct (cobertura_entre_0_y_100 _ _ _ _ _ _ _ H1 H2 H) as (Ha & Hb & _ & Hc).
  split; [exact Ha|]. split; [exact Hb|exact Hc].
Defined.

(** ** The number of requests *)

Lemma paginas_llamadas {Poligono} (env : Entorno Poligono) B n ini fin off data errs
    w r w' :
  api_finita env B → (errs < 5)%nat →
  paginas env n ini fin off data errs w = Some (r, w') →
  (llamadas w < llamadas w'
   ∧ llamadas w' ≤ llamadas w + paginas_pendientes B off + (5 - errs))%nat.
Proof.
  intros Hfin. revert off data errs w.
  induction n as [|n IH]; intros off data errs w Herrs; [done|].
  rewrite paginas_S. cbv zeta.
  set (w1 := {| llamadas := S (llamadas w); pausas := pausas w;
                reportes := reportes w; archivos := archivos w |}).
  destruct (client_get env (llamadas w) ini fin off) as [batch| |] eqn:Hresp.
  - case_decide as Hb.
    + intros [= <- <-]. simpl. lia.
    + assert (HoffB : off < B).
      { destruct (decide (off < B)); [done|]. destruct Hb.
        eapply Hfin; [|exact Hresp]. lia. }
      intros Hrec. apply IH in Hrec; [|done]. simpl in Hrec.
      pose proof (paginas_pendientes_S B off HoffB). lia.
  - case_decide.
    + intros Hrec. apply IH in Hrec; [|done]. simpl in Hrec.
      pose proof (paginas_pendientes_mono B off). lia.
    + intros [= <- <-]. simpl. lia.
  - intros [= <- <-]. simpl. lia.
Qed.

Lemma dormir_llamadas (c : bool) w w2 :
  (if c then dormir 5 else mret ()) w = Some (Ok (), w2) → llamadas w2 = llamadas w.
Proof. destruct c; by intros [= <-]. Qed.

Lemma intentos_bloque_llamadas {Poligono} (env : Entorno Poligono) B n fuel ini fin rc
    w r w' :
  api_finita env B →
  intentos_bloque env n fuel ini fin rc w = Some (r, w') →
  (llamadas w ≤ llamadas w'
   ∧ (rc ≤ max_retries → llamadas w < llamadas w')
   ∧ llamadas w'
     ≤ llamadas w + (max_retries + 1 - rc) * (paginas_pendientes B 0 + 5))%nat.
Proof.
  intros Hfin. revert rc w. induction n as [|n IH]; intros rc w; cbn [intentos_bloque].
  - case_decide; [done|]. intros [= <- <-]. split; [done|]. split; [done|lia].
  - case_decide as Hrc; [|intros [= <- <-]; split; [done|]; split; [done|lia]].
    intros H. apply M_bind_Some in H as [(d & w1 & Hp & H)|(msg & Hp & _)].
    2:{ by apply paginas_mundo in Hp as (? & ? & _). }
    apply (paginas_llamadas env B) in Hp as [Hp1 Hp2]; [|done|lia].
    case_decide as Hlen.
    + injection H as <- <-. split; [lia|]. split; [done|].
      unfold max_retries in *. nia.
    + apply M_bind_Some in H as [([] & w2 & Hd & H)|(msg & Hd & _)].
      2:{ case_decide; by inversion Hd. }
      assert (Hw2 : llamadas w2 = llamadas w1).
      { destruct (decide (S rc ≤ max_retries)%nat); by injection Hd as <-. }
      apply IH in H as (Hmono & _ & H). rewrite Hw2 in H, Hmono.
      split; [lia|]. split; [lia|].
      unfold max_retries in *.
      replace (3 + 1 - rc)%nat with (S (3 + 1 - S rc))%nat by lia.
      rewrite Nat.mul_succ_l. lia.
Qed.

Lemma bucle_bloques_llamadas {Poligono} (env : Entorno Poligono) B n fuel cs fin d
    w r w' :
  api_finita env B →
  bucle_bloques env n fuel cs fin d w = Some (r, w') →
  (llamadas w + bloques_previstos cs fin ≤ llamadas w'
   ∧ llamadas w'
     ≤ llamadas w
       + bloques_previstos cs fin * ((max_retries + 1) * (paginas_pendientes B 0 + 5)))%nat.
Proof.
  intros Hfin. revert cs d w. induction n as [|n IH]; intros cs d w; cbn [bucle_bloques].
  - case_decide as Hlt; [done|]. intros [= <- <-].
    rewrite (bloques_previstos_fin _ _ Hlt). lia.
  - case_decide as Hlt.
    2:{ intros [= <- <-]. rewrite (bloques_previstos_fin _ _ Hlt). lia. }
    intros H. apply M_bind_Some in H as [(o & w1 & Hi & H)|(msg & Hi & _)].
    2:{ by apply intentos_bloque_mundo in Hi as (? & ? & _). }
    apply (intentos_bloque_llamadas env B) in Hi as (_ & Hi1 & Hi2); [|done].
    specialize (Hi1 ltac:(unfold max_retries; lia)).
    apply IH in H as [H1 H2]. rewrite (bloques_previstos_S _ _ Hlt).
    rewrite Nat.sub_0_r in Hi2. split; [lia|]. rewrite Nat.mul_succ_l. lia.
Qed.

(** X15: when the data set behind the API is finite (no record from the
    offset B on), a download sends at least one request per block and at
    most 4 (ceil(B / 2000) + 5) requests per block: four attempts, each of
    at most the pages that can hold records and five further requests
    (errors of connectivity and the empty page). *)
Theorem llamadas_de_una_descarga {Poligono} (env : Entorno Poligono)
    (B : Z) (fuel : nat) (ini fin : Z) (w w' : Mundo) (r : resultado Reporte) :
  api_finita env B →
  obtener_datos_lluvia_masivos env fuel ini fin w = Some (r, w') →
  (llamadas w + bloques_previstos ini fin ≤ llamadas w'
   ∧ llamadas w'
     ≤ llamadas w + bloques_previstos ini fin * (4 * (paginas_pendientes B 0 + 5)))%nat.
Proof.
  intros Hfin H. unfold obtener_datos_lluvia_masivos in H.
  apply M_bind_Some in H as [(d & w1 & Hb & H)|(msg & Hb & _)].
  2:{ by apply bucle_bloques_mundo in Hb as (? & ? & _). }
  apply (bucle_bloques_llamadas env B) in Hb; [|done].
  assert (Hw : llamadas w' = llamadas w1).
  { case_decide; [by injection H as <- <-|].
    unfold mbind, M_bind, reportar in H. simpl in H. by injection H as <- <-. }
  rewrite Hw. exact Hb.
Qed.

(** The theorem at the API with one reading per block and a range of two
    days and a half: 6 requests for 3 blocks. *)
Lemma llamadas_de_una_descarga_testigo :
  api_finita (env_una_lectura_por_dia 0) 2000
  ∧ ∃ rep w',
      obtener_datos_lluvia_masivos (env_una_lectura_por_dia 0) 10 0 216000 mundo_inicial
      = Some (Ok rep, w')
      ∧ llamadas w' = 6%nat
      ∧ (llamadas mundo_inicial + bloques_previstos 0 216000 ≤ llamadas w'
         ∧ llamadas w'
           ≤ llamadas mundo_inicial
             + bloques_previstos 0 216000 * (4 * (paginas_pendientes 2000 0 + 5)))%nat.
Proof.
  assert (H1 : api_finita (env_una_lectura_por_dia 0) 2000).
  { intros n ini fin off batch Hoff. simpl.
    rewrite decide_False by lia. by intros [= <-]. }
  assert (H : obtener_datos_lluvia_masivos (env_una_lectura_por_dia 0) 10 0 216000
                mundo_inicial = Some (Ok _, _)) by (vm_compute; reflexivity).
  split; [exact H1|]. eexists _, _. split; [exact H|]. split; [reflexivity|].
  exact (llamadas_de_una_descarga _ 2000 _ _ _ _ _ _ H1 H).
Defined.

(** ** A run against an API without records *)

Section SinRegistros.

Context {Poligono : Type} (env : Entorno Poligono) (fuel : nat).
Hypothesis Hsin : api_sin_registros env.
Hypothesis Hfuel : (4 ≤ fuel)%nat.

Lemma paginas_sin_registros n ini fin off w :
  (1 ≤ n)%nat →
  paginas env n ini fin off [] 0 w
  = Some (Ok [], {| llamadas := S (llamadas w); pausas := pausas w;
                    reportes := reportes w; archivos := archivos w |}).
Proof.
  destruct n as [|n]; [lia|]. intros _.
  rewrite paginas_S. cbv zeta. by destruct (Hsin (llamadas w) ini fin off) as [-> | ->].
Qed.

Lemma intentos_bloque_sin_registros n ini fin rc w :
  (max_retries + 1 - rc ≤ n)%nat →
  ∃ w', intentos_bloque env n fuel ini fin rc w = Some (Ok None, w')
    ∧ llamadas w' = (llamadas w + (max_retries + 1 - rc))%nat
    ∧ pausas w' = pausas w ++ replicate (max_retries - rc) 5
    ∧ reportes w' = reportes w ∧ archivos w' = archivos w.
Proof.
  revert rc w. induction n as [|n IH]; intros rc w Hn; cbn [intentos_bloque].
  - rewrite decide_False by (unfold max_retries in *; lia).
    exists w. split; [done|]. replace (max_retries + 1 - rc)%nat with 0%nat by lia.
    replace (max_retries - rc)%nat with 0%nat by lia.
    rewrite app_nil_r. repeat split. lia.
  - case_decide as Hrc.
    2:{ exists w. split; [done|]. replace (max_retries + 1 - rc)%nat with 0%nat by lia.
        replace (max_retries - rc)%nat with 0%nat by lia.
        rewrite app_nil_r. repeat split. lia. }
    rewrite (M_bind_Ok _ _ _ _ _ (paginas_sin_registros fuel ini fin 0 w ltac:(lia))).
    rewrite decide_False by (simpl; lia).
    destruct (decide (S rc ≤ max_retries)%nat) as [Hle|Hgt].
    + rewrite (M_bind_Ok (A := unit) _ _ _ () _ eq_refl).
      destruct (IH (S rc)
                  {| llamadas := S (llamadas w); pausas := pausas w ++ [5];
                     reportes := reportes w; archivos := archivos w |}
                  ltac:(lia)) as (w' & Hi & Hl & Hp & Hr & Ha).
      exists w'. split; [exact Hi|]. simpl in Hl, Hp, Hr, Ha. unfold max_retries in *.
      split; [lia|]. split; [|done].
      rewrite Hp, <- app_assoc.
      replace (3 - rc)%nat with (S (3 - S rc)) by lia. done.
    + rewrite (M_bind_Ok (A := unit) _ _ _ () _ eq_refl).
      destruct (IH (S rc)
                  {| llamadas := S (llamadas w); pausas := pausas w;
                     reportes := reportes w; archivos := archivos w |}
                  ltac:(lia)) as (w' & Hi & Hl & Hp & Hr & Ha).
      exists w'. split; [exact Hi|]. simpl in Hl, Hp, Hr, Ha. unfold max_retries in *.
      split; [lia|]. split; [|done].
      rewrite Hp. by replace (3 - rc)%nat with (3 - S rc)%nat by lia.
Qed.

Lemma bucle_bloques_sin_registros n cs fin d w :
  (bloques_previstos cs fin ≤ n)%nat →
  ∃ d' w', bucle_bloques env n fuel cs fin d w = Some (Ok d', w')
    ∧ all_data d' = all_data d
    ∧ length (failed_blocks d')
      = (length (failed_blocks d) + bloques_previstos cs fin)%nat
    ∧ llamadas w' = (llamadas w + 4 * bloques_previstos cs fin)%nat
    ∧ pausas w' = pausas w ++ replicate (3 * bloques_previstos cs fin) 5
    ∧ reportes w' = reportes w ∧ archivos w' = archivos w.
Proof.
  revert cs d w. induction n as [|n IH]; intros cs d w Hn; cbn [bucle_bloques].
  - case_decide as Hlt.
    { rewrite (bloques_previstos_S _ _ Hlt) in Hn. lia. }
    rewrite (bloques_previstos_fin _ _ Hlt). exists d, w. split; [done|].
    rewrite app_nil_r. repeat split; lia.
  - case_decide as Hlt.
    2:{ rewrite (bloques_previstos_fin _ _ Hlt). exists d, w. split; [done|].
        rewrite app_nil_r. repeat split; lia. }
    rewrite (bloques_previstos_S _ _ Hlt) in Hn |- *.
    set (ce := Z.min (cs + block_size * SEGUNDOS_DIA) fin) in *.
    destruct (intentos_bloque_sin_registros fuel cs ce 0 w
                ltac:(unfold max_retries; lia)) as (w1 & Hi & Hl1 & Hp1 & Hr1 & Ha1).
    rewrite (M_bind_Ok _ _ _ _ _ Hi).
    destruct (IH ce {| all_data := all_data d;
                       failed_blocks := failed_blocks d ++ [(cs, ce)];
                       bloques := bloques d ++ [(cs, ce)] |} w1 ltac:(lia))
      as (d' & w' & Hb & Hd & Hf & Hl & Hp & Hr & Ha).
    exists d', w'. split; [exact Hb|]. simpl in Hd, Hf. rewrite length_app in Hf.
    simpl in Hf. unfold max_retries in *.
    split; [done|]. split; [lia|]. split; [lia|].
    split; [|split; congruence].
    rewrite Hp, Hp1, <- app_assoc, <- replicate_add. f_equal. f_equal. lia.
Qed.

Lemma masivos_sin_registros ini fin w :
  dias_solicitados ini fin = 31 → bloques_previstos ini fin = 31%nat →
  (31 ≤ fuel)%nat →
  ∃ rep w', obtener_datos_lluvia_masivos env fuel ini fin w = Some (Ok rep, w')
    ∧ all_data (descarga rep) = []
    ∧ success_percentage rep = cobertura 31 31
    ∧ llamadas w' = (llamadas w + 124)%nat
    ∧ pausas w' = pausas w ++ replicate 93 5
    ∧ reportes w' = reportes w ++ [(0%nat, cobertura 31 31)]
    ∧ archivos w' = archivos w.
Proof.
  intros Hdias Hbloques H31. unfold obtener_datos_lluvia_masivos.
  destruct (bucle_bloques_sin_registros fuel ini fin
              {| all_data := []; failed_blocks := []; bloques := [] |} w
              ltac:(lia)) as (d & w1 & Hb & Hd & Hf & Hl & Hp & Hr & Ha).
  rewrite (M_bind_Ok _ _ _ _ _ Hb). cbv zeta. simpl in Hd, Hf.
  rewrite Hdias, Hf, Hbloques, Hd. rewrite decide_False by done.
  unfold mbind, M_bind, reportar. simpl.
  eexists _, _. split; [reflexivity|]. simpl. rewrite Hbloques in Hl, Hp.
  split; [done|]. split; [reflexivity|]. split; [lia|]. split; [exact Hp|].
  split; [by rewrite Hr|done].
Qed.

End SinRegistros.

(** X17: when both shapefiles exist and no request brings a record or fails
    for connectivity, the run downloads the 31 blocks three times, four
    requests and three pauses of 5 seconds a block, 372 requests in all,
    with a pause of 10 seconds between downloads; each download reports no
    record and coverage 0, and the run ends with the exception of
    insufficient coverage and exit code 1, no file written. *)
Theorem corrida_sin_registros {Poligono} (within : list Poligono → Q → Q → bool)
    (env : Entorno Poligono) (fuel : nat) (w : Mundo) :
  existe_estaciones env = true → existe_region env = true →
  api_sin_registros env → (31 ≤ fuel)%nat →
  ∃ w', procesar_datos_completos within env fuel w
        = Some (Excepcion "Cobertura de datos insuficiente", w')
    ∧ main within env fuel w = Some (1, w')
    ∧ llamadas w' = (llamadas w + 372)%nat
    ∧ pausas w' = pausas w ++ replicate 93 5 ++ [10] ++ replicate 93 5
                           ++ [10] ++ replicate 93 5
    ∧ reportes w' = reportes w ++ replicate 3 (0%nat, cobertura 31 31)
    ∧ archivos w' = archivos w.
Proof.
  intros He Hr Hsin Hfuel.
  destruct (periodo_dias (ahora env)) as [Hdias Hbloques].
  assert (H4 : (4 ≤ fuel)%nat) by lia.
  pose proof (λ w, masivos_sin_registros env fuel Hsin H4 _ _ w Hdias Hbloques Hfuel) as Hm.
  destruct (Hm w) as (rep1 & w1 & Hm1 & Hd1 & Hc1 & Hl1 & Hp1 & Hr1 & Ha1).
  set (w1' := {| llamadas := llamadas w1; pausas := pausas w1 ++ [10];
                 reportes := reportes w1; archivos := archivos w1 |}).
  destruct (Hm w1') as (rep2 & w2 & Hm2 & Hd2 & Hc2 & Hl2 & Hp2 & Hr2 & Ha2).
  set (w2' := {| llamadas := llamadas w2; pausas := pausas w2 ++ [10];
                 reportes := reportes w2; archivos := archivos w2 |}).
  destruct (Hm w2') as (rep3 & w3 & Hm3 & Hd3 & Hc3 & Hl3 & Hp3 & Hr3 & Ha3).
  assert (Hbucle : bucle_intentos env fuel (seq 0 (max_complete_retries + 1))
                     (periodo (ahora env)).1 (periodo (ahora env)).2
                     {| rama := None; datos := []; porcentaje := 0; descargas := 0 |} w
                   = Some (Excepcion "Cobertura de datos insuficiente", w3)).
  { cbn [max_complete_retries Nat.add seq bucle_intentos].
    rewrite (decide_False (P := (0 < 0)%nat)) by lia.
    rewrite (M_bind_Ok (A := unit) _ _ w () w eq_refl).
    rewrite (M_bind_Ok _ _ _ _ _ Hm1). cbv zeta. rewrite Hc1.
    change (Qle_bool min_coverage (cobertura 31 31)) with false. cbv iota.
    rewrite (decide_True (P := (0 < max_complete_retries)%nat))
      by (unfold max_complete_retries; lia).
    cbn [bucle_intentos].
    rewrite (decide_True (P := (0 < 1)%nat)) by lia.
    rewrite (M_bind_Ok (dormir 10) _ w1 () w1' eq_refl).
    rewrite (M_bind_Ok _ _ _ _ _ Hm2). cbv zeta. rewrite Hc2.
    change (Qle_bool min_coverage (cobertura 31 31)) with false. cbv iota.
    rewrite (decide_True (P := (1 < max_complete_retries)%nat))
      by (unfold max_complete_retries; lia).
    cbn [bucle_intentos].
    rewrite (decide_True (P := (0 < 2)%nat)) by lia.
    rewrite (M_bind_Ok (dormir 10) _ w2 () w2' eq_refl).
    rewrite (M_bind_Ok _ _ _ _ _ Hm3). cbv zeta. rewrite Hc3.
    change (Qle_bool min_coverage (cobertura 31 31)) with false. cbv iota.
    rewrite (decide_False (P := (2 < max_complete_retries)%nat))
      by (unfold max_complete_retries; lia).
    change (Qle_bool 50 (cobertura 31 31)) with false. reflexivity. }
  assert (Hproc : procesar_datos_completos within env fuel w
                  = Some (Excepcion "Cobertura de datos insuficiente", w3)).
  { assert (Hdesc : descargar_con_reintentos env fuel w
                      = Some (Excepcion "Cobertura de datos insuficiente", w3)).
    { rewrite (descargar_con_reintentos_archivos_presentes env fuel w He Hr).
      unfold mbind, M_bind. by rewrite Hbucle. }
    unfold procesar_datos_completos, mbind, M_bind. by rewrite Hdesc. }
  exists w3. split; [exact Hproc|]. split.
  { unfold main. unfold mbind, M_bind. by rewrite Hproc. }
  subst w1' w2'. simpl in *.
  split; [lia|]. split.
  { rewrite Hp3, Hp2, Hp1. by rewrite <- !app_assoc. }
  split; [|congruence].
  rewrite Hr3, Hr2, Hr1. by rewrite <- !app_assoc.
Qed.

(** The theorem at the API that answers every request with the empty
    page. *)
Lemma corrida_sin_registros_testigo :
  api_sin_registros env_sin_datos
  ∧ ∃ w', main (λ _ _ _, true) env_sin_datos 31 mundo_inicial = Some (1, w')
      ∧ llamadas w' = 372%nat
      ∧ archivos w' = [].
Proof.
  assert (H1 : api_sin_registros env_sin_datos) by (intros ? ? ? ?; by left).
  split; [exact H1|].
  destruct (corrida_sin_registros (λ _ _ _, true) env_sin_datos 31 mundo_inicial
              eq_refl eq_refl H1 (le_n 31)) as (w' & _ & Hm & Hl & _ & _ & Ha).
  exists w'. split; [exact Hm|]. split; [exact Hl|exact Ha].
Defined.

(** ** Saving the model table *)

(** X18: saving a table that the feature builder made does not raise: it
    writes the dated table, the latest copy and the summary, in that order,
    and nothing else changes; the date in the name of the dated table is
    that of the first row, the latest date that the station of that row has
    in the input of the feature builder. *)
Theorem guardar_tabla_del_modelo (df : list LluviaDiaria) (tabla : list FilaModelo)
    (w : Mundo) :
  generar_formato_modelo df = Ok tabla →
  ∃ fila0 d,
    head tabla = Some fila0 ∧ data fila0 = Some d
    ∧ (∃ r, r ∈ df ∧ codigoestacion r = fm_codigoestacion fila0 ∧ fecha r = d)
    ∧ (∀ r, r ∈ df → codigoestacion r = fm_codigoestacion fila0 → fecha r ≤ d)
    ∧ ∃ w', guardar_resultados tabla w = Some (Ok (), w')
        ∧ archivos w'
          = archivos w ++ [lluvia_30d d; lluvia_procesada_latest; resumen_lluvia]
        ∧ llamadas w' = llamadas w ∧ pausas w' = pausas w
        ∧ reportes w' = reportes w.
Proof.
  intros Hg.
  destruct (max_fecha (fecha <$> df)) as [ff|] eqn:Hff.
  2:{ apply max_fecha_None, fmap_nil_inv in Hff. by subst df. }
  destruct tabla as [|fila0 tabla].
  { rewrite (generar_formato_modelo_Ok _ _ Hff) in Hg. injection Hg as Hg.
    destruct (indice_no_vacio _ _ Hff).
    rewrite <- (fila_esperada_indice df ff (indice ff df))
      by (intros e He; by apply indice_elem_of in He as [_ ?]).
    by rewrite Hg. }
  assert (Hf : fila0 ∈ fila0 :: tabla) by left.
  apply (generar_formato_modelo_elem_of _ ff _ _ Hff Hg) in Hf
    as (e & dia0 & resto & _ & E & Hfila).
  apply datos_est_dia0 in E as [Hd0 Hmax]. apply grupo_elem_of in Hd0 as [Hd0 Hc0].
  exists fila0, (fecha dia0). subst fila0. simpl.
  split; [done|]. split; [done|]. split; [by exists dia0|]. split.
  { intros r Hr Hc. apply Hmax. by apply grupo_elem_of. }
  unfold guardar_resultados. simpl. unfold mbind, M_bind, escribir. simpl.
  eexists. split; [reflexivity|]. simpl. by rewrite <- !app_assoc.
Qed.

(** The theorem at the station that reports on four days. *)
Lemma guardar_tabla_del_modelo_testigo :
  ∃ tabla w',
    generar_formato_modelo df_cuatro_dias = Ok tabla
    ∧ guardar_resultados tabla mundo_inicial = Some (Ok (), w')
    ∧ archivos w' = [lluvia_30d 3; lluvia_procesada_latest; resumen_lluvia].
Proof.
  assert (H : generar_formato_modelo df_cuatro_dias
              = Ok (omap (fila_esperada 3 df_cuatro_dias) (indice 3 df_cuatro_dias)))
    by (apply generar_formato_modelo_Ok; vm_compute; reflexivity).
  destruct (guardar_tabla_del_modelo df_cuatro_dias _ mundo_inicial H)
    as (fila0 & d & Hh & Hd & _ & _ & w' & Hs & Ha & _).
  eexists _, w'. split; [exact H|]. split; [exact Hs|].
  rewrite Ha. vm_compute in Hh. injection Hh as <-. vm_compute in Hd.
  injection Hd as <-. reflexivity.
Defined.
